(** * testproxy: a dual-dispatch recording proxy

    A shallow embedding of the Go sources

    - [src/httpdump.go]       ([stoppableListener], [stoppableConn],
                               [FileStream], [TeeReadCloser]),
    - [src/main.go]           (the [http.Client] based [dualServer]),
    - [src/unnamed/part_000]  (the [http.Handler] based [dualServer]),

    and the properties of the specification checked against them.

    Go values are modelled as the code has them: [uint32] and [int] as [Z]
    (with the wrap-around of [atomic.AddUint32] written out), [string] and
    [[]byte] as [string], [map[string][]string] as [gmap string (list string)],
    pointers to maps and readers as locations in an explicit store, and
    [error] as [option string] ([None] is [nil]). *)

From Stdlib Require Import ZArith NArith Lia List Ascii String.
From Stdlib Require Import DecimalFacts DecimalString DecimalNat.
From stdpp Require Import base option list strings gmap pretty.

Open Scope string_scope.
Open Scope list_scope.
Open Scope Z_scope.

(** Go's [error]: [None] is [nil]. *)
Abbreviation error := (option string).

(** * The draining listener ([src/httpdump.go]) *)

Module Listener.

  (** The underlying [net.Listener]: whether it was closed, and what the
      network will hand to the next calls of its [Accept] (a connection, named
      by a number, or an error). *)
Record netListener := {
    closed : bool;
    backlog : list (nat + string)
  }.

  (** [type stoppableListener struct { net.Listener; sync.WaitGroup }],
      together with the connections of the process that are open. The
      [wg *sync.WaitGroup] of every [stoppableConn] points to the [WaitGroup]
      field of this one listener. *)
Record stoppableListener := {
    Listener : netListener;
    WaitGroup : Z;
    open_conns : list nat
  }.

  (** [type stoppableConn struct { net.Conn; wg *sync.WaitGroup }] *)
Record stoppableConn := { Conn : nat }.

  (** What a call can do besides returning: [sync.WaitGroup.Add] panics when
      the counter turns negative; [Wait] blocks while the counter is not zero,
      and [Accept] blocks while no connection is pending. *)
Inductive outcome (A : Type) : Type :=
  | Ret (a : A) (sl : stoppableListener)
  | Panic (msg : string)
  | Blocked.
  Arguments Ret {A} a sl.
  Arguments Panic {A} msg.
  Arguments Blocked {A}.

Definition bind {A B} (m : outcome A) (k : A -> stoppableListener -> outcome B)
    : outcome B :=
    match m with
    | Ret a sl => k a sl
    | Panic msg => Panic msg
    | Blocked => Blocked
    end.

Definition newStoppableListener (l : netListener) : stoppableListener :=
    {| Listener := l; WaitGroup := 0; open_conns := [] |}.

  (** [sync.WaitGroup]: [Add], [Done] and [Wait]. *)
Definition Add (delta : Z) (sl : stoppableListener) : outcome unit :=
    let v := WaitGroup sl + delta in
    if v <? 0 then Panic "sync: negative WaitGroup counter"
    else Ret tt {| Listener := Listener sl; WaitGroup := v;
                   open_conns := open_conns sl |}.

Definition Done (sl : stoppableListener) : outcome unit := Add (-1) sl.

Definition Wait (sl : stoppableListener) : outcome unit :=
    if WaitGroup sl =? 0 then Ret tt sl else Blocked.

  (** [net.Listener.Accept] and [net.Listener.Close] of the embedded
      listener. *)
Definition Listener_Accept (sl : stoppableListener)
    : outcome (option nat * error) :=
    let l := Listener sl in
    if closed l then Ret (None, Some "use of closed network connection") sl
    else match backlog l with
         | [] => Blocked
         | inl c :: rest =>
             Ret (Some c, None)
               {| Listener := {| closed := false; backlog := rest |};
                  WaitGroup := WaitGroup sl;
                  open_conns := c :: open_conns sl |}
         | inr e :: rest =>
             Ret (None, Some e)
               {| Listener := {| closed := false; backlog := rest |};
                  WaitGroup := WaitGroup sl;
                  open_conns := open_conns sl |}
         end.

Definition Listener_Close (sl : stoppableListener) : outcome error :=
    let l := Listener sl in
    Ret (if closed l then Some "use of closed network connection" else None)
      {| Listener := {| closed := true; backlog := backlog l |};
         WaitGroup := WaitGroup sl;
         open_conns := open_conns sl |}.

  (** [net.Conn.Close] of the wrapped connection. *)
Definition Conn_Close (c : nat) (sl : stoppableListener) : outcome error :=
    if bool_decide (c ∈ open_conns sl)
    then Ret None {| Listener := Listener sl; WaitGroup := WaitGroup sl;
                     open_conns := filter (λ c', c' ≠ c) (open_conns sl) |}
    else Ret (Some "use of closed network connection") sl.

  (** [func (sl *stoppableListener) Accept() (net.Conn, error)] *)
Definition Accept (sl : stoppableListener)
    : outcome (option stoppableConn * error) :=
    bind (Listener_Accept sl) (λ '(c, err) sl,
      match err, c with
      | None, Some c =>
          bind (Add 1 sl) (λ _ sl, Ret (Some {| Conn := c |}, None) sl)
      | _, _ => Ret (None, err) sl
      end).

  (** [func (sc *stoppableConn) Close() error] *)
Definition Close (sc : stoppableConn) (sl : stoppableListener) : outcome error :=
    bind (Done sl) (λ _ sl, Conn_Close (Conn sc) sl).

  (** [k] calls of [sc.Close()] in a row; the errors returned, last first. *)
Fixpoint Close_times (k : nat) (sc : stoppableConn) (sl : stoppableListener)
    : outcome (list error) :=
    match k with
    | O => Ret [] sl
    | S k' => bind (Close sc sl) (λ e sl,
                bind (Close_times k' sc sl) (λ es sl, Ret (es ++ [e]) sl))
    end.

  (** The body of the goroutine of [main] that handles the interrupt:
      [sl.Add(1); sl.Close(); sl.Done()] ([Close] is the promoted method of the
      embedded [net.Listener]). *)
Definition interrupt (sl : stoppableListener) : outcome unit :=
    bind (Add 1 sl) (λ _ sl,
      bind (Listener_Close sl) (λ _ sl, Done sl)).

  (** ** Basic facts *)

Lemma Add_Ret delta sl :
    0 <= WaitGroup sl + delta ->
    Add delta sl = Ret tt {| Listener := Listener sl;
                             WaitGroup := WaitGroup sl + delta;
                             open_conns := open_conns sl |}.
  Proof.
    intros H. unfold Add. destruct (Z.ltb_spec (WaitGroup sl + delta) 0); [lia|done].
  Qed.

Lemma Add_Panic delta sl :
    WaitGroup sl + delta < 0 ->
    Add delta sl = Panic "sync: negative WaitGroup counter".
  Proof.
    intros H. unfold Add. destruct (Z.ltb_spec (WaitGroup sl + delta) 0); [done|lia].
  Qed.

Lemma Conn_Close_WaitGroup c sl :
    exists e sl', Conn_Close c sl = Ret e sl' /\ WaitGroup sl' = WaitGroup sl.
  Proof.
    unfold Conn_Close. case_bool_decide; eauto.
  Qed.

Lemma Close_Ret sc sl :
    1 <= WaitGroup sl ->
    exists e sl', Close sc sl = Ret e sl' /\ WaitGroup sl' = WaitGroup sl - 1.
  Proof.
    intros H. unfold Close, Done. rewrite Add_Ret by lia. simpl.
    destruct (Conn_Close_WaitGroup (Conn sc)
                {| Listener := Listener sl; WaitGroup := WaitGroup sl + -1;
                   open_conns := open_conns sl |}) as (e & sl' & -> & Hw).
    exists e, sl'. split; [done|]. simpl in Hw. lia.
  Qed.

Lemma Close_Panic sc sl :
    WaitGroup sl < 1 ->
    Close sc sl = Panic "sync: negative WaitGroup counter".
  Proof.
    intros H. unfold Close, Done. by rewrite Add_Panic by lia.
  Qed.

Lemma Close_times_Ret sc k : forall sl,
    Z.of_nat k <= WaitGroup sl ->
    exists es sl', Close_times k sc sl = Ret es sl'
                   /\ WaitGroup sl' = WaitGroup sl - Z.of_nat k.
  Proof.
    induction k as [|k IH]; intros sl H.
    - exists [], sl. split; [done|]. simpl; lia.
    - destruct (Close_Ret sc sl) as (e & sl1 & He & Hw); [lia|].
      destruct (IH sl1) as (es & sl2 & Hes & Hw2); [lia|].
      exists (es ++ [e]), sl2. cbn [Close_times]. rewrite He. cbn [bind].
      rewrite Hes. cbn [bind]. split; [done|]. lia.
  Qed.

Lemma Close_times_Panic sc k : forall sl,
    0 <= WaitGroup sl < Z.of_nat k ->
    Close_times k sc sl = Panic "sync: negative WaitGroup counter".
  Proof.
    induction k as [|k IH]; intros sl H; [lia|].
    cbn [Close_times].
    destruct (Z.eq_dec (WaitGroup sl) 0) as [H0|H0].
    - by rewrite Close_Panic by lia.
    - destruct (Close_Ret sc sl) as (e & sl1 & -> & Hw); [lia|].
      cbn [bind]. rewrite IH by lia. done.
  Qed.

Lemma Accept_WaitGroup sl r sl' :
    0 <= WaitGroup sl -> Accept sl = Ret r sl' ->
    match r with
    | (Some _, None) => WaitGroup sl' = WaitGroup sl + 1
    | (None, Some _) => WaitGroup sl' = WaitGroup sl
    | _ => False
    end.
  Proof.
    intros H. unfold Accept, Listener_Accept.
    destruct (closed (Listener sl)); cbn.
    { intros [= <- <-]. done. }
    destruct (backlog (Listener sl)) as [|[c|e] rest]; cbn; [done| |].
    - rewrite Add_Ret by (cbn; lia). cbn. intros [= <- <-]. done.
    - intros [= <- <-]. done.
  Qed.

End Listener.

(** * The world a handler runs in

    The parts of the operating system and of Go's [net/http] that the two
    [dualServer]s touch: files and open file handles, the store holding
    [http.Header] maps and body readers (both are reference values in Go), the
    log, the requests dispatched to the backends, and the [http.ResponseWriter]
    of the caller. *)

Abbreviation Header := (gmap string (list string)).

Definition LF : string := String (ascii_of_nat 10) "".
Definition CRLF : string := String (ascii_of_nat 13) LF.

(** A body reader: what is left to read, and whether it was closed. *)
Record Stream := { remaining : string; sclosed : bool }.

(** An [*os.File]. *)
Record File := { Name : string; fopen : bool }.

Inductive Which := Primary | Secondary.

(** The content of a request and of a response, as they travel. *)
Module ReqData.
Record t := { Method : string; URL : string; RequestURI : string;
                Header : Header; Body : string }.
End ReqData.
Module RespData.
Record t := { StatusCode : Z; Header : Header; Body : string }.
End RespData.

(** [multiCloser] of both [main.go] and [part_000] holds [io.Closer]s: here a
    body reader of [net/http] or a file. *)
Inductive Closer := CloserBody (s : nat) | CloserFile (fh : nat).

Record multiCloser := { closers : list Closer }.

(** [struct { io.Reader; io.Closer }]; a body made by [net/http] itself reads
    from and closes the same reader. *)
Record Body := { Reader : nat; Closer_ : multiCloser }.

Definition libBody (s : nat) : Body :=
  {| Reader := s; Closer_ := {| closers := [CloserBody s] |} |}.

(** [*http.Request] and [*http.Response]: the header is a map and the body a
    reader, both held by reference. *)
Module Req.
Record t := { Method : string; URL : string; RequestURI : string;
                Header : nat; Body : Body }.
End Req.
Module Resp.
Record t := { StatusCode : Z; Header : nat; Body : Body }.
End Resp.
Abbreviation Request := Req.t.
Abbreviation Response := Resp.t.

(** An entry of the log: level, message and the key/value pairs. *)
Inductive Level := LvlCrit | LvlError | LvlWarn | LvlInfo | LvlDebug.
Inductive LogVal := VStr (s : string) | VInt (z : Z) | VReq (r : Request).
Record LogEntry := { lvl : Level; msg : string; ctx : list (string * LogVal) }.

(** What the operating system refuses: per file name, the error of
    [os.Create], [os.Open], [Close] and [Seek], and the number of bytes the
    device takes for the file before writes fail. *)
Record Faults := {
  create_fails : string -> error;
  open_fails : string -> error;
  close_fails : string -> error;
  seek_fails : string -> error;
  write_limit : string -> option nat
}.

Definition no_faults : Faults :=
  {| create_fails := λ _, None; open_fails := λ _, None;
     close_fails := λ _, None; seek_fails := λ _, None;
     write_limit := λ _, None |}.

(** The caller's [http.ResponseWriter]: its header map, what went out with
    [WriteHeader] (status and the headers at that moment), and the body
    written. *)
Record ResponseWriter := {
  rw_header : nat;
  rw_sent : option (Z * Header);
  rw_body : string
}.

Record World := {
  files : gmap string string;
  handles : gmap nat File;
  headers : gmap nat Header;
  streams : gmap nat Stream;
  next : nat;
  log : list LogEntry;
  calls : list (Which * ReqData.t);
  caller : ResponseWriter;
  faults : Faults
}.

Definition set_files (f : gmap string string -> gmap string string) (σ : World) :=
  {| files := f (files σ); handles := handles σ; headers := headers σ;
     streams := streams σ; next := next σ; log := log σ; calls := calls σ;
     caller := caller σ; faults := faults σ |}.
Definition set_handles (f : gmap nat File -> gmap nat File) (σ : World) :=
  {| files := files σ; handles := f (handles σ); headers := headers σ;
     streams := streams σ; next := next σ; log := log σ; calls := calls σ;
     caller := caller σ; faults := faults σ |}.
Definition set_headers (f : gmap nat Header -> gmap nat Header) (σ : World) :=
  {| files := files σ; handles := handles σ; headers := f (headers σ);
     streams := streams σ; next := next σ; log := log σ; calls := calls σ;
     caller := caller σ; faults := faults σ |}.
Definition set_streams (f : gmap nat Stream -> gmap nat Stream) (σ : World) :=
  {| files := files σ; handles := handles σ; headers := headers σ;
     streams := f (streams σ); next := next σ; log := log σ; calls := calls σ;
     caller := caller σ; faults := faults σ |}.
Definition set_next (f : nat -> nat) (σ : World) :=
  {| files := files σ; handles := handles σ; headers := headers σ;
     streams := streams σ; next := f (next σ); log := log σ; calls := calls σ;
     caller := caller σ; faults := faults σ |}.
Definition set_log (f : list LogEntry -> list LogEntry) (σ : World) :=
  {| files := files σ; handles := handles σ; headers := headers σ;
     streams := streams σ; next := next σ; log := f (log σ); calls := calls σ;
     caller := caller σ; faults := faults σ |}.
Definition set_calls (f : list (Which * ReqData.t) -> list (Which * ReqData.t))
  (σ : World) :=
  {| files := files σ; handles := handles σ; headers := headers σ;
     streams := streams σ; next := next σ; log := log σ; calls := f (calls σ);
     caller := caller σ; faults := faults σ |}.
Definition set_caller (f : ResponseWriter -> ResponseWriter) (σ : World) :=
  {| files := files σ; handles := handles σ; headers := headers σ;
     streams := streams σ; next := next σ; log := log σ; calls := calls σ;
     caller := f (caller σ); faults := faults σ |}.

(** ** The monad of Go code: state, and [panic] *)

Inductive Res (A : Type) : Type :=
| Ok (a : A) (σ : World)
| Panic (msg : string).
Arguments Ok {A} a σ.
Arguments Panic {A} msg.

Definition M (A : Type) : Type := World -> Res A.

Definition ret {A} (a : A) : M A := λ σ, Ok a σ.
Definition bind {A B} (m : M A) (k : A -> M B) : M B :=
  λ σ, match m σ with
       | Ok a σ' => k a σ'
       | Panic s => Panic s
       end.
Definition panic {A} (s : string) : M A := λ _, Panic s.
Definition gets {A} (f : World -> A) : M A := λ σ, Ok (f σ) σ.
Definition modify (f : World -> World) : M unit := λ σ, Ok tt (f σ).

Notation "'let*' x := m 'in' k" := (bind m (fun x => k))
  (at level 10, x pattern, m at level 100, k at level 200,
   format "'[v' 'let*'  x  :=  m  'in'  '/' k ']'").
Notation "m ;; k" := (bind m (fun _ => k))
  (at level 100, k at level 200, right associativity).

(** A fresh location, for a file handle, a header map or a reader. *)
Definition alloc : M nat :=
  λ σ, Ok (next σ) (set_next S σ).

(** ** Files ([os])

    A file handle is a location of [handles]; the methods of a handle that is
    not there answer [os.ErrInvalid], as those of a [nil] file do. *)

(** [os.Create]: the file exists and is empty afterwards. *)
Definition os_Create (name : string) : M (option nat * error) :=
  let* fl := gets faults in
  match create_fails fl name with
  | Some e => ret (None, Some e)
  | None =>
      let* fh := alloc in
      modify (set_files <[name := ""]>) ;;
      modify (set_handles <[fh := {| Name := name; fopen := true |}]>) ;;
      ret (Some fh, None)
  end.

(** [os.Open]: for reading. *)
Definition os_Open (name : string) : M (option nat * error) :=
  let* fl := gets faults in
  let* fs := gets files in
  match open_fails fl name, fs !! name with
  | Some e, _ => ret (None, Some e)
  | None, None => ret (None, Some "no such file or directory")
  | None, Some _ =>
      let* fh := alloc in
      modify (set_handles <[fh := {| Name := name; fopen := true |}]>) ;;
      ret (Some fh, None)
  end.

(** [os.Remove] *)
Definition os_Remove (name : string) : M error :=
  let* fs := gets files in
  match fs !! name with
  | None => ret (Some "no such file or directory")
  | Some _ => modify (set_files (delete name)) ;; ret None
  end.

(** [os.File.Name] *)
Definition File_Name (fh : nat) : M string :=
  let* hs := gets handles in
  ret (default "" (Name <$> hs !! fh)).

(** [os.File.Write]: the bytes are appended (no file is written after a
    [Seek]); past the [write_limit] of the file only the bytes that fit are
    written and the write fails. A file removed while open takes the bytes
    without showing them under its name. *)
Definition File_Write (fh : nat) (p : string) : M error :=
  let* hs := gets handles in
  match hs !! fh with
  | None => ret (Some "invalid argument")
  | Some f =>
      if negb (fopen f) then ret (Some "file already closed") else
      let* fl := gets faults in
      let* fs := gets files in
      match fs !! Name f with
      | None => ret None
      | Some cur =>
          match write_limit fl (Name f) with
          | Some lim =>
              if (lim <? String.length cur + String.length p)%nat then
                modify (set_files
                  <[Name f := cur +:+ substring 0 (lim - String.length cur) p]>) ;;
                ret (Some "no space left on device")
              else modify (set_files <[Name f := cur +:+ p]>) ;; ret None
          | None => modify (set_files <[Name f := cur +:+ p]>) ;; ret None
          end
      end
  end.

(** [os.File.Close] *)
Definition File_Close (fh : nat) : M error :=
  let* hs := gets handles in
  match hs !! fh with
  | None => ret (Some "invalid argument")
  | Some f =>
      if negb (fopen f) then ret (Some "file already closed") else
      modify (set_handles
        (alter (λ f, {| Name := Name f; fopen := false |}) fh)) ;;
      let* fl := gets faults in
      ret (close_fails fl (Name f))
  end.

(** [os.File.Seek(0, 0)] *)
Definition File_Seek (fh : nat) : M error :=
  let* hs := gets handles in
  match hs !! fh with
  | None => ret (Some "invalid argument")
  | Some f =>
      if negb (fopen f) then ret (Some "file already closed") else
      let* fl := gets faults in
      ret (seek_fails fl (Name f))
  end.

(** What a reader positioned at the start of the file reads. *)
Definition File_content (fh : nat) : M (string * error) :=
  let* hs := gets handles in
  match hs !! fh with
  | None => ret ("", Some "invalid argument")
  | Some f =>
      if negb (fopen f) then ret ("", Some "file already closed") else
      let* fs := gets files in
      ret (default "" (fs !! Name f), None)
  end.

(** ** Readers and header maps *)

Definition new_stream (b : string) : M nat :=
  let* s := alloc in
  modify (set_streams <[s := {| remaining := b; sclosed := false |}]>) ;;
  ret s.

Definition new_header (h : Header) : M nat :=
  let* l := alloc in
  modify (set_headers <[l := h]>) ;;
  ret l.

(** The map behind a header reference. *)
Definition load_header (l : nat) : M Header :=
  let* hs := gets headers in
  ret (default ∅ (hs !! l)).

(** [h[k] = vv] on the map behind [l]. *)
Definition Header_store (l : nat) (k : string) (vv : list string) : M unit :=
  modify (set_headers (alter <[k := vv]> l)).

(** Reading a body to its end, as [io.Copy] and the writers of [net/http]
    do: a reader is used up by it, and a closed one fails. *)
Definition read_all (s : nat) : M (string * error) :=
  let* ss := gets streams in
  match ss !! s with
  | None => ret ("", Some "invalid reader")
  | Some st =>
      if sclosed st then ret ("", Some "http: read on closed body") else
      modify (set_streams
        (alter (λ _, {| remaining := ""; sclosed := false |}) s)) ;;
      ret (remaining st, None)
  end.

(** What is left in a body, without reading it. *)
Definition stream_rest (σ : World) (s : nat) : string :=
  match streams σ !! s with
  | Some st => if sclosed st then "" else remaining st
  | None => ""
  end.

Definition body_Close (s : nat) : M error :=
  modify (set_streams
    (alter (λ st, {| remaining := remaining st; sclosed := true |}) s)) ;;
  ret None.

Definition Closer_Close (c : Closer) : M error :=
  match c with
  | CloserBody s => body_Close s
  | CloserFile fh => File_Close fh
  end.

(** [func (mc multiCloser) Close() error]: every closer is closed, the first
    error is the result. The loop runs over [mc.closers] with [err] as its
    variable. *)
Fixpoint multiCloser_loop (cs : list Closer) (err : error) : M error :=
  match cs with
  | [] => ret err
  | c :: cs' =>
      let* closeErr := Closer_Close c in
      multiCloser_loop cs'
        (match closeErr, err with
         | Some _, None => closeErr
         | _, _ => err
         end)
  end.

Definition multiCloser_Close (mc : multiCloser) : M error :=
  multiCloser_loop (closers mc) None.

Definition Body_Close (b : Body) : M error := multiCloser_Close (Closer_ b).

(** ** The log ([log15]) *)

Definition Log (l : Level) (m : string) (c : list (string * LogVal)) : M unit :=
  modify (set_log (λ es, es ++ [ {| lvl := l; msg := m; ctx := c |} ])).

(** ** The caller's [http.ResponseWriter] *)

(** [w.WriteHeader(code)]: the first call sends the status and the headers as
    they are then; later calls are ignored. *)
Definition ResponseWriter_WriteHeader (code : Z) : M unit :=
  let* w := gets caller in
  match rw_sent w with
  | Some _ => ret tt
  | None =>
      let* h := load_header (rw_header w) in
      modify (set_caller (λ w, {| rw_header := rw_header w;
                                  rw_sent := Some (code, h);
                                  rw_body := rw_body w |}))
  end.

(** [w.Write(p)] *)
Definition ResponseWriter_Write (p : string) : M unit :=
  let* w := gets caller in
  (match rw_sent w with
   | Some _ => ret tt
   | None => ResponseWriter_WriteHeader 200
   end) ;;
  modify (set_caller (λ w, {| rw_header := rw_header w; rw_sent := rw_sent w;
                              rw_body := rw_body w +:+ p |})).

Definition StatusInternalServerError : Z := 500.
Definition StatusBadGateway : Z := 502.
Definition StatusGatewayTimeout : Z := 504.
Definition StatusOK : Z := 200.

(** [http.Error(w, error, code)] *)
Definition http_Error (e : string) (code : Z) : M unit :=
  let* w := gets caller in
  Header_store (rw_header w) "Content-Type" ["text/plain; charset=utf-8"] ;;
  Header_store (rw_header w) "X-Content-Type-Options" ["nosniff"] ;;
  ResponseWriter_WriteHeader code ;;
  ResponseWriter_Write (e +:+ LF).

(** ** [net/http], [fmt] and [path/filepath]

    The wire format of requests and responses, the table of status texts and
    [filepath.Join] belong to Go's library. The handlers are modelled over any
    implementation of them; [HTTP11] below is one. *)

Class NetHTTP := {
  (** the bytes [Request.Write] emits *)
  wire_Request : ReqData.t -> string;
  (** what [http.ReadRequest] parses; [None] for malformed bytes *)
  wire_ReadRequest : string -> option ReqData.t;
  (** the bytes [Response.Write] emits: status line and headers, then body *)
  wire_ResponseHead : RespData.t -> string;
  wire_ResponseBody : RespData.t -> string;
  (** what [http.ReadResponse] parses *)
  wire_ReadResponse : string -> option RespData.t;
  (** [http.StatusText] *)
  StatusText : Z -> string;
  (** [filepath.Join] of two elements *)
  Join : string -> string -> string
}.

(** The requests a server hands to a handler can be written and read back,
    and the body read back is the body written. *)
Class NetHTTPLaws `{NetHTTP} := {
  wellformed : ReqData.t -> Prop;
  ReadRequest_Write : forall d, wellformed d ->
    exists d', wire_ReadRequest (wire_Request d) = Some d'
               /\ ReqData.Body d' = ReqData.Body d
}.

Fixpoint zeros (n : nat) : string :=
  match n with
  | O => ""
  | S n' => String "0" (zeros n')
  end.

(** [fmt.Sprintf("%09d", id)] for an unsigned [id]: decimal, padded with
    zeros on the left to nine characters. *)
Definition Sprintf_09d (id : Z) : string :=
  let s := pretty (Z.to_N id) in
  zeros (9 - String.length s) +:+ s.

(** [fmt.Sprintf(".%d", n)] *)
Definition Sprintf_dot_d (n : Z) : string := "." +:+ pretty n.

(** [strconv.Itoa] *)
Definition Itoa (i : Z) : string := pretty i.

Section Library.
  Context `{NetHTTP}.

Definition request_data (r : Request) (h : Header) (b : string) : ReqData.t :=
    {| ReqData.Method := Req.Method r; ReqData.URL := Req.URL r;
       ReqData.RequestURI := Req.RequestURI r;
       ReqData.Header := h; ReqData.Body := b |}.

  (** [r.Write(fh)]: the body is read to its end and closed. *)
Definition Request_Write (r : Request) (fh : nat) : M error :=
    let* h := load_header (Req.Header r) in
    let* (b, rerr) := read_all (Reader (Req.Body r)) in
    Body_Close (Req.Body r) ;;
    match rerr with
    | Some e => ret (Some e)
    | None => File_Write fh (wire_Request (request_data r h b))
    end.

  (** [http.ReadRequest(bufio.NewReader(fh))]: a new request with a map and a
      body reader of its own. *)
Definition ReadRequest (fh : nat) : M (option Request * error) :=
    let* (content, rerr) := File_content fh in
    match rerr, wire_ReadRequest content with
    | Some e, _ => ret (None, Some e)
    | None, None => ret (None, Some "malformed HTTP request")
    | None, Some d =>
        let* h := new_header (ReqData.Header d) in
        let* s := new_stream (ReqData.Body d) in
        ret (Some {| Req.Method := ReqData.Method d; Req.URL := ReqData.URL d;
                     Req.RequestURI := ReqData.RequestURI d;
                     Req.Header := h; Req.Body := libBody s |}, None)
    end.

  (** [resp.Write(fh)]: status line and headers first; then the body, which
      is read to its end and closed. *)
Definition Response_Write (resp : Response) (fh : nat) : M error :=
    let* h := load_header (Resp.Header resp) in
    let* rest := gets (λ σ, stream_rest σ (Reader (Resp.Body resp))) in
    let d := {| RespData.StatusCode := Resp.StatusCode resp;
                RespData.Header := h; RespData.Body := rest |} in
    let* err := File_Write fh (wire_ResponseHead d) in
    match err with
    | Some e => ret (Some e)
    | None =>
        let* (b, rerr) := read_all (Reader (Resp.Body resp)) in
        Body_Close (Resp.Body resp) ;;
        match rerr with
        | Some e => ret (Some e)
        | None => File_Write fh (wire_ResponseBody d)
        end
    end.

  (** [http.ReadResponse(bufio.NewReader(fh), nil)] *)
Definition ReadResponse (fh : nat) : M (option Response * error) :=
    let* (content, rerr) := File_content fh in
    match rerr, wire_ReadResponse content with
    | Some e, _ => ret (None, Some e)
    | None, None => ret (None, Some "malformed HTTP response")
    | None, Some d =>
        let* h := new_header (RespData.Header d) in
        let* s := new_stream (RespData.Body d) in
        ret (Some {| Resp.StatusCode := RespData.StatusCode d;
                     Resp.Header := h; Resp.Body := libBody s |}, None)
    end.

End Library.

(** * What the two servers share *)

(** [type dualServer struct { primary, secondary B; dir string; id uint32 }],
    with [B] being [*http.Client] in [main.go] and [http.Handler] in
    [part_000]. *)
Record dualServer (B : Type) := {
  primary : B;
  secondary : B;
  dir : string;
  id : Z
}.
Arguments primary {B} _.
Arguments secondary {B} _.
Arguments dir {B} _.
Arguments id {B} _.

(** [atomic.AddUint32(addr, delta)]: the new value, modulo [2^32]. *)
Definition AddUint32 (addr delta : Z) : Z := (addr + delta) mod 2 ^ 32.

(** [func (ds *dualServer) nextID() uint32] *)
Definition nextID {B} (ds : dualServer B) : Z * dualServer B :=
  let new := AddUint32 (id ds) 1 in
  (new, {| primary := primary ds; secondary := secondary ds;
           dir := dir ds; id := new |}).

(** The server after [n] calls of [nextID], and the identifier the [n]-th
    call returns ([n >= 1]). *)
Definition after_calls {B} (n : N) (ds : dualServer B) : dualServer B :=
  N.iter n (λ ds, snd (nextID ds)) ds.

Definition nth_id {B} (n : N) (ds : dualServer B) : Z :=
  fst (nextID (after_calls (N.pred n) ds)).

Fixpoint forM_ {A} (l : list A) (f : A -> M unit) : M unit :=
  match l with
  | [] => ret tt
  | a :: l' => f a ;; forM_ l' f
  end.

Definition nil_deref {A} : M A :=
  panic "invalid memory address or nil pointer dereference".

(** * [src/main.go]: the server over two [http.Client]s *)

Module DualClient.
Section WithLibrary.
  Context `{NetHTTP}.

  (** An [*http.Client] with its transport and the backend behind it: what
      [Do] answers for a request, a failure or a response. *)
Definition Client := ReqData.t -> string + RespData.t.

  (** [c.Do(r)]: the request body is read and closed; the call is recorded
      in [calls]. *)
Definition Client_Do (which : Which) (c : Client) (r : Request)
    : M (option Response * error) :=
    let* h := load_header (Req.Header r) in
    let* (b, _) := read_all (Reader (Req.Body r)) in
    Body_Close (Req.Body r) ;;
    let d := request_data r h b in
    modify (set_calls (λ cs, cs ++ [(which, d)])) ;;
    match c d with
    | inl e => ret (None, Some e)
    | inr rd =>
        let* h' := new_header (RespData.Header rd) in
        let* s := new_stream (RespData.Body rd) in
        ret (Some {| Resp.StatusCode := RespData.StatusCode rd;
                     Resp.Header := h'; Resp.Body := libBody s |}, None)
    end.

  (** The closure [saveRequest] returns, over its variable [nm]. *)
Definition readReq (nm : string) : M (option Request * error) :=
    let* (fh, err) := os_Open nm in
    match err, fh with
    | Some e, _ => ret (None, Some e)
    | None, None => nil_deref
    | None, Some fh =>
        let* (req, err) := ReadRequest fh in
        match err, req with
        | Some e, _ => ret (req, Some e)
        | None, None => nil_deref
        | None, Some req =>
            ret (Some {| Req.Method := Req.Method req; Req.URL := Req.URL req;
                         Req.RequestURI := Req.RequestURI req;
                         Req.Header := Req.Header req;
                         Req.Body :=
                           {| Reader := Reader (Req.Body req);
                              Closer_ := {| closers :=
                                closers (Closer_ (Req.Body req))
                                  ++ [CloserFile fh] |} |} |}, None)
        end
    end.

  (** [func saveRequest(dest string, r *http.Request)]: the closure that
      reads the request back, and an error. *)
Definition saveRequest (dest : string) (r : Request)
    : M (option (M (option Request * error)) * error) :=
    let* (fh, err) := os_Create dest in
    match err, fh with
    | Some e, _ => ret (None, Some e)
    | None, None => nil_deref
    | None, Some fh =>
        let* err := Request_Write r fh in
        match err with
        | Some e => File_Close fh ;; ret (None, Some e)
        | None =>
            let* err := File_Close fh in
            match err with
            | Some e => ret (None, Some e)
            | None =>
                let* nm := File_Name fh in
                ret (Some (readReq nm), None)
            end
        end
    end.

  (** [func saveResponse(dest string, resp *http.Response)]: the response
      read back from the file, and an error. *)
Definition saveResponse (dest : string) (resp : Response)
    : M (option Response * error) :=
    let* (fh, err) := os_Create dest in
    match err, fh with
    | Some e, _ => ret (Some resp, Some e)
    | None, None => nil_deref
    | None, Some fh =>
        let* err := Response_Write resp fh in
        match err with
        | Some e => File_Close fh ;; ret (None, Some e)
        | None =>
            let* err := File_Seek fh in
            match err with
            | Some e => File_Close fh ;; ret (None, Some e)
            | None =>
                let* (resp', err) := ReadResponse fh in
                match err, resp' with
                | Some e, _ => File_Close fh ;; ret (resp', Some e)
                | None, None => nil_deref
                | None, Some resp' =>
                    ret (Some {| Resp.StatusCode := Resp.StatusCode resp';
                                 Resp.Header := Resp.Header resp';
                                 Resp.Body :=
                                   {| Reader := Reader (Resp.Body resp');
                                      Closer_ := {| closers :=
                                        closers (Closer_ (Resp.Body resp'))
                                          ++ [CloserFile fh] |} |} |}, None)
                end
            end
        end
    end.

  (** The second closure [saveRequestResponse] returns, over its variable
      [base]. *)
Definition saveResp (base : string) (resp : Response) (n : Z)
    : M (option Response * error) :=
    if n <=? 0 then panic "n must be bigger than zero!"
    else saveResponse (base +:+ Sprintf_dot_d n) resp.

  (** [func (ds *dualServer) saveRequestResponse(r *http.Request)] *)
Definition saveRequestResponse (ds : dualServer Client) (r : Request)
    : M (dualServer Client
         * (option (M (option Request * error))
            * option (Response -> Z -> M (option Response * error))
            * error)) :=
    let '(id, ds) := nextID ds in
    let base := Join (dir ds) (Sprintf_09d id) in
    let* (saveReq, err) := saveRequest (base +:+ ".0") r in
    match err with
    | Some e => ret (ds, (None, None, Some e))
    | None => ret (ds, (saveReq, Some (saveResp base), None))
    end.

  (** The goroutine [ServeHTTP] starts with [go func(sc int) {...}]. *)
Definition secondary_goroutine (ds : dualServer Client)
      (readReq : M (option Request * error))
      (saveResp : Response -> Z -> M (option Response * error)) (sc : Z)
    : M unit :=
    let* (r, err) := readReq in
    match err, r with
    | Some e, _ => Log LvlError "error reading request (2.)" [("error", VStr e)]
    | None, None => nil_deref
    | None, Some r =>
        let* (resp2, err) := Client_Do Secondary (secondary ds) r in
        match err, resp2 with
        | Some e, _ => Log LvlError "call secondary" [("error", VStr e)]
        | None, None => nil_deref
        | None, Some resp2 =>
            let* (_, err) := saveResp resp2 2 in
            match err with
            | Some e =>
                Log LvlError "save secondary response" [("error", VStr e)]
            | None =>
                if bool_decide (Resp.StatusCode resp2 ≠ sc) then
                  Log LvlWarn "status code mismatch"
                    [("primary", VInt sc);
                     ("secondary", VInt (Resp.StatusCode resp2))]
                else ret tt
            end
        end
    end.

  (** [func (ds *dualServer) ServeHTTP(w http.ResponseWriter, r *http.Request)];
      [w] is the [caller] of the world. The result is the server (its [id]
      has moved) and the goroutine the handler has started, if any. *)
Definition ServeHTTP (ds : dualServer Client) (r : Request)
    : M (dualServer Client * option (M unit)) :=
    let* (ds, (readReq, saveResp, err)) := saveRequestResponse ds r in
    match err, readReq, saveResp with
    | Some e, _, _ =>
        Log LvlCrit "error saving request" [("error", VStr e)] ;;
        http_Error ("error saving request: " +:+ e) StatusInternalServerError ;;
        ret (ds, None)
    | None, Some readReq, Some saveResp =>
        let* (r, err) := readReq in
        match err, r with
        | Some e, _ =>
            Log LvlError "error reading request" [("error", VStr e)] ;;
            http_Error ("error reading request: " +:+ e)
              StatusInternalServerError ;;
            ret (ds, None)
        | None, None => nil_deref
        | None, Some r =>
            let r := {| Req.Method := Req.Method r; Req.URL := Req.URL r;
                        Req.RequestURI := "";
                        Req.Header := Req.Header r; Req.Body := Req.Body r |} in
            let* (resp1, err) := Client_Do Primary (primary ds) r in
            match err, resp1 with
            | Some e, _ =>
                Log LvlError "call primary" [("error", VStr e)] ;;
                http_Error ("call primary: " +:+ e) StatusInternalServerError ;;
                ret (ds, None)
            | None, None => nil_deref
            | None, Some resp1 =>
                let g := secondary_goroutine ds readReq saveResp
                           (Resp.StatusCode resp1) in
                let* (resp, err) := saveResp resp1 1 in
                let* resp :=
                  match err, resp with
                  | Some e, _ =>
                      Log LvlError "save response1" [("error", VStr e)] ;;
                      ret resp1
                  | None, None => nil_deref
                  | None, Some resp => ret resp
                  end in
                (* answer *)
                let* w := gets caller in
                let* rh := load_header (Resp.Header resp) in
                forM_ (map_to_list rh)
                  (λ '(k, v), Header_store (rw_header w) k v) ;;
                ResponseWriter_WriteHeader (Resp.StatusCode resp) ;;
                let* (b, err) := read_all (Reader (Resp.Body resp)) in
                (if bool_decide (b = "") then ret tt
                 else ResponseWriter_Write b) ;;
                match err with
                | Some e => Log LvlError "writing response" [("error", VStr e)]
                | None => ret tt
                end ;;
                ret (ds, Some g)
            end
        end
    | None, _, _ => nil_deref
    end.

  (** One exchange: the handler, then the goroutine it started. The two touch
      different files; the goroutine never touches the caller. *)
Definition exchange (ds : dualServer Client) (r : Request)
    : M (dualServer Client) :=
    let* (ds, g) := ServeHTTP ds r in
    match g with
    | Some g => g ;; ret ds
    | None => ret ds
    end.

End WithLibrary.
End DualClient.

(** * [src/unnamed/part_000]: the server over two [http.Handler]s *)

Module DualProxy.

  (** What a handler does to the [http.ResponseWriter] it is given: store a
      header ([w.Header()[k] = vv]), [w.WriteHeader(status)], [w.Write(p)]. *)
Inductive RWOp :=
  | OpHeader (k : string) (vv : list string)
  | OpWriteHeader (status : Z)
  | OpWrite (p : string).

  (** An [http.Handler] (here a reverse proxy with the backend behind it): the
      calls it makes on its writer, for a request. *)
Definition Handler := ReqData.t -> list RWOp.

  (** [type respWriter struct { io.WriteCloser; w http.ResponseWriter;
      h http.Header; status int }]; [w] is [nil] or the caller's writer. *)
  Module RW.
Record t := { WriteCloser : option nat; w : bool; h : option nat;
                  status : Z }.
  End RW.
  Abbreviation respWriter := RW.t.

  (** [new(respWriter)] *)
Definition new_respWriter : respWriter :=
    {| RW.WriteCloser := None; RW.w := false; RW.h := None; RW.status := 0 |}.

Section WithLibrary.
  Context `{NetHTTP}.

  (** [func (w *respWriter) Header() http.Header] *)
Definition Header_ (rw : respWriter) : M (respWriter * nat) :=
    if RW.w rw then
      let* c := gets caller in ret (rw, rw_header c)
    else match RW.h rw with
         | None =>
             let* l := new_header ∅ in
             ret ({| RW.WriteCloser := RW.WriteCloser rw; RW.w := RW.w rw;
                     RW.h := Some l; RW.status := RW.status rw |}, l)
         | Some l => ret (rw, l)
         end.

  (** A write to [w.WriteCloser]; its result is dropped by every caller. *)
Definition WriteCloser_Write (wc : option nat) (p : string) : M unit :=
    match wc with
    | None => nil_deref
    | Some fh => File_Write fh p ;; ret tt
    end.

Definition WriteCloser_Close (wc : option nat) : M unit :=
    match wc with
    | None => nil_deref
    | Some fh => File_Close fh ;; ret tt
    end.

  (** [func (w *respWriter) WriteHeader(status int)]; the order in which the
      map is ranged over is that of [map_to_list]. *)
Definition WriteHeader (rw : respWriter) (status : Z) : M respWriter :=
    let rw := {| RW.WriteCloser := RW.WriteCloser rw; RW.w := RW.w rw;
                 RW.h := RW.h rw; RW.status := status |} in
    (if RW.w rw then ResponseWriter_WriteHeader status else ret tt) ;;
    WriteCloser_Write (RW.WriteCloser rw)
      ("HTTP/1.1 " +:+ pretty status +:+ " " +:+ StatusText status +:+ CRLF) ;;
    let* (rw, l) := Header_ rw in
    let* hm := load_header l in
    forM_ (map_to_list hm) (λ '(k, vv),
      forM_ vv (λ v,
        WriteCloser_Write (RW.WriteCloser rw) (k +:+ ": " +:+ v +:+ CRLF))) ;;
    WriteCloser_Write (RW.WriteCloser rw) CRLF ;;
    ret rw.

  (** [func (w respWriter) Write(p []byte) (int, error)]: the receiver is a
      copy, so the [status] (and [h]) that [WriteHeader] sets here are lost
      when the method returns. *)
Definition Write (rw : respWriter) (p : string) : M unit :=
    let* rw := (if RW.status rw =? 0 then WriteHeader rw StatusOK
                else ret rw) in
    if RW.w rw then
      ResponseWriter_Write p ;;
      WriteCloser_Write (RW.WriteCloser rw) p
    else WriteCloser_Write (RW.WriteCloser rw) p.

Definition apply_op (rw : respWriter) (op : RWOp) : M respWriter :=
    match op with
    | OpHeader k vv =>
        let* (rw, l) := Header_ rw in
        Header_store l k vv ;;
        ret rw
    | OpWriteHeader status => WriteHeader rw status
    | OpWrite p => Write rw p ;; ret rw
    end.

Fixpoint apply_ops (rw : respWriter) (ops : list RWOp) : M respWriter :=
    match ops with
    | [] => ret rw
    | op :: ops' => let* rw := apply_op rw op in apply_ops rw ops'
    end.

  (** [hd.ServeHTTP(rw, r)]: the handler reads and closes the request body;
      the call is recorded in [calls]. The result is what [rw] points to
      afterwards. *)
Definition Handler_ServeHTTP (which : Which) (hd : Handler)
      (rw : respWriter) (r : Request) : M respWriter :=
    let* hm := load_header (Req.Header r) in
    let* (b, _) := read_all (Reader (Req.Body r)) in
    Body_Close (Req.Body r) ;;
    let d := request_data r hm b in
    modify (set_calls (λ cs, cs ++ [(which, d)])) ;;
    apply_ops rw (hd d).

  (** [func writeRequest(dest string, r *http.Request) error] *)
Definition writeRequest (dest : string) (r : Request) : M error :=
    let* (fh, err) := os_Create dest in
    match err, fh with
    | Some e, _ => ret (Some e)
    | None, None => nil_deref
    | None, Some fh =>
        let* err := Request_Write r fh in
        match err with
        | Some e => File_Close fh ;; ret (Some e)
        | None => File_Close fh
        end
    end.

  (** The loop [for i := range requests] of [saveRequestResponse], with [k]
      rounds to go. *)
Fixpoint saveRequestResponse_loop (base reqFn : string) (k i : nat)
      (requests : list (option Request)) (respWriters : list (option respWriter))
    : M (list (option Request) * list (option respWriter) * error) :=
    match k with
    | O => ret (requests, respWriters, None)
    | S k' =>
        let* (fh, err) := os_Open reqFn in
        match err, fh with
        | Some e, _ => ret (requests, respWriters, Some e)
        | None, None => nil_deref
        | None, Some fh =>
            let* (req, err) := ReadRequest fh in
            let requests := <[i := req]> requests in
            match err, req with
            | Some e, _ => ret (requests, respWriters, Some e)
            | None, None => nil_deref
            | None, Some req =>
                let req :=
                  {| Req.Method := Req.Method req; Req.URL := Req.URL req;
                     Req.RequestURI := Req.RequestURI req;
                     Req.Header := Req.Header req;
                     Req.Body :=
                       {| Reader := Reader (Req.Body req);
                          Closer_ := {| closers :=
                            closers (Closer_ (Req.Body req))
                              ++ [CloserFile fh] |} |} |} in
                let requests := <[i := Some req]> requests in
                let* (f, err) :=
                  os_Create (base +:+ Sprintf_dot_d (Z.of_nat i + 1)) in
                let respWriters :=
                  <[i := Some {| RW.WriteCloser := f; RW.w := false;
                                 RW.h := None; RW.status := 0 |}]> respWriters in
                match err with
                | Some e => ret (requests, respWriters, Some e)
                | None =>
                    saveRequestResponse_loop base reqFn k' (S i)
                      requests respWriters
                end
            end
        end
    end.

  (** [func (ds *dualServer) saveRequestResponse(r *http.Request, n int)] *)
Definition saveRequestResponse (ds : dualServer Handler) (r : Request)
      (n : nat)
    : M (dualServer Handler
         * (list (option Request) * list (option respWriter) * error)) :=
    let '(id, ds) := nextID ds in
    let base := Join (dir ds) (Sprintf_09d id) in
    let reqFn := base +:+ ".0" in
    let* err := writeRequest reqFn r in
    match err with
    | Some e => ret (ds, ([], [], Some e))
    | None =>
        let* res := saveRequestResponse_loop base reqFn n 0
                      (replicate n None) (replicate n None) in
        ret (ds, res)
    end.

  (** The goroutine [ServeHTTP] starts with
      [go func(w *respWriter, r *http.Request, sc int) {...}]. *)
Definition secondary_goroutine (ds : dualServer Handler)
      (w : respWriter) (r : Request) (sc : Z) : M unit :=
    let wc := RW.WriteCloser w in
    let* w := Handler_ServeHTTP Secondary (secondary ds) w r in
    (if bool_decide (RW.status w ≠ sc) then
       Log LvlError "CODE mismatch"
         [("wanted", VInt sc); ("got", VInt (RW.status w))]
     else
       match RW.WriteCloser w with
       | None => nil_deref
       | Some fh =>
           let* base := File_Name fh in
           if bool_decide (String.length base = 0%nat)
           then panic "slice bounds out of range"
           else
             let base := substring 0 (String.length base - 1) base in
             forM_ [0; 1; 2] (λ i, os_Remove (base +:+ Itoa i) ;; ret tt)
       end) ;;
    (* defer w.WriteCloser.Close() *)
    WriteCloser_Close wc.

  (** [func (ds *dualServer) ServeHTTP(w http.ResponseWriter, r *http.Request)];
      [w] is the [caller] of the world. The result is the server (its [id]
      has moved) and the goroutine the handler has started, if any. *)
Definition ServeHTTP (ds : dualServer Handler) (r : Request)
    : M (dualServer Handler * option (M unit)) :=
    let* (ds, (requests, respWriters, err)) := saveRequestResponse ds r 2 in
    match err with
    | Some e =>
        Log LvlCrit "error saving request" [("error", VStr e)] ;;
        http_Error ("error saving request: " +:+ e) StatusInternalServerError ;;
        ret (ds, None)
    | None =>
        match respWriters !! 0%nat, requests !! 0%nat,
              respWriters !! 1%nat, requests !! 1%nat with
        | Some (Some rw0), Some (Some r0), Some (Some rw1), Some (Some r1) =>
            let rw0 := {| RW.WriteCloser := RW.WriteCloser rw0; RW.w := true;
                          RW.h := RW.h rw0; RW.status := RW.status rw0 |} in
            Log LvlDebug "request 1" [("req", VReq r0)] ;;
            let* rw0' := Handler_ServeHTTP Primary (primary ds) rw0 r0 in
            let g := secondary_goroutine ds rw1 r1 (RW.status rw0') in
            (* defer respWriters[0].WriteCloser.Close() *)
            WriteCloser_Close (RW.WriteCloser rw0) ;;
            ret (ds, Some g)
        | _, _, _, _ => nil_deref
        end
    end.

  (** One exchange: the handler, then the goroutine it started. *)
Definition exchange (ds : dualServer Handler) (r : Request)
    : M (dualServer Handler) :=
    let* (ds, g) := ServeHTTP ds r in
    match g with
    | Some g => g ;; ret ds
    | None => ret ds
    end.

End WithLibrary.
End DualProxy.

(** * An implementation of the library: HTTP/1.1 with [Content-Length]

    Request line or status line, [Content-Length], the header lines, an empty
    line and the body; [filepath.Join] for a clean directory. *)

Module HTTP11.

Definition CR : ascii := ascii_of_nat 13.
Definition NL : ascii := ascii_of_nat 10.

  (** The line up to the first CR LF, and what follows it. *)
Fixpoint read_line (s : string) : option (string * string) :=
    match s with
    | "" => None
    | String c s' =>
        if Ascii.eqb c CR then
          match s' with
          | String c' rest => if Ascii.eqb c' NL then Some ("", rest) else None
          | "" => None
          end
        else match read_line s' with
             | Some (l, rest) => Some (String c l, rest)
             | None => None
             end
    end.

  (** The text before the first [sep], and what follows [sep]. *)
Fixpoint split_at (sep : ascii) (s : string) : option (string * string) :=
    match s with
    | "" => None
    | String c s' =>
        if Ascii.eqb c sep then Some ("", s')
        else match split_at sep s' with
             | Some (l, rest) => Some (String c l, rest)
             | None => None
             end
    end.

Definition decimal (n : nat) : string :=
    NilEmpty.string_of_uint (Nat.to_uint n).

Definition parse_decimal (s : string) : option nat :=
    match s with
    | "" => None
    | _ => Nat.of_uint <$> NilEmpty.uint_of_string s
    end.

Definition header_line (k v : string) : string := k +:+ ": " +:+ v +:+ CRLF.

Definition header_lines (h : Header) : list (string * string) :=
    '(k, vv) ← map_to_list h; (λ v, (k, v)) <$> vv.

Fixpoint concat_lines (kvs : list (string * string)) : string :=
    match kvs with
    | [] => ""
    | (k, v) :: kvs' => header_line k v +:+ concat_lines kvs'
    end.

Definition parse_header_line (l : string) : option (string * string) :=
    match split_at ":" l with
    | Some (k, String " " v) => Some (k, v)
    | _ => None
    end.

  (** [h.Add(k, v)] *)
Definition Header_Add (h : Header) (kv : string * string) : Header :=
    <[kv.1 := default [] (h !! kv.1) ++ [kv.2]]> h.

  (** The header lines up to the empty line, and what follows it. *)
Fixpoint read_headers (fuel : nat) (s : string) (acc : Header)
    : option (Header * string) :=
    match fuel with
    | O => None
    | S fuel' =>
        match read_line s with
        | None => None
        | Some ("", rest) => Some (acc, rest)
        | Some (l, rest) =>
            match parse_header_line l with
            | None => None
            | Some kv => read_headers fuel' rest (Header_Add acc kv)
            end
        end
    end.

  (** What follows the first line: [Content-Length], headers, empty line and
      a body of the announced length. *)
Definition tail_of (h : Header) (b : string) : string :=
    header_line "Content-Length" (decimal (String.length b))
    +:+ concat_lines (header_lines h) +:+ CRLF +:+ b.

Definition read_tail (s : string) : option (Header * string) :=
    match read_line s with
    | None => None
    | Some (l, rest) =>
        match parse_header_line l with
        | Some ("Content-Length", n) =>
            match parse_decimal n, read_headers (S (String.length rest)) rest ∅ with
            | Some n, Some (h, b) =>
                if (String.length b <? n)%nat then None
                else Some (h, substring 0 n b)
            | _, _ => None
            end
        | _ => None
        end
    end.

Definition write_request (d : ReqData.t) : string :=
    ReqData.Method d +:+ " " +:+ ReqData.URL d +:+ " HTTP/1.1" +:+ CRLF
    +:+ tail_of (ReqData.Header d) (ReqData.Body d).

Definition read_request (s : string) : option ReqData.t :=
    match read_line s with
    | None => None
    | Some (l, rest) =>
        match split_at " " l with
        | None => None
        | Some (m, l') =>
            match split_at " " l' with
            | Some (u, "HTTP/1.1") =>
                match read_tail rest with
                | Some (h, b) =>
                    Some {| ReqData.Method := m; ReqData.URL := u;
                            ReqData.RequestURI := u;
                            ReqData.Header := h; ReqData.Body := b |}
                | None => None
                end
            | _ => None
            end
        end
    end.

Definition status_text (code : Z) : string :=
    if code =? 200 then "OK"
    else if code =? 404 then "Not Found"
    else if code =? 500 then "Internal Server Error"
    else if code =? 502 then "Bad Gateway"
    else if code =? 504 then "Gateway Timeout"
    else "".

Definition write_response_head (d : RespData.t) : string :=
    "HTTP/1.1 " +:+ decimal (Z.to_nat (RespData.StatusCode d)) +:+ " "
    +:+ status_text (RespData.StatusCode d) +:+ CRLF
    +:+ header_line "Content-Length" (decimal (String.length (RespData.Body d)))
    +:+ concat_lines (header_lines (RespData.Header d)) +:+ CRLF.

Definition write_response_body (d : RespData.t) : string := RespData.Body d.

Definition read_response (s : string) : option RespData.t :=
    match read_line s with
    | None => None
    | Some (l, rest) =>
        match split_at " " l with
        | Some ("HTTP/1.1", l') =>
            match split_at " " l' with
            | None => None
            | Some (code, _) =>
                match parse_decimal code, read_tail rest with
                | Some code, Some (h, b) =>
                    Some {| RespData.StatusCode := Z.of_nat code;
                            RespData.Header := h; RespData.Body := b |}
                | _, _ => None
                end
            end
        | _ => None
        end
    end.

  (** [filepath.Join(dir, name)] for a [dir] that is clean already. *)
Definition join (dir name : string) : string :=
    if bool_decide (dir = "") then name else dir +:+ "/" +:+ name.

#[export] Instance http11 : NetHTTP :=
    {| wire_Request := write_request;
       wire_ReadRequest := read_request;
       wire_ResponseHead := write_response_head;
       wire_ResponseBody := write_response_body;
       wire_ReadResponse := read_response;
       StatusText := status_text;
       Join := join |}.

End HTTP11.

(** * [src/httpdump.go]: the stream to a file and the tee over a body *)

Module HttpDump.

  (** Standard output is the file [/dev/stdout] of the store.
      [fmt.Println(a...)] appends its operands, separated by spaces, and a
      newline; the callers drop its result. *)
Definition Stdout : string := "/dev/stdout".

Fixpoint Sprintln (a : list string) : string :=
    match a with
    | [] => LF
    | [x] => x +:+ LF
    | x :: a' => x +:+ " " +:+ Sprintln a'
    end.

Definition Println (a : list string) : M unit :=
    modify (set_files (λ fs,
      <[Stdout := default "" (fs !! Stdout) +:+ Sprintln a]> fs)).

  (** [os.File.Write] with the number of bytes written, which [File_Write]
      leaves out: all of [p], or what fits below the [write_limit]. The
      methods of a [nil] file answer [os.ErrInvalid]. *)
Definition File_Write_n (f : option nat) (p : string) : M (nat * error) :=
    match f with
    | None => ret (0%nat, Some "invalid argument")
    | Some fh =>
        let* hs := gets handles in
        match hs !! fh with
        | None => ret (0%nat, Some "invalid argument")
        | Some h =>
            if negb (fopen h) then ret (0%nat, Some "file already closed") else
            let* fl := gets faults in
            let* fs := gets files in
            match fs !! Name h with
            | None => ret (String.length p, None)
            | Some cur =>
                match write_limit fl (Name h) with
                | Some lim =>
                    if (lim <? String.length cur + String.length p)%nat then
                      modify (set_files
                        <[Name h := cur +:+ substring 0 (lim - String.length cur) p]>) ;;
                      ret ((lim - String.length cur)%nat,
                           Some "no space left on device")
                    else modify (set_files <[Name h := cur +:+ p]>) ;;
                         ret (String.length p, None)
                | None => modify (set_files <[Name h := cur +:+ p]>) ;;
                          ret (String.length p, None)
                end
            end
        end
    end.

  (** [type FileStream struct { path string; f *os.File }] *)
Record FileStream := { path : string; f : option nat }.

  (** [func NewFileStream(path string) *FileStream] *)
Definition NewFileStream (path : string) : FileStream :=
    {| path := path; f := None |}.

  (** [func (fs *FileStream) Write(b []byte) (nr int, err error)]; the result
      carries what [fs] points to afterwards. *)
Definition FileStream_Write (fs : FileStream) (b : string)
    : M (FileStream * (nat * error)) :=
    match f fs with
    | None =>
        let* (fh, err) := os_Create (path fs) in
        let fs := {| path := path fs; f := fh |} in
        match err with
        | Some e => ret (fs, (0%nat, Some e))
        | None => let* r := File_Write_n (f fs) b in ret (fs, r)
        end
    | Some _ => let* r := File_Write_n (f fs) b in ret (fs, r)
    end.

  (** [func (fs *FileStream) Close() error] *)
Definition FileStream_Close (fs : FileStream) : M error :=
    Println ["Close"; path fs] ;;
    match f fs with
    | None => ret (Some "FileStream was never written into")
    | Some fh => File_Close fh
    end.

  (** [Read(p)] of a body of [net/http], with [n = len(p)]: the next bytes,
      as many as fit; [io.EOF] when none is left. *)
Definition EOF : string := "EOF".

Definition Body_Read (b : Body) (n : nat) : M (string * error) :=
    let s := Reader b in
    let* ss := gets streams in
    match ss !! s with
    | None => ret ("", Some "invalid reader")
    | Some st =>
        if sclosed st then ret ("", Some "http: read on closed body") else
        if String.eqb (remaining st) "" then ret ("", Some EOF) else
        modify (set_streams (alter (λ _,
          {| remaining := substring n (String.length (remaining st) - n)
                            (remaining st);
             sclosed := false |}) s)) ;;
        ret (substring 0 n (remaining st), None)
    end.

  (** [io.ReadCloser] and [io.WriteCloser], with the types of this program
      that implement them. The state behind a reader is in the store; a
      writer is returned by its [Write] as it is afterwards. *)
Class ReadCloser (R : Type) := {
    Read : R -> nat -> M (string * error);
    rClose : R -> M error
  }.
Class WriteCloser (W : Type) := {
    Write : W -> string -> M (W * (nat * error));
    wClose : W -> M error
  }.

#[global] Instance Body_ReadCloser : ReadCloser Body :=
    {| Read := Body_Read; rClose := Body_Close |}.
#[global] Instance FileStream_WriteCloser : WriteCloser FileStream :=
    {| Write := FileStream_Write; wClose := FileStream_Close |}.

  (** [type TeeReadCloser struct { r io.Reader; w io.WriteCloser;
      c io.Closer }], as [NewTeeReadCloser] builds it: [r] is
      [io.TeeReader(c, w)], so the three fields reach two objects, the
      reader [c] and the writer [w]. *)
Record TeeReadCloser (R W : Type) := { w : W; c : R }.
  Arguments w {R W} _.
  Arguments c {R W} _.

  (** [func NewTeeReadCloser(r io.ReadCloser, w io.WriteCloser)
      io.ReadCloser] *)
Definition NewTeeReadCloser {R W} (r : R) (w : W) : TeeReadCloser R W :=
    {| w := w; c := r |}.

  Section Tee.
    Context {R W : Type} `{ReadCloser R} `{WriteCloser W}.

    (** [Read] of the reader [io.TeeReader(r, w)] returns: what was read is
        written to [w]; when that fails, the count and the error of the
        write are the result. *)
Definition teeReader_Read (r : R) (w : W) (n : nat)
      : M (W * (string * error)) :=
      let* (p, err) := Read r n in
      if (0 <? String.length p)%nat then
        let* (w, (nw, werr)) := Write w p in
        match werr with
        | Some e => ret (w, (substring 0 nw p, Some e))
        | None => ret (w, (p, err))
        end
      else ret (w, (p, err)).

    (** [func (t *TeeReadCloser) Read(b []byte) (int, error)] *)
Definition TeeReadCloser_Read (t : TeeReadCloser R W) (n : nat)
      : M (TeeReadCloser R W * (string * error)) :=
      let* (w', r) := teeReader_Read (c t) (w t) n in
      ret ({| w := w'; c := c t |}, r).

    (** [func (t *TeeReadCloser) Close() error] *)
Definition TeeReadCloser_Close (t : TeeReadCloser R W) : M error :=
      let* err1 := rClose (c t) in
      let* err2 := wClose (w t) in
      match err1, err2 with
      | None, None => ret None
      | Some _, _ => ret err2
      | None, _ => ret err1
      end.
  End Tee.

End HttpDump.

(** * Scenarios

    The world at the arrival of a request: no file yet, the header map of the
    request at location 0, the header map of the caller's writer at 1, the
    body of the request at 2. *)

Definition arrival (fl : Faults) (fs : gmap string string) (h : Header)
    (b : string) : World :=
  {| files := fs; handles := ∅;
     headers := {[ 0%nat := h; 1%nat := ∅ ]};
     streams := {[ 2%nat := {| remaining := b; sclosed := false |} ]};
     next := 3; log := []; calls := [];
     caller := {| rw_header := 1; rw_sent := None; rw_body := "" |};
     faults := fl |}.

Definition inbound (method url : string) : Request :=
  {| Req.Method := method; Req.URL := url; Req.RequestURI := url;
     Req.Header := 0; Req.Body := libBody 2 |}.

(** The final world of a computation ([None] after a panic). *)
Definition world_of {A} (r : Res A) : option World :=
  match r with
  | Ok _ σ => Some σ
  | Panic _ => None
  end.

(** What the caller has received. *)
Definition received (σ : World) : option (Z * Header) * string :=
  (rw_sent (caller σ), rw_body (caller σ)).

Definition dispatched (which : Which) (σ : World) : list ReqData.t :=
  omap (λ '(w, d), match w, which with
                   | Primary, Primary | Secondary, Secondary => Some d
                   | _, _ => None
                   end) (calls σ).


(** Backends. For [main.go] a backend is what the [http.Client] answers; for
    [part_000] it is a handler, and [httputil.NewSingleHostReverseProxy]
    makes the handlers of [newDualServer]: such a handler copies the headers,
    the status and the body the backend answered to its writer, and answers
    502 when the backend cannot be reached. *)
Definition answers (code : Z) (h : Header) (b : string) : DualClient.Client :=
  λ _, inr {| RespData.StatusCode := code; RespData.Header := h;
              RespData.Body := b |}.

Definition unreachable : DualClient.Client :=
  λ _, inl "dial tcp 127.0.0.1:9: connect: connection refused".

Definition ReverseProxy (c : DualClient.Client) : DualProxy.Handler :=
  λ d, match c d with
       | inl _ => [DualProxy.OpWriteHeader StatusBadGateway]
       | inr rd =>
           ((λ '(k, vv), DualProxy.OpHeader k vv)
              <$> map_to_list (RespData.Header rd))
           ++ [DualProxy.OpWriteHeader (RespData.StatusCode rd);
               DualProxy.OpWrite (RespData.Body rd)]
       end.

(** Scenario A: a POST with the body "hello" arrives at a new server with the
    capture directory "reqlog". *)
Definition hello : World :=
  arrival no_faults ∅ {[ "Host" := ["example.org"] ]} "hello".

Definition post : Request := inbound "POST" "/x".

Definition server {B} (b1 b2 : B) : dualServer B :=
  {| primary := b1; secondary := b2; dir := "reqlog"; id := 0 |}.

(** The same request arrives while the disk refuses new files. *)
Definition read_only : Faults :=
  {| create_fails := λ _, Some "read-only file system";
     open_fails := λ _, None; close_fails := λ _, None;
     seek_fails := λ _, None; write_limit := λ _, None |}.

Definition hello_read_only : World :=
  arrival read_only ∅ {[ "Host" := ["example.org"] ]} "hello".

(** Whether a file is there. *)
Definition stored (σ : World) (name : string) : bool :=
  bool_decide (is_Some (files σ !! name)).

(** The disk has room for [lim] bytes of the file [name]. *)
Definition full_at (name : string) (lim : nat) : Faults :=
  {| create_fails := λ _, None; open_fails := λ _, None;
     close_fails := λ _, None; seek_fails := λ _, None;
     write_limit := λ n, if bool_decide (n = name) then Some lim else None |}.

(** Scenario A again, with room for 55 bytes of the primary's artifact: the
    54 bytes of status line and headers, and one byte of the body. *)
Definition hello_disk_full : World :=
  arrival (full_at "reqlog/000000001.1" 55) ∅
    {[ "Host" := ["example.org"] ]} "hello".

(** [http.Client.Do] refuses a request whose [RequestURI] is set ("http:
    Request.RequestURI can't be set in client requests"); [go_client c] is
    the client [c] with that check in front. *)
Definition go_client (c : DualClient.Client) : DualClient.Client :=
  λ d, if bool_decide (ReqData.RequestURI d = "") then c d
       else inl "http: Request.RequestURI can't be set in client requests.".

(** A world in which the request of scenario A has been captured to
    [reqlog/000000001.0]. *)
Definition hello_captured : World :=
  arrival no_faults
    {[ "reqlog/000000001.0" :=
         HTTP11.write_request
           {| ReqData.Method := "POST"; ReqData.URL := "/x";
              ReqData.RequestURI := "/x";
              ReqData.Header := {[ "Host" := ["example.org"] ]};
              ReqData.Body := "hello" |} ]}
    ∅ "".


(** * Reasoning about the computations *)

(** [wp m σ Q]: from [σ], [m] returns (no panic) a value and a world that
    satisfy [Q]. *)
Definition wp {A} (m : M A) (σ : World) (Q : A -> World -> Prop) : Prop :=
  match m σ with
  | Ok a σ' => Q a σ'
  | Panic _ => False
  end.

Lemma wp_elim {A} (m : M A) σ Q :
  wp m σ Q -> exists a σ', m σ = Ok a σ' /\ Q a σ'.
Proof. unfold wp. destruct (m σ); [eauto|done]. Qed.

Lemma wp_intro {A} (m : M A) σ (Q : A -> World -> Prop) a σ' :
  m σ = Ok a σ' -> Q a σ' -> wp m σ Q.
Proof. unfold wp. by intros ->. Qed.

Lemma wp_mono {A} (m : M A) σ (Q Q' : A -> World -> Prop) :
  wp m σ Q -> (forall a σ', Q a σ' -> Q' a σ') -> wp m σ Q'.
Proof. unfold wp. destruct (m σ); [eauto|done]. Qed.

Lemma wp_ret {A} (a : A) σ (Q : A -> World -> Prop) : Q a σ -> wp (ret a) σ Q.
Proof. done. Qed.

Lemma wp_bind {A B} (m : M A) (k : A -> M B) σ Q :
  wp m σ (λ a σ', wp (k a) σ' Q) -> wp (bind m k) σ Q.
Proof. unfold wp, bind. by destruct (m σ). Qed.

Lemma wp_gets {A} (f : World -> A) σ (Q : A -> World -> Prop) :
  Q (f σ) σ -> wp (gets f) σ Q.
Proof. done. Qed.

Lemma wp_modify (f : World -> World) σ (Q : unit -> World -> Prop) :
  Q tt (f σ) -> wp (modify f) σ Q.
Proof. done. Qed.

Lemma wp_and {A} (m : M A) σ (Q Q' : A -> World -> Prop) :
  wp m σ Q -> wp m σ Q' -> wp m σ (λ a σ', Q a σ' /\ Q' a σ').
Proof. unfold wp. destruct (m σ); [done|tauto]. Qed.

(** [keeps R m P]: whenever [m] returns, the worlds before and after are
    related by [R] and the value returned satisfies [P]. *)
Definition keeps (R : World -> World -> Prop) {A} (m : M A) (P : A -> Prop)
  : Prop :=
  forall σ a σ', m σ = Ok a σ' -> R σ σ' /\ P a.

Definition any {A} : A -> Prop := λ _, True.

Lemma wp_keeps {A} R (m : M A) P σ Q :
  keeps R m P -> wp m σ Q -> wp m σ (λ a σ', Q a σ' /\ R σ σ' /\ P a).
Proof.
  intros HR Hwp. destruct (wp_elim _ _ _ Hwp) as (a & σ' & Heq & HQ).
  eapply wp_intro; [done|]. split; [done|]. by eapply HR.
Qed.

Lemma keeps_weaken {A} R (m : M A) (P P' : A -> Prop) :
  keeps R m P -> (forall a, P a -> P' a) -> keeps R m P'.
Proof. intros Hm HP σ a σ' Heq. destruct (Hm _ _ _ Heq). eauto. Qed.

Lemma keeps_any {A} R (m : M A) (P : A -> Prop) : keeps R m P -> keeps R m any.
Proof. intros Hm. by eapply keeps_weaken. Qed.

Section Keeps.
  Context (R : World -> World -> Prop) `{!PreOrder R}.

Lemma keeps_ret {A} (a : A) (P : A -> Prop) : P a -> keeps R (ret a) P.
  Proof. intros HP σ a' σ' [= ? ?]; subst. done. Qed.

Lemma keeps_ret_any {A} (a : A) : keeps R (ret a) any.
  Proof. by apply keeps_ret. Qed.

Lemma keeps_gets {A} (f : World -> A) : keeps R (gets f) any.
  Proof. intros σ a' σ' [= _ <-]. done. Qed.

Lemma keeps_panic {A} s (P : A -> Prop) : keeps R (@panic A s) P.
  Proof. intros σ a' σ' [=]. Qed.

Lemma keeps_bind {A B} (m : M A) (k : A -> M B) P1 (P : B -> Prop) :
    keeps R m P1 -> (forall a, P1 a -> keeps R (k a) P) -> keeps R (bind m k) P.
  Proof.
    intros Hm Hk σ b σ'. unfold bind. destruct (m σ) as [a σ1|] eqn:E; [|done].
    intros Hb. destruct (Hm _ _ _ E) as [HR1 HP1].
    destruct (Hk a HP1 _ _ _ Hb) as [HR2 HP]. split; [|done]. by etrans.
  Qed.

Lemma keeps_modify (f : World -> World) :
    (forall σ, R σ (f σ)) -> keeps R (modify f) any.
  Proof. intros Hf σ a' σ' [= _ <-]. split; [apply Hf|done]. Qed.

Lemma keeps_forM_ {A} (l : list A) (f : A -> M unit) :
    (forall a, keeps R (f a) any) -> keeps R (forM_ l f) any.
  Proof.
    intros Hf. induction l as [|a l IH]; cbn [forM_].
    - by apply keeps_ret.
    - eapply keeps_bind; [apply Hf|intros ? _; exact IH].
  Qed.
End Keeps.

(** ** What stays as it is *)

(** Locations from [next σ] on are unused. *)
Definition wf (σ : World) : Prop :=
  forall l, (next σ <= l)%nat ->
    handles σ !! l = None /\ headers σ !! l = None /\ streams σ !! l = None.

(** What no operation undoes: locations are not reused, the faults and the
    header map of the caller are the same, a file handle keeps its name. *)
Record frame (σ σ' : World) : Prop := {
  fr_next : (next σ <= next σ')%nat;
  fr_faults : faults σ' = faults σ;
  fr_rw_header : rw_header (caller σ') = rw_header (caller σ);
  fr_wf : wf σ -> wf σ';
  fr_handles : forall fh f, wf σ -> handles σ !! fh = Some f ->
    exists f', handles σ' !! fh = Some f' /\ Name f' = Name f
}.

#[export] Instance frame_preorder : PreOrder frame.
Proof.
  split.
  - intros σ. split; eauto.
  - intros σ1 σ2 σ3 [] []. split; try (etrans; eassumption); [eauto|].
    intros fh f Hwf Hf. edestruct fr_handles0 as (f' & Hf' & Hn); [done..|].
    edestruct fr_handles1 as (f'' & Hf'' & Hn'); [eauto..|].
    exists f''. split; [done|congruence].
Qed.

(** What the operations on files, readers and maps leave alone: the caller,
    the dispatch trace, the log. *)
Definition quiet (σ σ' : World) : Prop :=
  caller σ' = caller σ /\ calls σ' = calls σ /\ log σ' = log σ.

#[export] Instance quiet_preorder : PreOrder quiet.
Proof.
  split; [done|]. intros σ1 σ2 σ3 (?&?&?) (?&?&?). repeat split; congruence.
Qed.

(** The operations that only allocate leave the readers and maps that exist
    as they are. *)
Definition allocates (σ σ' : World) : Prop :=
  (next σ <= next σ')%nat
  /\ forall l, (l < next σ)%nat ->
       streams σ' !! l = streams σ !! l /\ headers σ' !! l = headers σ !! l.

#[export] Instance allocates_preorder : PreOrder allocates.
Proof.
  split; [done|]. intros σ1 σ2 σ3 [H1 H1'] [H2 H2']. split; [lia|].
  intros l Hl. destruct (H1' l Hl) as [E1 E2].
  destruct (H2' l ltac:(lia)) as [E3 E4]. split; congruence.
Qed.

(** No file is removed. *)
Definition files_stay (σ σ' : World) : Prop :=
  forall p, is_Some (files σ !! p) -> is_Some (files σ' !! p).

#[export] Instance files_stay_preorder : PreOrder files_stay.
Proof. split; [by intros σ p|]. intros σ1 σ2 σ3 H1 H2 p Hp. eauto. Qed.

(** Only the files named in [S] are created, written or removed. *)
Definition files_outside (S : list string) (σ σ' : World) : Prop :=
  forall p, p ∉ S -> files σ' !! p = files σ !! p.

#[export] Instance files_outside_preorder S : PreOrder (files_outside S).
Proof.
  split; [by intros σ p|]. intros σ1 σ2 σ3 H1 H2 p Hp. rewrite H2, H1; done.
Qed.

Lemma files_outside_mono S S' σ σ' :
  S ⊆ S' -> files_outside S σ σ' -> files_outside S' σ σ'.
Proof. intros HS H p Hp. apply H. set_solver. Qed.


(** ** The steps of a computation, one relation at a time *)

(** What the functions return. *)

(** A pointer and an error as Go functions return them: not both [nil]. *)
Definition not_both_nil {A} (r : option A * error) : Prop :=
  match r with
  | (None, None) => False
  | _ => True
  end.

Definition is_readReq `{NetHTTP}
    (r : option (M (option Request * error)) * error) : Prop :=
  match r with
  | (_, Some _) => True
  | (rd, None) => exists nm, rd = Some (DualClient.readReq nm)
  end.

Definition are_closures `{NetHTTP} (ds : dualServer DualClient.Client)
    (r : dualServer DualClient.Client
         * (option (M (option Request * error))
            * option (Response -> Z -> M (option Response * error))
            * error)) : Prop :=
  let '(ds', (rd, sv, err)) := r in
  ds' = snd (nextID ds) /\
  match err with
  | Some _ => True
  | None => exists nm base, rd = Some (DualClient.readReq nm)
                            /\ sv = Some (DualClient.saveResp base)
  end.

(** The response [Do] returns carries the status the backend answered. *)
Definition answered (c : DualClient.Client) (r : option Response * error)
  : Prop :=
  match r with
  | (_, Some _) => True
  | (None, None) => False
  | (Some resp, None) =>
      exists d rd, c d = inr rd
                   /\ Resp.StatusCode resp = RespData.StatusCode rd
  end.

Definition started `{NetHTTP} (ds : dualServer DualClient.Client)
    (r : dualServer DualClient.Client * option (M unit)) : Prop :=
  let '(ds', og) := r in
  ds' = snd (nextID ds) /\
  match og with
  | None => True
  | Some g =>
      exists nm base sc,
        g = DualClient.secondary_goroutine ds' (DualClient.readReq nm)
              (DualClient.saveResp base) sc
        /\ exists d rd, primary ds' d = inr rd /\ sc = RespData.StatusCode rd
  end.

(** A [respWriter] as [saveRequestResponse] of [part_000] makes it. *)
Definition file_writer (f : nat) : DualProxy.respWriter :=
  {| DualProxy.RW.WriteCloser := Some f; DualProxy.RW.w := false;
     DualProxy.RW.h := None; DualProxy.RW.status := 0 |}.

Definition replays
    (r : list (option Request) * list (option DualProxy.respWriter) * error)
  : Prop :=
  let '(requests, respWriters, err) := r in
  match err with
  | Some _ => True
  | None => exists r0 r1 f0 f1,
      requests = [Some r0; Some r1]
      /\ respWriters = [Some (file_writer f0); Some (file_writer f1)]
  end.

Definition two_replays (ds : dualServer DualProxy.Handler)
    (r : dualServer DualProxy.Handler
         * (list (option Request) * list (option DualProxy.respWriter) * error))
  : Prop :=
  let '(ds', (requests, respWriters, err)) := r in
  ds' = snd (nextID ds) /\ replays (requests, respWriters, err).

(** The status a handler leaves in the [respWriter] it was given: that of
    its last [WriteHeader] ([Write] works on a copy). *)
Fixpoint final_status (ops : list DualProxy.RWOp) (st : Z) : Z :=
  match ops with
  | [] => st
  | DualProxy.OpWriteHeader s :: ops' => final_status ops' s
  | _ :: ops' => final_status ops' st
  end.

(** The same file and the same caller behind a [respWriter]. *)
Definition same_writer (rw rw' : DualProxy.respWriter) : Prop :=
  DualProxy.RW.WriteCloser rw' = DualProxy.RW.WriteCloser rw
  /\ DualProxy.RW.w rw' = DualProxy.RW.w rw.

Definition written (rw : DualProxy.respWriter) (ops : list DualProxy.RWOp)
    (rw' : DualProxy.respWriter) : Prop :=
  same_writer rw rw'
  /\ DualProxy.RW.status rw' = final_status ops (DualProxy.RW.status rw).

Definition served (hd : DualProxy.Handler) (rw : DualProxy.respWriter)
    (rw' : DualProxy.respWriter) : Prop :=
  exists d, written rw (hd d) rw'.

Definition started_proxy `{NetHTTP} (ds : dualServer DualProxy.Handler)
    (r : dualServer DualProxy.Handler * option (M unit)) : Prop :=
  let '(ds', og) := r in
  ds' = snd (nextID ds) /\
  match og with
  | None => True
  | Some g =>
      exists f1 r1 d,
        g = DualProxy.secondary_goroutine ds' (file_writer f1) r1
              (final_status (primary ds' d) 0)
  end.

(** Relations kept by the operations on files, readers and maps
    ([Storage]); by the log and the caller's writer as well ([Output]); by a
    dispatch as well ([Effects]); by the removal of files ([Removal]). *)
Definition benign (m : string) : Prop :=
  m <> "status code mismatch" /\ m <> "CODE mismatch".

Class Storage (R : World -> World -> Prop) : Prop := {
  st_preorder :: PreOrder R;
  st_os_Create : forall n, keeps R (os_Create n) any;
  st_os_Open : forall n, keeps R (os_Open n) any;
  st_new_stream : forall b, keeps R (new_stream b) any;
  st_new_header : forall h, keeps R (new_header h) any;
  st_write : forall k v σ, R σ (set_files <[k := v]> σ);
  st_close : forall fh σ,
    R σ (set_handles
           (alter (λ f, {| Name := Name f; fopen := false |}) fh) σ);
  st_streams : forall f s σ, R σ (set_streams (alter f s) σ)
}.

Class Output (R : World -> World -> Prop) : Prop := {
  out_storage :: Storage R;
  out_headers : forall f l σ, R σ (set_headers (alter f l) σ);
  out_Log : forall l m c, benign m -> keeps R (Log l m c) any;
  out_sent : forall x σ,
    R σ (set_caller (λ w, {| rw_header := rw_header w; rw_sent := x;
                             rw_body := rw_body w |}) σ);
  out_body : forall x σ,
    R σ (set_caller (λ w, {| rw_header := rw_header w; rw_sent := rw_sent w;
                             rw_body := rw_body w +:+ x |}) σ)
}.

Class Effects (R : World -> World -> Prop) : Prop := {
  ef_output :: Output R;
  ef_calls : forall x σ, R σ (set_calls (λ cs, cs ++ [x]) σ)
}.

Class Removal (R : World -> World -> Prop) : Prop := {
  rm_output :: Output R;
  rm_delete : forall k σ, R σ (set_files (delete k) σ)
}.

Create HintDb keeps discriminated.

#[export] Hint Resolve st_os_Create st_os_Open st_new_stream st_new_header
  out_Log : keeps.
#[export] Hint Extern 1 (benign _) => split; discriminate : keeps.
#[export] Hint Extern 0 (Storage _) => tc_solve : keeps.
#[export] Hint Extern 0 (Output _) => tc_solve : keeps.
#[export] Hint Extern 0 (Effects _) => tc_solve : keeps.
#[export] Hint Extern 0 (Removal _) => tc_solve : keeps.

Ltac rel_step :=
  first [ apply st_write | apply st_close | apply st_streams
        | apply out_headers | apply out_sent | apply out_body
        | apply ef_calls | apply rm_delete ].

Ltac head_of t :=
  lazymatch t with
  | ?f _ => head_of f
  | _ => t
  end.

Ltac shapes :=
  unfold written, same_writer, served in *;
  cbn [is_readReq are_closures answered started two_replays replays
       not_both_nil
       final_status started_proxy
       DualProxy.RW.WriteCloser DualProxy.RW.w DualProxy.RW.h
       DualProxy.RW.status fst snd] in *.

Ltac tidy :=
  repeat match goal with
         | H : True |- _ => clear H
         | H : any _ |- _ => clear H
         | H : _ /\ _ |- _ => destruct H
         | H : ex _ |- _ => destruct H
         | H : Some _ = Some _ |- _ => injection H as H
         | H : False |- _ => destruct H
         | H : match ?o with _ => _ end |- _ => is_var o; destruct o
         | H : is_Some None |- _ => destruct H as [? H]; discriminate H
         | rw : DualProxy.RW.t |- _ => destruct rw; shapes
         | H : ?x = _ |- _ => is_var x; subst x
         | H : _ = ?x |- _ => is_var x; subst x
         end.

Ltac keeps_leaf :=
  lazymatch goal with
  | |- keeps _ _ ?P =>
      first [ solve [eauto 2 with keeps nocore]
            | eapply keeps_weaken;
              [solve [eauto 2 with keeps nocore] | solve [done | cbv; tauto]] ]
  end.

Ltac keeps_step :=
  lazymatch goal with
  | |- any _ => exact I
  | |- True => exact I
  | |- _ /\ _ => split
  | |- forall _, _ => intros; shapes; tidy
  | |- keeps _ (match ?x with _ => _ end) _ =>
      destruct x eqn:?; shapes; tidy
  | |- keeps _ _ _ =>
      first
        [ keeps_leaf
        | lazymatch goal with
          | |- keeps _ (ret _) ?P =>
              first [is_evar P; eapply keeps_ret_any
                    | eapply keeps_ret];
              try tc_solve
          | |- keeps _ (gets _) _ =>
              
              first [eapply keeps_gets
                    | eapply keeps_weaken; [eapply keeps_gets|done]];
              try tc_solve
          | |- keeps _ (panic _) _ => apply keeps_panic
          | |- keeps _ (bind _ _) _ => eapply keeps_bind; try tc_solve
          | |- keeps _ (forM_ _ _) _ =>
              
              first [eapply keeps_forM_
                    | eapply keeps_weaken; [eapply keeps_forM_|done]];
              try tc_solve
          | |- keeps _ (modify _) _ =>
              
              first [eapply keeps_modify
                    | eapply keeps_weaken; [eapply keeps_modify|done]];
              try tc_solve;
              intros; solve [rel_step]
          | |- keeps _ ?m _ => let h := head_of m in progress unfold h
          end ]
  end.

Ltac keeps_auto := repeat keeps_step.

(** A step that returns is undone to its parts. *)
Ltac run_in H :=
  unfold bind, gets, modify, ret, panic, nil_deref in H; cbn in H;
  repeat (case_match; cbn in H; try discriminate);
  simplify_eq.


(** [runs m P]: from every world, [m] returns (it does not panic), and the
    value returned satisfies [P]. *)
Definition runs {A} (m : M A) (P : A -> Prop) : Prop :=
  forall σ, exists a σ', m σ = Ok a σ' /\ P a.

Lemma runs_ret {A} (a : A) (P : A -> Prop) : P a -> runs (ret a) P.
Proof. intros HP σ. by exists a, σ. Qed.

Lemma runs_ret_any {A} (a : A) : runs (ret a) any.
Proof. by apply runs_ret. Qed.

Lemma runs_gets {A} (f : World -> A) : runs (gets f) any.
Proof. intros σ. by exists (f σ), σ. Qed.

Lemma runs_modify (f : World -> World) : runs (modify f) any.
Proof. intros σ. by exists tt, (f σ). Qed.

Lemma runs_bind {A B} (m : M A) (k : A -> M B) P1 (P : B -> Prop) :
  runs m P1 -> (forall a, P1 a -> runs (k a) P) -> runs (bind m k) P.
Proof.
  intros Hm Hk σ. destruct (Hm σ) as (a & σ1 & E & HP1).
  destruct (Hk a HP1 σ1) as (b & σ2 & E' & HP).
  exists b, σ2. unfold bind. rewrite E. done.
Qed.

Lemma runs_weaken {A} (m : M A) (P P' : A -> Prop) :
  runs m P -> (forall a, P a -> P' a) -> runs m P'.
Proof. intros Hm HP σ. destruct (Hm σ) as (a & σ' & ? & ?). eauto. Qed.

Lemma runs_forM_ {A} (l : list A) (f : A -> M unit) :
  (forall a, runs (f a) any) -> runs (forM_ l f) any.
Proof.
  intros Hf. induction l as [|a l IH]; cbn [forM_].
  - by apply runs_ret.
  - eapply runs_bind; [apply Hf|intros ? _; exact IH].
Qed.

Lemma runs_keeps {A} R (m : M A) P P' σ :
  runs m P -> keeps R m P' ->
  exists a σ', m σ = Ok a σ' /\ P a /\ P' a /\ R σ σ'.
Proof.
  intros Hr Hk. destruct (Hr σ) as (a & σ' & E & HP).
  destruct (Hk _ _ _ E). eauto 10.
Qed.

Create HintDb runs discriminated.

Ltac runs_leaf :=
  first [ solve [eauto 2 with runs nocore]
        | eapply runs_weaken;
          [solve [eauto 2 with runs nocore] | solve [done | cbv; tauto]] ].

Ltac runs_step :=
  lazymatch goal with
  | H : False |- _ => destruct H
  | |- any _ => exact I
  | |- True => exact I
  | |- not_both_nil _ =>
      solve [exact I | unfold not_both_nil; repeat case_match; done]
  | |- _ /\ _ => split
  | |- forall _, _ => intros; shapes; tidy
  | |- runs (match ?x with _ => _ end) _ =>
      destruct x eqn:?; shapes; tidy
  | |- runs _ _ =>
      first
        [ runs_leaf
        | lazymatch goal with
          | |- runs (ret _) ?P =>
              first [is_evar P; eapply runs_ret_any | eapply runs_ret]
          | |- runs (gets _) _ =>
              first [eapply runs_gets
                    | eapply runs_weaken; [eapply runs_gets|done]]
          | |- runs (bind _ _) _ => eapply runs_bind
          | |- runs (forM_ _ _) _ =>
              first [eapply runs_forM_
                    | eapply runs_weaken; [eapply runs_forM_|done]]
          | |- runs (modify _) _ =>
              first [eapply runs_modify
                    | eapply runs_weaken; [eapply runs_modify|done]]
          | |- runs (panic _) _ => fail
          | |- runs ?m _ => let h := head_of m in progress unfold h
          end ]
  end.

Ltac runs_auto := repeat runs_step.

Lemma runs_alloc : runs alloc any.
Proof. intros σ. by eexists _, _. Qed.
#[export] Hint Resolve runs_alloc : runs.

Lemma runs_os_Create name : runs (os_Create name) not_both_nil.
Proof. runs_auto. Qed.
Lemma runs_os_Open name : runs (os_Open name) not_both_nil.
Proof. runs_auto. Qed.
#[export] Hint Resolve runs_os_Create runs_os_Open : runs.
Lemma runs_File_Write fh p : runs (File_Write fh p) any.
Proof. runs_auto. Qed.
Lemma runs_File_Close fh : runs (File_Close fh) any.
Proof. runs_auto. Qed.
#[export] Hint Resolve runs_File_Write runs_File_Close : runs.


(** *** What every function keeps, once the primitives do *)

Section Generic.
  Context `{NetHTTP}.

  Section OverStorage.
    Context (R : World -> World -> Prop) `{!Storage R}.

Lemma keeps_File_Write fh p : keeps R (File_Write fh p) any.
    Proof. keeps_auto. Qed.
Lemma keeps_File_Close fh : keeps R (File_Close fh) any.
    Proof. keeps_auto. Qed.
Lemma keeps_File_Seek fh : keeps R (File_Seek fh) any.
    Proof. keeps_auto. Qed.
Lemma keeps_File_Name fh : keeps R (File_Name fh) any.
    Proof. keeps_auto. Qed.
Lemma keeps_File_content fh : keeps R (File_content fh) any.
    Proof. keeps_auto. Qed.
Lemma keeps_load_header l : keeps R (load_header l) any.
    Proof. keeps_auto. Qed.
Lemma keeps_read_all s : keeps R (read_all s) any.
    Proof. keeps_auto. Qed.
Lemma keeps_body_Close s : keeps R (body_Close s) any.
    Proof. keeps_auto. Qed.
    Hint Resolve keeps_File_Write keeps_File_Close keeps_File_Seek
      keeps_File_Name keeps_File_content keeps_load_header keeps_read_all
      keeps_body_Close : keeps.

Lemma keeps_multiCloser_loop cs err : keeps R (multiCloser_loop cs err) any.
    Proof.
      revert err. induction cs as [|c cs IH]; intros err; cbn [multiCloser_loop].
      - keeps_auto.
      - eapply keeps_bind; [tc_solve|keeps_auto|intros; apply IH].
    Qed.
    Hint Resolve keeps_multiCloser_loop : keeps.

Lemma keeps_Body_Close b : keeps R (Body_Close b) any.
    Proof. keeps_auto. Qed.
    Hint Resolve keeps_Body_Close : keeps.

Lemma keeps_Request_Write r fh : keeps R (Request_Write r fh) any.
    Proof. keeps_auto. Qed.
Lemma keeps_ReadRequest fh : keeps R (ReadRequest fh) any.
    Proof. keeps_auto. Qed.
Lemma keeps_Response_Write r fh : keeps R (Response_Write r fh) any.
    Proof. keeps_auto. Qed.
Lemma keeps_ReadResponse fh : keeps R (ReadResponse fh) any.
    Proof. keeps_auto. Qed.
    Hint Resolve keeps_Request_Write keeps_ReadRequest keeps_Response_Write
      keeps_ReadResponse : keeps.

    (** [main.go] *)
Lemma keeps_readReq nm : keeps R (DualClient.readReq nm) any.
    Proof. keeps_auto. Qed.
    Hint Resolve keeps_readReq : keeps.

Lemma keeps_saveRequest dest r :
      keeps R (DualClient.saveRequest dest r) is_readReq.
    Proof. keeps_auto; cbn; eauto. Qed.
    Hint Resolve keeps_saveRequest : keeps.

Lemma keeps_saveResponse dest resp :
      keeps R (DualClient.saveResponse dest resp) any.
    Proof. keeps_auto. Qed.
    Hint Resolve keeps_saveResponse : keeps.

Lemma keeps_saveResp base resp n :
      keeps R (DualClient.saveResp base resp n) any.
    Proof. keeps_auto. Qed.
    Hint Resolve keeps_saveResp : keeps.

Lemma keeps_saveRequestResponse ds r :
      keeps R (DualClient.saveRequestResponse ds r) (are_closures ds).
    Proof.
      unfold DualClient.saveRequestResponse, nextID. cbn iota beta.
      keeps_auto; cbn in *; tidy; eauto.
    Qed.

    (** [part_000] *)
Lemma keeps_writeRequest dest r : keeps R (DualProxy.writeRequest dest r) any.
    Proof. keeps_auto. Qed.
    Hint Resolve keeps_writeRequest : keeps.

Lemma keeps_saveRequestResponse_loop base reqFn k :
      forall i rs ws,
        keeps R (DualProxy.saveRequestResponse_loop base reqFn k i rs ws) any.
    Proof.
      induction k as [|k IH]; intros i rs ws;
        cbn [DualProxy.saveRequestResponse_loop]; keeps_auto.
    Qed.
    Hint Resolve keeps_saveRequestResponse_loop : keeps.

Lemma keeps_saveRequestResponse_proxy ds r n :
      keeps R (DualProxy.saveRequestResponse ds r n) any.
    Proof.
      unfold DualProxy.saveRequestResponse, nextID. cbn iota beta. keeps_auto.
    Qed.

Lemma keeps_WriteCloser_Write wc p :
      keeps R (DualProxy.WriteCloser_Write wc p) any.
    Proof. keeps_auto. Qed.
Lemma keeps_WriteCloser_Close wc :
      keeps R (DualProxy.WriteCloser_Close wc) any.
    Proof. keeps_auto. Qed.
  End OverStorage.

  #[local] Hint Resolve keeps_File_Write keeps_File_Close keeps_File_Seek
    keeps_File_Name keeps_File_content keeps_load_header keeps_read_all
    keeps_body_Close keeps_multiCloser_loop keeps_Body_Close
    keeps_Request_Write keeps_ReadRequest keeps_Response_Write
    keeps_ReadResponse keeps_readReq keeps_saveRequest keeps_saveResponse
    keeps_saveResp keeps_saveRequestResponse keeps_writeRequest
    keeps_saveRequestResponse_loop keeps_saveRequestResponse_proxy
    keeps_WriteCloser_Write keeps_WriteCloser_Close : keeps.

  Section OverOutput.
    Context (R : World -> World -> Prop) `{!Output R}.

Lemma keeps_Header_store l k vv : keeps R (Header_store l k vv) any.
    Proof. keeps_auto. Qed.
Lemma keeps_ResponseWriter_WriteHeader code :
      keeps R (ResponseWriter_WriteHeader code) any.
    Proof. keeps_auto. Qed.
    Hint Resolve keeps_Header_store keeps_ResponseWriter_WriteHeader : keeps.
Lemma keeps_ResponseWriter_Write p : keeps R (ResponseWriter_Write p) any.
    Proof. keeps_auto. Qed.
    Hint Resolve keeps_ResponseWriter_Write : keeps.
Lemma keeps_http_Error e code : keeps R (http_Error e code) any.
    Proof. keeps_auto. Qed.
    Hint Resolve keeps_http_Error : keeps.

    (** the [respWriter] of [part_000] *)
Lemma keeps_Header_ rw : keeps R (DualProxy.Header_ rw) any.
    Proof. keeps_auto. Qed.
    Hint Resolve keeps_Header_ : keeps.
Lemma keeps_WriteHeader rw status :
      keeps R (DualProxy.WriteHeader rw status) any.
    Proof. keeps_auto. Qed.
    Hint Resolve keeps_WriteHeader : keeps.
Lemma keeps_Write rw p : keeps R (DualProxy.Write rw p) any.
    Proof. keeps_auto. Qed.
    Hint Resolve keeps_Write : keeps.
Lemma keeps_apply_op rw op : keeps R (DualProxy.apply_op rw op) any.
    Proof. keeps_auto. Qed.
    Hint Resolve keeps_apply_op : keeps.
Lemma keeps_apply_ops ops : forall rw, keeps R (DualProxy.apply_ops rw ops) any.
    Proof.
      induction ops as [|op ops IH]; intros rw; cbn [DualProxy.apply_ops];
        keeps_auto.
    Qed.
    Hint Resolve keeps_apply_ops : keeps.
  End OverOutput.

  #[local] Hint Resolve keeps_Header_store keeps_ResponseWriter_WriteHeader
    keeps_ResponseWriter_Write keeps_http_Error keeps_Header_ keeps_WriteHeader
    keeps_Write keeps_apply_op keeps_apply_ops : keeps.

  Section OverEffects.
    Context (R : World -> World -> Prop) `{!Effects R}.

    (** [main.go] *)
Lemma keeps_Client_Do which c r :
      keeps R (DualClient.Client_Do which c r) (answered c).
    Proof.
      keeps_auto; cbn; eauto.
    Qed.
    Hint Resolve keeps_Client_Do : keeps.

    (** The goroutine, when logging a mismatch is harmless to [R] ... *)
Lemma keeps_secondary_goroutine ds nm base sc :
      (forall l c, keeps R (Log l "status code mismatch" c) any) ->
      keeps R (DualClient.secondary_goroutine ds (DualClient.readReq nm)
                 (DualClient.saveResp base) sc) any.
    Proof. intros HL. keeps_auto. Qed.

    (** ... and when the secondary answers with the status [sc] only. *)
Lemma keeps_secondary_goroutine_same ds nm base sc :
      (forall d rd, secondary ds d = inr rd -> RespData.StatusCode rd = sc) ->
      keeps R (DualClient.secondary_goroutine ds (DualClient.readReq nm)
                 (DualClient.saveResp base) sc) any.
    Proof.
      intros Hsc. unfold DualClient.secondary_goroutine.
      keeps_auto. exfalso.
      match goal with
      | Hb : bool_decide _ = true |- _ =>
          apply bool_decide_eq_true in Hb; apply Hb
      end.
      etrans; [eassumption|]. eauto.
    Qed.

Lemma keeps_ServeHTTP ds r :
      keeps R (DualClient.ServeHTTP ds r) (started ds).
    Proof.
      unfold DualClient.ServeHTTP. keeps_auto; cbn [started]; eauto 15.
    Qed.

    (** [part_000] *)
Lemma keeps_Handler_ServeHTTP which hd rw r :
      keeps R (DualProxy.Handler_ServeHTTP which hd rw r) any.
    Proof. keeps_auto. Qed.
    Hint Resolve keeps_Handler_ServeHTTP : keeps.

Lemma keeps_ServeHTTP_proxy ds r :
      keeps R (DualProxy.ServeHTTP ds r) any.
    Proof. unfold DualProxy.ServeHTTP. keeps_auto. Qed.

Lemma keeps_secondary_goroutine_proxy `{!Removal R} ds w r sc :
      (forall l c, keeps R (Log l "CODE mismatch" c) any) ->
      keeps R (DualProxy.secondary_goroutine ds w r sc) any.
    Proof. intros HL. unfold DualProxy.secondary_goroutine. keeps_auto. Qed.
  End OverEffects.
End Generic.

#[export] Hint Resolve keeps_File_Write keeps_File_Close keeps_File_Seek
  keeps_File_Name keeps_File_content keeps_load_header keeps_read_all
  keeps_body_Close keeps_multiCloser_loop keeps_Body_Close
  keeps_Request_Write keeps_ReadRequest keeps_Response_Write
  keeps_ReadResponse keeps_readReq keeps_saveRequest keeps_saveResponse
  keeps_saveResp keeps_saveRequestResponse keeps_writeRequest
  keeps_saveRequestResponse_loop keeps_saveRequestResponse_proxy
  keeps_Header_store keeps_ResponseWriter_WriteHeader
  keeps_ResponseWriter_Write keeps_http_Error keeps_Header_
  keeps_WriteCloser_Write keeps_WriteCloser_Close keeps_WriteHeader
  keeps_Write keeps_apply_op keeps_apply_ops keeps_Client_Do
  keeps_ServeHTTP keeps_Handler_ServeHTTP keeps_ServeHTTP_proxy : keeps.


(** *** The relations and the primitives *)

Ltac prim_keeps :=
  intros ? ? ? Heq; split; [|exact I];
  unfold os_Create, os_Open, new_stream, new_header, alloc, Log in Heq;
  run_in Heq.

Lemma frame_set_files f σ : frame σ (set_files f σ).
Proof. split; cbn; eauto. Qed.
Lemma frame_set_log f σ : frame σ (set_log f σ).
Proof. split; cbn; eauto. Qed.
Lemma frame_set_calls f σ : frame σ (set_calls f σ).
Proof. split; cbn; eauto. Qed.
Lemma frame_alter_streams f s σ : frame σ (set_streams (alter f s) σ).
Proof.
  split; cbn; eauto. intros Hwf l Hl. cbn in *.
  destruct (Hwf l Hl) as (?&?&Hs). repeat split; try done.
  rewrite lookup_alter. case_decide; subst; by rewrite Hs.
Qed.
Lemma frame_alter_headers f s σ : frame σ (set_headers (alter f s) σ).
Proof.
  split; cbn; eauto. intros Hwf l Hl. cbn in *.
  destruct (Hwf l Hl) as (?&Hs&?). repeat split; try done.
  rewrite lookup_alter. case_decide; subst; by rewrite Hs.
Qed.
Lemma frame_alter_handles fh σ :
  frame σ (set_handles
             (alter (λ f, {| Name := Name f; fopen := false |}) fh) σ).
Proof.
  split; cbn; eauto.
  - intros Hwf l Hl. cbn in *.
    destruct (Hwf l Hl) as (Hs&?&?). repeat split; try done.
    rewrite lookup_alter. case_decide; subst; by rewrite Hs.
  - intros fh' x _ Hx. rewrite lookup_alter. case_decide; subst.
    + rewrite Hx. cbn. eauto.
    + eauto.
Qed.
Ltac frame_new_handle :=
  split; cbn; eauto;
  [ intros Hwf l Hl; cbn in *; destruct (Hwf l ltac:(lia)) as (?&?&?);
    repeat split; try done; rewrite lookup_insert_ne by lia; done
  | intros fh x Hwf Hx; exists x; split; [|done];
    rewrite lookup_insert_ne; [done|]; intros <-;
    match goal with
    | Hw : wf ?s |- _ => destruct (Hw (next s) ltac:(lia)) as (?&?&?)
    end; congruence ].

Lemma frame_new_handle f σ :
  frame σ (set_handles <[next σ := f]> (set_next S σ)).
Proof. frame_new_handle. Qed.
Lemma frame_new_file f g σ :
  frame σ (set_handles <[next σ := f]> (set_files g (set_next S σ))).
Proof. frame_new_handle. Qed.
Lemma frame_new_stream f σ :
  frame σ (set_streams <[next σ := f]> (set_next S σ)).
Proof.
  split; cbn; eauto.
  intros Hwf l Hl. cbn in *. destruct (Hwf l ltac:(lia)) as (?&?&?).
  repeat split; try done. rewrite lookup_insert_ne by lia. done.
Qed.
Lemma frame_new_header f σ :
  frame σ (set_headers <[next σ := f]> (set_next S σ)).
Proof.
  split; cbn; eauto.
  intros Hwf l Hl. cbn in *. destruct (Hwf l ltac:(lia)) as (?&?&?).
  repeat split; try done. rewrite lookup_insert_ne by lia. done.
Qed.

#[export] Instance frame_storage : Storage frame.
Proof.
  split.
  - tc_solve.
  - intros n. prim_keeps; [reflexivity|]. apply frame_new_file.
  - intros n. prim_keeps; try reflexivity. apply frame_new_handle.
  - intros b. prim_keeps. apply frame_new_stream.
  - intros b. prim_keeps. apply frame_new_header.
  - intros. apply frame_set_files.
  - intros. apply frame_alter_handles.
  - intros. apply frame_alter_streams.
Qed.

#[export] Instance frame_output : Output frame.
Proof.
  split.
  - tc_solve.
  - intros. apply frame_alter_headers.
  - intros l m c _. prim_keeps. apply frame_set_log.
  - intros. split; cbn; eauto.
  - intros. split; cbn; eauto.
Qed.

#[export] Instance frame_effects : Effects frame.
Proof. split; [tc_solve|]. intros. apply frame_set_calls. Qed.

#[export] Instance frame_removal : Removal frame.
Proof. split; [tc_solve|]. intros. apply frame_set_files. Qed.

#[export] Instance quiet_storage : Storage quiet.
Proof.
  split; [tc_solve|..]; try (intros; by repeat split);
    intros ?; prim_keeps; by repeat split.
Qed.

Lemma files_stay_insert k v σ : files_stay σ (set_files <[k := v]> σ).
Proof.
  intros p Hp. cbn. destruct (decide (k = p)) as [->|].
  - rewrite lookup_insert_eq. eauto.
  - by rewrite lookup_insert_ne.
Qed.

#[export] Instance files_stay_storage : Storage files_stay.
Proof.
  split; [tc_solve|..]; try (intros; by intros p Hp).
  - intros ?. prim_keeps; [reflexivity|]. intros p Hp. cbn.
    by apply (files_stay_insert _ _ σ).
  - intros ?. prim_keeps; by intros p Hp.
  - intros ?. prim_keeps; by intros p Hp.
  - intros ?. prim_keeps; by intros p Hp.
  - intros. apply files_stay_insert.
Qed.

#[export] Instance files_stay_output : Output files_stay.
Proof.
  split; [tc_solve|..]; try (intros; by intros p Hp).
  intros l m c _. prim_keeps. by intros p Hp.
Qed.

#[export] Instance files_stay_effects : Effects files_stay.
Proof. split; [tc_solve|]. intros. by intros p Hp. Qed.

(** No entry about a mismatch is added to the log. *)
Definition calm (σ σ' : World) : Prop :=
  exists es, log σ' = log σ ++ es /\ Forall (λ e, benign (msg e)) es.

#[export] Instance calm_preorder : PreOrder calm.
Proof.
  split.
  - intros σ. exists []. by rewrite app_nil_r.
  - intros σ1 σ2 σ3 (es1 & E1 & H1) (es2 & E2 & H2). exists (es1 ++ es2).
    split; [by rewrite E2, E1, app_assoc|]. by apply Forall_app.
Qed.

Lemma calm_same_log σ σ' : log σ' = log σ -> calm σ σ'.
Proof. intros E. exists []. by rewrite app_nil_r. Qed.

#[export] Instance calm_storage : Storage calm.
Proof.
  split; [tc_solve|..]; try (intros; by apply calm_same_log);
    intros ?; prim_keeps; by apply calm_same_log.
Qed.

#[export] Instance calm_output : Output calm.
Proof.
  split; [tc_solve|..]; try (intros; by apply calm_same_log).
  intros l m c Hm. prim_keeps. eexists. split; [done|].
  by apply Forall_singleton.
Qed.

#[export] Instance calm_effects : Effects calm.
Proof. split; [tc_solve|]. intros. by apply calm_same_log. Qed.

#[export] Instance calm_removal : Removal calm.
Proof. split; [tc_solve|]. intros. by apply calm_same_log. Qed.


(** *** The functions return *)

Section Runs.
  Context `{NetHTTP}.

Lemma runs_os_Remove n : runs (os_Remove n) any.
  Proof. runs_auto. Qed.
Lemma runs_File_Seek fh : runs (File_Seek fh) any.
  Proof. runs_auto. Qed.
Lemma runs_File_Name fh : runs (File_Name fh) any.
  Proof. runs_auto. Qed.
Lemma runs_File_content fh : runs (File_content fh) any.
  Proof. runs_auto. Qed.
Lemma runs_new_stream b : runs (new_stream b) any.
  Proof. runs_auto. Qed.
Lemma runs_new_header b : runs (new_header b) any.
  Proof. runs_auto. Qed.
Lemma runs_load_header l : runs (load_header l) any.
  Proof. runs_auto. Qed.
Lemma runs_Header_store l k vv : runs (Header_store l k vv) any.
  Proof. runs_auto. Qed.
Lemma runs_read_all s : runs (read_all s) any.
  Proof. runs_auto. Qed.
Lemma runs_body_Close s : runs (body_Close s) any.
  Proof. runs_auto. Qed.
Lemma runs_Log l m c : runs (Log l m c) any.
  Proof. runs_auto. Qed.
  Hint Resolve runs_os_Remove runs_File_Seek runs_File_Name runs_File_content
    runs_new_stream runs_new_header runs_load_header runs_Header_store
    runs_read_all runs_body_Close runs_Log : runs.

Lemma runs_multiCloser_loop cs : forall err, runs (multiCloser_loop cs err) any.
  Proof.
    induction cs as [|c cs IH]; intros err; cbn [multiCloser_loop]; runs_auto.
  Qed.
  Hint Resolve runs_multiCloser_loop : runs.
Lemma runs_Body_Close b : runs (Body_Close b) any.
  Proof. runs_auto. Qed.
Lemma runs_ResponseWriter_WriteHeader code :
    runs (ResponseWriter_WriteHeader code) any.
  Proof. runs_auto. Qed.
  Hint Resolve runs_Body_Close runs_ResponseWriter_WriteHeader : runs.
Lemma runs_ResponseWriter_Write p : runs (ResponseWriter_Write p) any.
  Proof. runs_auto. Qed.
  Hint Resolve runs_ResponseWriter_Write : runs.
Lemma runs_http_Error e code : runs (http_Error e code) any.
  Proof. runs_auto. Qed.
Lemma runs_Request_Write r fh : runs (Request_Write r fh) any.
  Proof. runs_auto. Qed.
Lemma runs_ReadRequest fh : runs (ReadRequest fh) not_both_nil.
  Proof. runs_auto. Qed.
Lemma runs_Response_Write r fh : runs (Response_Write r fh) any.
  Proof. runs_auto. Qed.
Lemma runs_ReadResponse fh : runs (ReadResponse fh) not_both_nil.
  Proof. runs_auto. Qed.
  Hint Resolve runs_http_Error runs_Request_Write runs_ReadRequest
    runs_Response_Write runs_ReadResponse : runs.

  (** [main.go] *)
Lemma runs_Client_Do which c r :
    runs (DualClient.Client_Do which c r) (answered c).
  Proof. runs_auto; cbn; eauto. Qed.
Lemma runs_readReq nm : runs (DualClient.readReq nm) not_both_nil.
  Proof. runs_auto. Qed.
  Hint Resolve runs_Client_Do runs_readReq : runs.
Lemma runs_saveRequest dest r : runs (DualClient.saveRequest dest r) is_readReq.
  Proof. runs_auto; cbn; eauto. Qed.
Lemma runs_saveResponse dest resp :
    runs (DualClient.saveResponse dest resp) not_both_nil.
  Proof. runs_auto. Qed.
  Hint Resolve runs_saveRequest runs_saveResponse : runs.
Lemma runs_saveResp base resp n :
    0 < n -> runs (DualClient.saveResp base resp n) not_both_nil.
  Proof.
    intros Hn. unfold DualClient.saveResp.
    destruct (Z.leb_spec n 0); [lia|]. runs_auto.
  Qed.
Lemma runs_saveRequestResponse ds r :
    runs (DualClient.saveRequestResponse ds r) (are_closures ds).
  Proof.
    unfold DualClient.saveRequestResponse, nextID. cbn iota beta.
    runs_auto; cbn [are_closures]; eauto.
  Qed.
  Hint Resolve runs_saveRequestResponse : runs.
  Hint Extern 1 (runs (DualClient.saveResp _ _ _) _) =>
    apply runs_saveResp; lia : runs.

Lemma runs_secondary_goroutine ds nm base sc :
    runs (DualClient.secondary_goroutine ds (DualClient.readReq nm)
            (DualClient.saveResp base) sc) any.
  Proof. unfold DualClient.secondary_goroutine. runs_auto. Qed.
  Hint Resolve runs_secondary_goroutine : runs.

Lemma runs_ServeHTTP ds r : runs (DualClient.ServeHTTP ds r) (started ds).
  Proof.
    unfold DualClient.ServeHTTP. runs_auto; cbn [started]; eauto 15.
  Qed.
  Hint Resolve runs_ServeHTTP : runs.

  (** [main.go]: an exchange returns, whatever the request, the backends and
      the faults are. *)
Lemma runs_exchange ds r : runs (DualClient.exchange ds r) any.
  Proof. unfold DualClient.exchange. runs_auto. Qed.

  (** [part_000] *)
Lemma runs_Header_ rw :
    runs (DualProxy.Header_ rw) (λ '(rw', _), written rw [] rw').
  Proof. runs_auto; shapes; done. Qed.
Lemma runs_WriteCloser_Write wc p :
    is_Some wc -> runs (DualProxy.WriteCloser_Write wc p) any.
  Proof. intros Hwc. runs_auto. Qed.
Lemma runs_WriteCloser_Close wc :
    is_Some wc -> runs (DualProxy.WriteCloser_Close wc) any.
  Proof. intros Hwc. runs_auto. Qed.
  Hint Resolve runs_Header_ : runs.
  Hint Extern 1 (runs (DualProxy.WriteCloser_Write _ _) _) =>
    apply runs_WriteCloser_Write; solve [eauto | done] : runs.
  Hint Extern 1 (runs (DualProxy.WriteCloser_Close _) _) =>
    apply runs_WriteCloser_Close; solve [eauto | done] : runs.

Lemma runs_WriteHeader rw status :
    is_Some (DualProxy.RW.WriteCloser rw) ->
    runs (DualProxy.WriteHeader rw status)
      (written rw [DualProxy.OpWriteHeader status]).
  Proof.
    intros Hwc. unfold DualProxy.WriteHeader. runs_auto; shapes; done.
  Qed.
  Hint Extern 1 (runs (DualProxy.WriteHeader _ _) _) =>
    apply runs_WriteHeader; shapes; solve [eauto] : runs.

Lemma runs_Write rw p :
    is_Some (DualProxy.RW.WriteCloser rw) -> runs (DualProxy.Write rw p) any.
  Proof.
    intros Hwc. unfold DualProxy.Write.
    eapply (runs_bind _ _ (same_writer rw)).
    - destruct (_ =? 0).
      + eapply runs_weaken; [by apply runs_WriteHeader|]. by intros ? [? ?].
      + apply runs_ret. by split.
    - intros rw' [Hw1 Hw2]. rewrite <- Hw1 in Hwc. runs_auto.
  Qed.
  Hint Extern 1 (runs (DualProxy.Write _ _) _) =>
    apply runs_Write; shapes; solve [eauto] : runs.

Lemma runs_apply_op rw op :
    is_Some (DualProxy.RW.WriteCloser rw) ->
    runs (DualProxy.apply_op rw op) (written rw [op]).
  Proof.
    intros Hwc. unfold DualProxy.apply_op. runs_auto; shapes; done.
  Qed.

Lemma runs_apply_ops ops : forall rw,
    is_Some (DualProxy.RW.WriteCloser rw) ->
    runs (DualProxy.apply_ops rw ops) (written rw ops).
  Proof.
    induction ops as [|op ops IH]; intros rw Hwc; cbn [DualProxy.apply_ops].
    - apply runs_ret. by split.
    - eapply runs_bind; [by apply runs_apply_op|].
      intros rw1 ((Hw1 & Hw2) & Hst). eapply runs_weaken.
      { apply IH. by rewrite Hw1. }
      intros rw2 ((Hw1' & Hw2') & Hst'). split; [split; congruence|].
      rewrite Hst', Hst. by destruct op.
  Qed.

Lemma runs_Handler_ServeHTTP which hd rw r :
    is_Some (DualProxy.RW.WriteCloser rw) ->
    runs (DualProxy.Handler_ServeHTTP which hd rw r) (served hd rw).
  Proof.
    intros Hwc. unfold DualProxy.Handler_ServeHTTP. runs_auto.
    eapply runs_weaken; [by apply runs_apply_ops|]. intros rw' Hw.
    eexists. exact Hw.
  Qed.

Lemma runs_writeRequest dest r : runs (DualProxy.writeRequest dest r) any.
  Proof. runs_auto. Qed.
  Hint Resolve runs_writeRequest : runs.

Lemma runs_saveRequestResponse_loop base reqFn :
    runs (DualProxy.saveRequestResponse_loop base reqFn 2 0
            [None; None] [None; None]) replays.
  Proof.
    cbn [DualProxy.saveRequestResponse_loop].
    runs_auto; cbn; unfold file_writer; eauto 10.
  Qed.
  Hint Resolve runs_saveRequestResponse_loop : runs.

Lemma runs_saveRequestResponse_proxy ds r :
    runs (DualProxy.saveRequestResponse ds r 2) (two_replays ds).
  Proof.
    unfold DualProxy.saveRequestResponse, nextID. cbn iota beta.
    cbn [replicate]. runs_auto.
    all: try match goal with
      | Hr : replays ?a |- _ => destruct a as [[? ?] ?]; split; [done|exact Hr]
      end.
    by split.
  Qed.
  Hint Resolve runs_saveRequestResponse_proxy : runs.

Lemma runs_ServeHTTP_proxy ds r :
    runs (DualProxy.ServeHTTP ds r) (started_proxy ds).
  Proof.
    unfold DualProxy.ServeHTTP.
    eapply runs_bind; [apply runs_saveRequestResponse_proxy|].
    intros [ds' [[rs ws] [e|]]] [-> Hrep].
    - runs_auto. by cbn.
    - cbn in Hrep. destruct Hrep as (r0 & r1 & f0 & f1 & -> & ->).
      cbn [lookup list_lookup file_writer DualProxy.RW.WriteCloser
           DualProxy.RW.h DualProxy.RW.status].
      eapply runs_bind; [apply runs_Log|]. intros _ _.
      eapply runs_bind; [by apply runs_Handler_ServeHTTP|].
      intros rw0' (d & (Hw1 & Hw2) & Hst).
      eapply runs_bind; [by apply runs_WriteCloser_Close|]. intros _ _.
      apply runs_ret. split; [done|]. rewrite Hst. cbn. eauto.
  Qed.
End Runs.

#[export] Hint Resolve runs_os_Remove runs_File_Seek runs_File_Name
  runs_File_content runs_new_stream runs_new_header runs_load_header
  runs_Header_store runs_read_all runs_body_Close runs_Log
  runs_multiCloser_loop runs_Body_Close runs_ResponseWriter_WriteHeader
  runs_ResponseWriter_Write runs_http_Error runs_Request_Write
  runs_ReadRequest runs_Response_Write runs_ReadResponse runs_Client_Do
  runs_readReq runs_saveRequest runs_saveResponse runs_saveRequestResponse
  runs_secondary_goroutine runs_ServeHTTP runs_exchange runs_Header_
  runs_writeRequest runs_saveRequestResponse_loop
  runs_saveRequestResponse_proxy runs_ServeHTTP_proxy : runs.
#[export] Hint Extern 1 (runs (DualClient.saveResp _ _ _) _) =>
  apply runs_saveResp; lia : runs.
#[export] Hint Extern 1 (runs (DualProxy.WriteCloser_Write _ _) _) =>
  apply runs_WriteCloser_Write; solve [eauto | done] : runs.
#[export] Hint Extern 1 (runs (DualProxy.WriteCloser_Close _) _) =>
  apply runs_WriteCloser_Close; solve [eauto | done] : runs.
#[export] Hint Extern 1 (runs (DualProxy.WriteHeader _ _) _) =>
  apply runs_WriteHeader; shapes; solve [eauto] : runs.
#[export] Hint Extern 1 (runs (DualProxy.Write _ _) _) =>
  apply runs_Write; shapes; solve [eauto] : runs.
#[export] Hint Extern 1 (runs (DualProxy.apply_ops _ _) _) =>
  apply runs_apply_ops; shapes; solve [eauto] : runs.
#[export] Hint Extern 1 (runs (DualProxy.Handler_ServeHTTP _ _ _ _) _) =>
  apply runs_Handler_ServeHTTP; shapes; solve [eauto] : runs.


(** * The properties of the specification *)

Lemma bind_Ok {A B} (m : M A) (k : A -> M B) σ a σ1 :
  m σ = Ok a σ1 -> bind m k σ = k a σ1.
Proof. unfold bind. by intros ->. Qed.

Lemma bind_inv {A B} (m : M A) (k : A -> M B) σ b σ' :
  bind m k σ = Ok b σ' -> exists a σ1, m σ = Ok a σ1 /\ k a σ1 = Ok b σ'.
Proof. unfold bind. destruct (m σ) as [a σ1|]; [eauto|done]. Qed.

(** [http.Error] on a writer that has sent nothing yet: the status goes out
    and the message follows. *)
Lemma http_Error_sends e code σ :
  rw_sent (caller σ) = None ->
  exists σ' hdr,
    http_Error e code σ = Ok tt σ'
    /\ rw_sent (caller σ') = Some (code, hdr)
    /\ rw_body (caller σ') = rw_body (caller σ) +:+ e +:+ LF
    /\ calls σ' = calls σ /\ files σ' = files σ.
Proof.
  intros Hs. unfold http_Error, Header_store, ResponseWriter_Write,
    ResponseWriter_WriteHeader, load_header, bind, gets, modify, ret.
  cbn. rewrite Hs. cbn. eauto 10.
Qed.

Section Claims.
  Context `{NetHTTP}.

  (** ** C5: a capture failure *)

  (** C5: when the capture of the inbound request fails ([saveRequestResponse]
      returns an error), in [main.go] and in [part_000] alike, the caller
      receives status 500 with the message of the failure, and no backend is
      dispatched: the dispatch trace is what it was. *)
Theorem capture_failure_is_server_error (σ : World) (r : Request) :
    rw_sent (caller σ) = None ->
    (forall (ds ds1 : dualServer DualClient.Client) rd sv e σ1,
        DualClient.saveRequestResponse ds r σ = Ok (ds1, (rd, sv, Some e)) σ1 ->
        exists ds' σ' hdr,
          DualClient.exchange ds r σ = Ok ds' σ'
          /\ rw_sent (caller σ') = Some (StatusInternalServerError, hdr)
          /\ rw_body (caller σ')
             = rw_body (caller σ) +:+ ("error saving request: " +:+ e) +:+ LF
          /\ calls σ' = calls σ)
    /\ (forall (ds ds1 : dualServer DualProxy.Handler) rs ws e σ1,
        DualProxy.saveRequestResponse ds r 2 σ = Ok (ds1, (rs, ws, Some e)) σ1 ->
        exists ds' σ' hdr,
          DualProxy.exchange ds r σ = Ok ds' σ'
          /\ rw_sent (caller σ') = Some (StatusInternalServerError, hdr)
          /\ rw_body (caller σ')
             = rw_body (caller σ) +:+ ("error saving request: " +:+ e) +:+ LF
          /\ calls σ' = calls σ).
  Proof.
    intros Hsent. split.
    - intros ds ds1 rd sv e σ1 Hsave.
      destruct (keeps_saveRequestResponse quiet ds r _ _ _ Hsave)
        as [(Hc & Hcalls & _) _].
      destruct (http_Error_sends ("error saving request: " +:+ e)
                  StatusInternalServerError
                  (set_log (λ es, es ++ [ {| lvl := LvlCrit;
                     msg := "error saving request";
                     ctx := [("error", VStr e)] |} ]) σ1))
        as (σ' & hdr & He & Hs & Hb & Hcs & _); [cbn; congruence|].
      exists ds1, σ', hdr. cbn in Hb, Hcs.
      split; [|repeat split; congruence].
      assert (Hserve : DualClient.ServeHTTP ds r σ = Ok (ds1, None) σ').
      { unfold DualClient.ServeHTTP. rewrite (bind_Ok _ _ _ _ _ Hsave).
        cbn iota beta. unfold Log.
        erewrite bind_Ok; [|reflexivity]. erewrite bind_Ok; [|exact He]. done. }
      unfold DualClient.exchange. by rewrite (bind_Ok _ _ _ _ _ Hserve).
    - intros ds ds1 rs ws e σ1 Hsave.
      destruct (keeps_saveRequestResponse_proxy quiet ds r 2 _ _ _ Hsave)
        as [(Hc & Hcalls & _) _].
      destruct (http_Error_sends ("error saving request: " +:+ e)
                  StatusInternalServerError
                  (set_log (λ es, es ++ [ {| lvl := LvlCrit;
                     msg := "error saving request";
                     ctx := [("error", VStr e)] |} ]) σ1))
        as (σ' & hdr & He & Hs & Hb & Hcs & _); [cbn; congruence|].
      exists ds1, σ', hdr. cbn in Hb, Hcs.
      split; [|repeat split; congruence].
      assert (Hserve : DualProxy.ServeHTTP ds r σ = Ok (ds1, None) σ').
      { unfold DualProxy.ServeHTTP. rewrite (bind_Ok _ _ _ _ _ Hsave).
        cbn iota beta. unfold Log.
        erewrite bind_Ok; [|reflexivity]. erewrite bind_Ok; [|exact He]. done. }
      unfold DualProxy.exchange. by rewrite (bind_Ok _ _ _ _ _ Hserve).
  Qed.
End Claims.


Lemma wp_of {A} R (m : M A) P P' σ :
  runs m P -> keeps R m P' -> wp m σ (λ a σ', P a /\ P' a /\ R σ σ').
Proof.
  intros Hr Hk. destruct (runs_keeps R m P P' σ Hr Hk) as (a & σ' & E & ?).
  by eapply wp_intro.
Qed.

(** The secondary backend is not dispatched, and the caller's writer is not
    touched. *)
Definition no_secondary (σ σ' : World) : Prop :=
  caller σ' = caller σ /\ dispatched Secondary σ' = dispatched Secondary σ.

#[export] Instance no_secondary_preorder : PreOrder no_secondary.
Proof.
  split; [done|]. intros σ1 σ2 σ3 [? ?] [? ?]. split; congruence.
Qed.

#[export] Instance no_secondary_storage : Storage no_secondary.
Proof.
  split; [tc_solve|..]; try (intros; by split);
    intros ?; prim_keeps; by split.
Qed.

Lemma dispatched_app which cs cs' σ :
  calls σ = cs ++ cs' ->
  dispatched which σ
  = dispatched which (set_calls (λ _, cs) σ)
    ++ dispatched which (set_calls (λ _, cs') σ).
Proof. intros E. unfold dispatched. cbn. by rewrite E, omap_app. Qed.

(** An error reply of [ServeHTTP]: the log entry, then [http.Error]. *)
Lemma error_reply {A} l m c e code (x : A) σ :
  rw_sent (caller σ) = None ->
  wp (Log l m c ;; http_Error e code ;; ret x) σ
    (λ a σ', a = x
             /\ (exists hdr, rw_sent (caller σ') = Some (code, hdr))
             /\ rw_body (caller σ') = rw_body (caller σ) +:+ e +:+ LF
             /\ calls σ' = calls σ /\ files σ' = files σ).
Proof.
  intros Hs.
  destruct (http_Error_sends e code
              (set_log (λ es, es ++ [ {| lvl := l; msg := m; ctx := c |} ]) σ))
    as (σ' & hdr & He & Hs' & Hb & Hcs & Hfs); [done|].
  eapply wp_intro.
  - unfold Log. erewrite bind_Ok; [|reflexivity].
    erewrite bind_Ok; [|exact He]. reflexivity.
  - cbn in *. eauto 10.
Qed.

Section Claims1.
  Context `{NetHTTP}.

Lemma keeps_Client_Do_Primary c r :
    keeps no_secondary (DualClient.Client_Do Primary c r) any.
  Proof.
    unfold DualClient.Client_Do.
    eapply keeps_bind; try tc_solve; [apply keeps_load_header; tc_solve|].
    intros h _.
    eapply keeps_bind; try tc_solve; [apply keeps_read_all; tc_solve|].
    intros [b rerr] _.
    eapply keeps_bind; try tc_solve; [apply keeps_Body_Close; tc_solve|].
    intros _ _. eapply keeps_bind; try tc_solve.
    { apply keeps_modify; try tc_solve. intros σ. split; [done|].
      unfold dispatched. cbn. rewrite omap_app. cbn. by rewrite app_nil_r. }
    intros _ _. keeps_auto.
  Qed.

  (** [main.go]: when the primary backend fails for whatever request it is
      sent, the caller receives status 500 and the secondary backend is not
      dispatched. *)
Lemma primary_failure_is_server_error
      (ds : dualServer DualClient.Client) (r : Request) (σ : World) :
    rw_sent (caller σ) = None ->
    (forall d, exists e, primary ds d = inl e) ->
    exists ds' σ' hdr,
      DualClient.exchange ds r σ = Ok ds' σ'
      /\ rw_sent (caller σ') = Some (StatusInternalServerError, hdr)
      /\ dispatched Secondary σ' = dispatched Secondary σ.
  Proof.
    intros Hsent Hfail.
    cut (wp (DualClient.exchange ds r) σ
           (λ _ σ', (exists hdr, rw_sent (caller σ')
                                 = Some (StatusInternalServerError, hdr))
                    /\ dispatched Secondary σ' = dispatched Secondary σ)).
    { intros Hwp. destruct (wp_elim _ _ _ Hwp) as (ds' & σ' & E & (h & ?) & ?).
      eauto 10. }
    assert (Hreply : forall l m c e σ1,
      no_secondary σ σ1 ->
      wp (Log l m c ;; http_Error e StatusInternalServerError ;;
          ret (snd (nextID ds), @None (M unit))) σ1
        (λ a σ2, wp (let '(ds0, g) := a in
                     match g with Some g => g ;; ret ds0 | None => ret ds0 end)
                   σ2
                   (λ _ σ', (exists hdr, rw_sent (caller σ')
                               = Some (StatusInternalServerError, hdr))
                            /\ dispatched Secondary σ'
                               = dispatched Secondary σ))).
    { intros l m c e σ1 [Hc Hd]. eapply wp_mono.
      - apply error_reply. congruence.
      - intros a σ2 (-> & Hs & _ & Hcs & _). apply wp_ret.
        split; [done|]. unfold dispatched in *. congruence. }
    unfold DualClient.exchange, DualClient.ServeHTTP.
    apply wp_bind, wp_bind. eapply wp_mono.
    { apply (wp_of no_secondary); [apply runs_saveRequestResponse|].
      apply keeps_saveRequestResponse; tc_solve. }
    intros [ds1 [[rd sv] err]] σ1 ((-> & Hshape) & _ & Hns1).
    destruct err as [e|]; [by apply Hreply|].
    destruct Hshape as (nm & base & -> & ->).
    apply wp_bind. eapply wp_mono.
    { apply (wp_of no_secondary); [apply runs_readReq|].
      apply keeps_readReq; tc_solve. }
    intros [r' err] σ2 (Hnn & _ & Hns2).
    assert (Hns12 : no_secondary σ σ2) by (etrans; eassumption).
    destruct err as [e|]; [by apply Hreply|].
    destruct r' as [r'|]; [|done].
    apply wp_bind. eapply wp_mono.
    { apply (wp_of no_secondary); [apply runs_Client_Do|].
      apply keeps_Client_Do_Primary. }
    intros [resp err] σ3 (Hans & _ & Hns3).
    assert (Hns13 : no_secondary σ σ3) by (etrans; eassumption).
    destruct err as [e|]; [by apply Hreply|].
    exfalso. destruct resp as [resp|]; [|done].
    destruct Hans as (d & rd & Hd & _).
    destruct (Hfail d) as [e He]. cbn in Hd. congruence.
  Qed.
End Claims1.


(** ** Names of the artifacts *)

Lemma app_cons (x : ascii) (a b : string) :
  String x a +:+ b = String x (a +:+ b).
Proof. reflexivity. Qed.

Lemma app_nil (b : string) : "" +:+ b = b.
Proof. reflexivity. Qed.

Lemma app_String_assoc (a : string) (c : ascii) (b : string) :
  (a +:+ String c "") +:+ b = a +:+ String c b.
Proof.
  induction a as [|x a IH]; [done|]. rewrite !app_cons. by f_equal.
Qed.

Lemma app_assoc_string (a b c : string) : (a +:+ b) +:+ c = a +:+ (b +:+ c).
Proof.
  induction a as [|x a IH]; [done|]. rewrite !app_cons. by f_equal.
Qed.

Lemma length_app_String (a b : string) :
  String.length (a +:+ b) = (String.length a + String.length b)%nat.
Proof.
  induction a as [|x a IH]; [done|]. rewrite app_cons. cbn. by rewrite IH.
Qed.

(** [name[:len(name)-1]] for a name that ends in one more character. *)
Lemma substring_drop_last (a : string) (c : ascii) :
  substring 0 (String.length (a +:+ String c "") - 1) (a +:+ String c "") = a.
Proof.
  induction a as [|x a IH]; [done|].
  rewrite app_cons. rewrite length_app_String in IH.
  cbn [String.length]. rewrite length_app_String. cbn [String.length] in *.
  replace (S (String.length a + 1) - 1)%nat with (S (String.length a)) by lia.
  replace (String.length a + 1 - 1)%nat with (String.length a) in IH by lia.
  cbn [substring]. by rewrite IH.
Qed.

Lemma Sprintf_dot_d_1 : Sprintf_dot_d 1 = ".1".
Proof. reflexivity. Qed.
Lemma Sprintf_dot_d_2 : Sprintf_dot_d 2 = ".2".
Proof. reflexivity. Qed.

Lemma pruned_name (base : string) (c : string) :
  substring 0 (String.length (base +:+ ".2") - 1) (base +:+ ".2") +:+ c
  = base +:+ "." +:+ c.
Proof.
  assert (E : base +:+ ".2" = (base +:+ ".") +:+ String "2" "").
  { by rewrite app_String_assoc. }
  rewrite E, substring_drop_last. apply app_String_assoc.
Qed.

Lemma artifact_names_differ (base : string) :
  base +:+ ".0" <> base +:+ ".1" /\ base +:+ ".0" <> base +:+ ".2"
  /\ base +:+ ".1" <> base +:+ ".2".
Proof.
  repeat split; intros E; apply String.app_inj in E; discriminate.
Qed.


(** ** Two relations at once *)

Definition rel_and (R1 R2 : World -> World -> Prop) : World -> World -> Prop :=
  λ σ σ', R1 σ σ' /\ R2 σ σ'.

#[export] Instance rel_and_preorder R1 R2 `{!PreOrder R1, !PreOrder R2} :
  PreOrder (rel_and R1 R2).
Proof.
  split.
  - intros σ. split; reflexivity.
  - intros σ1 σ2 σ3 [? ?] [? ?]. split; etrans; eassumption.
Qed.

Lemma keeps_rel_and R1 R2 {A} (m : M A) P1 P2 :
  keeps R1 m P1 -> keeps R2 m P2 -> keeps (rel_and R1 R2) m any.
Proof.
  intros H1 H2 σ a σ' E. destruct (H1 _ _ _ E), (H2 _ _ _ E). by repeat split.
Qed.

#[export] Instance rel_and_storage R1 R2 `{!Storage R1, !Storage R2} :
  Storage (rel_and R1 R2).
Proof.
  split; [tc_solve|..].
  1-4: intros; eapply keeps_rel_and; eauto with keeps.
  all: intros; split; rel_step.
Qed.

#[export] Instance rel_and_output R1 R2 `{!Output R1, !Output R2} :
  Output (rel_and R1 R2).
Proof.
  split; [tc_solve|..].
  2: intros; eapply keeps_rel_and; eauto with keeps.
  all: intros; split; rel_step.
Qed.

#[export] Instance rel_and_effects R1 R2 `{!Effects R1, !Effects R2} :
  Effects (rel_and R1 R2).
Proof. split; [tc_solve|]. intros; split; rel_step. Qed.

#[export] Instance rel_and_removal R1 R2 `{!Removal R1, !Removal R2} :
  Removal (rel_and R1 R2).
Proof. split; [tc_solve|]. intros; split; rel_step. Qed.

(** No dispatch. *)
Definition same_calls (σ σ' : World) : Prop := calls σ' = calls σ.

#[export] Instance same_calls_preorder : PreOrder same_calls.
Proof. split; [done|]. intros σ1 σ2 σ3 ? ?. unfold same_calls in *. congruence. Qed.
#[export] Instance same_calls_storage : Storage same_calls.
Proof.
  split; [tc_solve|..]; try (intros; reflexivity);
    intros ?; prim_keeps; reflexivity.
Qed.
#[export] Instance same_calls_output : Output same_calls.
Proof.
  split; [tc_solve|..]; try (intros; reflexivity).
  intros l m c _. prim_keeps. reflexivity.
Qed.
#[export] Instance same_calls_removal : Removal same_calls.
Proof. split; [tc_solve|]. intros; reflexivity. Qed.

(** The files are the same. *)
Definition same_files (σ σ' : World) : Prop := files σ' = files σ.

#[export] Instance same_files_preorder : PreOrder same_files.
Proof. split; [done|]. intros σ1 σ2 σ3 ? ?. unfold same_files in *. congruence. Qed.

Lemma keeps_same_files_File_Close fh : keeps same_files (File_Close fh) any.
Proof.
  intros σ a σ' E. split; [|done]. unfold File_Close in E. run_in E; done.
Qed.

Lemma keeps_same_files_WriteCloser_Close wc :
  keeps same_files (DualProxy.WriteCloser_Close wc) any.
Proof.
  destruct wc as [fh|]; cbn; [|apply keeps_panic].
  eapply keeps_bind; try tc_solve; [apply keeps_same_files_File_Close|].
  intros. by apply keeps_ret; try tc_solve.
Qed.

Lemma wp_inv {A} (m : M A) σ Q a σ' : wp m σ Q -> m σ = Ok a σ' -> Q a σ'.
Proof. unfold wp. intros Hwp E. by rewrite E in Hwp. Qed.

Lemma runs_inv {A} (m : M A) P σ a σ' : runs m P -> m σ = Ok a σ' -> P a.
Proof. intros Hr E. destruct (Hr σ) as (a' & σ'' & E' & HP). congruence. Qed.

(** [os.Create] makes the handle it returns, with the name asked for, and
    an empty file. *)
Lemma wp_os_Create n σ :
  wp (os_Create n) σ (λ '(f, err) σ',
    frame σ σ' /\ quiet σ σ' /\
    match err with
    | Some _ => f = None /\ files σ' = files σ
    | None => exists fh, f = Some fh
        /\ handles σ' !! fh = Some {| Name := n; fopen := true |}
        /\ files σ' = <[n := ""]> (files σ)
    end).
Proof.
  destruct (runs_os_Create n σ) as ([f err] & σ' & E & _).
  eapply wp_intro; [exact E|].
  split; [by eapply (st_os_Create (R:=frame))|].
  split; [by eapply (st_os_Create (R:=quiet))|].
  unfold os_Create, alloc in E. run_in E; [done|].
  eexists. split; [done|]. cbn. by rewrite lookup_insert_eq.
Qed.

(** [os.Remove]: the name is gone; nothing else changes. *)
Lemma wp_os_Remove n σ :
  wp (os_Remove n) σ (λ _ σ',
    files σ' = delete n (files σ)
    /\ rel_and (rel_and frame calm) same_calls σ σ').
Proof.
  unfold wp, os_Remove, bind, gets, modify, ret. cbn.
  destruct (files σ !! n) eqn:E; cbn.
  - split; [done|]. apply (rm_delete (R:=rel_and (rel_and frame calm) same_calls)).
  - split; [|reflexivity]. symmetry. by apply delete_id.
Qed.

(** [fh.Name()] *)
Lemma File_Name_eq fh f σ :
  handles σ !! fh = Some f -> File_Name fh σ = Ok (Name f) σ.
Proof. intros E. unfold File_Name, bind, gets, ret. by rewrite E. Qed.


Lemma wp_from {A} R `{!PreOrder R} (m : M A) P P' σ0 σ :
  R σ0 σ -> runs m P -> keeps R m P' ->
  wp m σ (λ a σ', P a /\ P' a /\ R σ0 σ').
Proof.
  intros H0 Hr Hk. eapply wp_mono; [by apply (wp_of R)|].
  intros a σ' (? & ? & ?). repeat split; [done..|]. by etrans.
Qed.

(** One step of a computation, from a world [R]-related to the first one:
    it returns, and the world it leaves is [R]-related to the first one. *)
Ltac wp_call H :=
  apply wp_bind; eapply wp_mono;
  [ eapply (wp_from _ _ _ _ _ _ H);
    [solve [eauto 3 with runs nocore] | solve [eauto 3 with keeps nocore]]
  | clear H ].

(** The path of the artifacts of the exchange a server is about to serve,
    without the suffix. *)
Definition base_of `{NetHTTP} {B} (ds : dualServer B) : string :=
  Join (dir ds) (Sprintf_09d (AddUint32 (id ds) 1)).

Section Proxy.
  Context `{NetHTTP}.

  (** [saveRequestResponse] of [part_000]: two replays and two writers; the
      file of the second writer is [N.2]. *)
Lemma wp_saveRequestResponse_proxy ds r σ0 σ :
    rel_and frame quiet σ0 σ ->
    wp (DualProxy.saveRequestResponse ds r 2) σ (λ '(ds1, (rs, ws, err)) σ1,
      ds1 = snd (nextID ds) /\ rel_and frame quiet σ0 σ1 /\
      match err with
      | Some _ => True
      | None => exists r0 r1 f0 f1,
          rs = [Some r0; Some r1]
          /\ ws = [Some (file_writer f0); Some (file_writer f1)]
          /\ handles σ1 !! f1
             = Some {| Name := base_of ds +:+ ".2"; fopen := true |}
      end).
  Proof.
    intros R.
    unfold DualProxy.saveRequestResponse, nextID. cbn iota beta.
    wp_call R. intros err σa (_ & _ & R). destruct err as [e|].
    { by apply wp_ret. }
    cbn [replicate DualProxy.saveRequestResponse_loop].
    apply wp_bind.
    wp_call R. intros [fh err] σb (Hnn & _ & R).
    destruct err as [e|]; [by apply wp_ret, wp_ret|].
    destruct fh as [fh|]; [|done].
    wp_call R. intros [req err] σc (Hnn' & _ & R).
    destruct err as [e|]; [by apply wp_ret, wp_ret|].
    destruct req as [req|]; [|done]. cbn iota beta.
    wp_call R. intros [f0 err] σd (Hnn0 & _ & R).
    destruct err as [e|]; [by apply wp_ret, wp_ret|].
    destruct f0 as [f0|]; [|done].
    wp_call R. intros [fh1 err] σe (Hnn1 & _ & R).
    destruct err as [e|]; [by apply wp_ret, wp_ret|].
    destruct fh1 as [fh1|]; [|done].
    wp_call R. intros [req1 err] σf (Hnn2 & _ & R).
    destruct err as [e|]; [by apply wp_ret, wp_ret|].
    destruct req1 as [req1|]; [|done]. cbn iota beta.
    apply wp_bind. eapply wp_mono; [apply wp_os_Create|].
    intros [f1 err] σg (Hf & Hq & Hres).
    assert (R' : rel_and frame quiet σ0 σg) by (etrans; [exact R|by split]).
    destruct err as [e|]; [by apply wp_ret, wp_ret|].
    destruct Hres as (fh2 & -> & Hh & _).
    apply wp_ret, wp_ret. split; [done|]. split; [done|].
    cbn. eexists _, _, f0, fh2. repeat split. exact Hh.
  Qed.
End Proxy.


Section Proxy2.
  Context `{NetHTTP}.

  (** A handler is served: one dispatch is recorded, the writer is left with
      the status of the handler's last [WriteHeader]. *)
Lemma wp_Handler_ServeHTTP which hd rw r σ :
    is_Some (DualProxy.RW.WriteCloser rw) ->
    wp (DualProxy.Handler_ServeHTTP which hd rw r) σ (λ rw' σ',
      rel_and frame calm σ σ'
      /\ exists d, written rw (hd d) rw' /\ calls σ' = calls σ ++ [(which, d)]).
  Proof.
    intros Hwc. unfold DualProxy.Handler_ServeHTTP.
    assert (R : rel_and (rel_and frame calm) same_calls σ σ) by reflexivity.
    revert R. generalize σ at 2 3 as σ1. intros σ1 R.
    wp_call R. intros hm σa (_ & _ & R).
    wp_call R. intros [b rerr] σb (_ & _ & R).
    wp_call R. intros _ σc (_ & _ & R).
    apply wp_bind, wp_modify.
    set (σd := set_calls _ σc).
    assert (R' : rel_and (rel_and frame calm) same_calls σd σd) by reflexivity.
    eapply wp_mono.
    { eapply (wp_from _ _ _ _ _ _ R');
        [by apply runs_apply_ops|eauto 3 with keeps nocore]. }
    intros rw' σ' (Hw & _ & [[Hf Hc] Hs]). destruct R as [[Hf0 Hc0] Hs0].
    split.
    - split.
      + etrans; [exact Hf0|]. etrans; [|exact Hf]. apply frame_set_calls.
      + etrans; [exact Hc0|]. etrans; [|exact Hc]. by apply calm_same_log.
    - eexists. split; [exact Hw|]. unfold same_calls in *. rewrite Hs. cbn.
      by rewrite Hs0.
  Qed.
End Proxy2.


(** The entry [part_000] logs when the statuses differ. *)
Definition CODE_mismatch (wanted got : Z) : LogEntry :=
  {| lvl := LvlError; msg := "CODE mismatch";
     ctx := [("wanted", VInt wanted); ("got", VInt got)] |}.

Section Proxy3.
  Context `{NetHTTP}.

  (** An exchange of [part_000] whose capture succeeded: both handlers are
      served, the primary first. When the two statuses are equal, no mismatch
      is logged and the three artifacts are removed; when they differ, the
      mismatch is logged. *)
Lemma proxy_exchange ds r σ ds1 rs ws σ1 :
    wf σ ->
    DualProxy.saveRequestResponse ds r 2 σ = Ok (ds1, (rs, ws, None)) σ1 ->
    exists σ' d0 d1,
      DualProxy.exchange ds r σ = Ok ds1 σ'
      /\ calls σ' = calls σ ++ [(Primary, d0); (Secondary, d1)]
      /\ frame σ σ'
      /\ (final_status (secondary ds d1) 0 = final_status (primary ds d0) 0 ->
          calm σ σ'
          /\ files σ' !! (base_of ds +:+ ".0") = None
          /\ files σ' !! (base_of ds +:+ ".1") = None
          /\ files σ' !! (base_of ds +:+ ".2") = None)
      /\ (final_status (secondary ds d1) 0 <> final_status (primary ds d0) 0 ->
          exists es, log σ'
            = log σ ++ es ++ [CODE_mismatch (final_status (primary ds d0) 0)
                                (final_status (secondary ds d1) 0)]).
  Proof.
    intros Hwf Hsave.
    pose proof (wp_inv _ _ _ _ _
                  (wp_saveRequestResponse_proxy ds r σ σ ltac:(reflexivity))
                  Hsave) as (-> & [Hf1 Hq1] & Hshape).
    destruct Hshape as (r0 & r1 & f0 & f1 & -> & -> & Hh1).
    assert (Hwf1 : wf σ1) by (by apply (fr_wf _ _ Hf1)).
    destruct Hq1 as (Hcaller1 & Hcalls1 & Hlog1).
    cut (wp (DualProxy.exchange ds r) σ (λ ds' σ',
           ds' = snd (nextID ds)
           /\ exists d0 d1,
             calls σ' = calls σ ++ [(Primary, d0); (Secondary, d1)]
             /\ frame σ σ'
             /\ (final_status (secondary ds d1) 0
                 = final_status (primary ds d0) 0 ->
                 calm σ σ'
                 /\ files σ' !! (base_of ds +:+ ".0") = None
                 /\ files σ' !! (base_of ds +:+ ".1") = None
                 /\ files σ' !! (base_of ds +:+ ".2") = None)
             /\ (final_status (secondary ds d1) 0
                 <> final_status (primary ds d0) 0 ->
                 exists es, log σ'
                   = log σ ++ es
                     ++ [CODE_mismatch (final_status (primary ds d0) 0)
                           (final_status (secondary ds d1) 0)]))).
    { intros Hwp. destruct (wp_elim _ _ _ Hwp)
        as (ds' & σ' & E & -> & d0 & d1 & ?). eauto 10. }
    unfold DualProxy.exchange at 1, DualProxy.ServeHTTP at 1.
    apply wp_bind, wp_bind. eapply wp_intro; [exact Hsave|].
    cbn [lookup list_lookup file_writer DualProxy.RW.WriteCloser
         DualProxy.RW.h DualProxy.RW.status].
    apply wp_bind. unfold Log at 1. apply wp_modify.
    set (σ2 := set_log _ σ1).
    apply wp_bind. eapply wp_mono; [by apply wp_Handler_ServeHTTP|].
    intros rw0' σ3 ([Hf3 Hc3] & d0 & [[Hw0 Hw0'] Hst0] & Hcalls3).
    cbn [DualProxy.RW.status] in Hst0.
    assert (R : rel_and (rel_and frame calm) same_calls σ3 σ3) by reflexivity.
    wp_call R. intros _ σ4 (_ & _ & [[Hf4 Hc4] Hs4]).
    apply wp_ret. unfold DualProxy.secondary_goroutine.
    cbn [file_writer DualProxy.RW.WriteCloser].
    apply wp_bind, wp_bind.
    eapply wp_mono; [by apply wp_Handler_ServeHTTP|].
    intros w' σ5 ([Hf5 Hc5] & d1 & [[Hw1 Hw1'] Hst1] & Hcalls5).
    cbn [DualProxy.RW.status DualProxy.RW.WriteCloser file_writer] in *.
    assert (Hcalls : calls σ5 = calls σ ++ [(Primary, d0); (Secondary, d1)]).
    { rewrite Hcalls5, Hs4, Hcalls3. cbn. rewrite Hcalls1.
      by rewrite <- app_assoc. }
    assert (Hf15 : frame σ1 σ5).
    { etrans; [|exact Hf5]. etrans; [|exact Hf4]. etrans; [|exact Hf3].
      apply frame_set_log. }
    assert (Hlog5 : calm σ σ5).
    { etrans; [apply calm_same_log; exact Hlog1|].
      etrans; [|exact Hc5]. etrans; [|exact Hc4]. etrans; [|exact Hc3].
      eexists. split; [reflexivity|]. apply Forall_singleton.
      split; discriminate. }
    destruct (fr_handles _ _ Hf15 _ _ Hwf1 Hh1) as (x & Hx & Hname).
    cbn in Hname.
    apply wp_bind.
    rewrite Hst1, Hst0, Hw1. cbn [primary secondary nextID snd].
    case_bool_decide as Hsc.
    - (* the statuses differ *)
      unfold Log at 1. apply wp_modify.
      assert (R6 : rel_and frame quiet
                     (set_log (λ es, es ++ [CODE_mismatch
                        (final_status (primary ds d0) 0)
                        (final_status (secondary ds d1) 0)]) σ5)
                     (set_log (λ es, es ++ [CODE_mismatch
                        (final_status (primary ds d0) 0)
                        (final_status (secondary ds d1) 0)]) σ5))
        by reflexivity.
      eapply wp_mono.
      { eapply (wp_from _ _ _ _ _ _ R6);
          [solve [eauto 3 with runs nocore]|solve [eauto 3 with keeps nocore]]. }
      intros _ σ7 (_ & _ & [Hf7 (_ & Hs7 & Hl7)]). apply wp_ret.
      split; [done|]. exists d0, d1. split; [by rewrite Hs7|]. split.
      { etrans; [exact Hf1|]. etrans; [exact Hf15|].
        etrans; [|exact Hf7]. apply frame_set_log. }
      split; [done|]. intros _.
      destruct Hlog5 as (es & Hes & _).
      exists es. rewrite Hl7. cbn. rewrite Hes. by rewrite <- app_assoc.
    - (* the statuses are equal *)
      apply wp_bind. eapply wp_intro; [by apply File_Name_eq|].
      rewrite Hname. case_bool_decide as Hlen.
      { rewrite length_app_String in Hlen. cbn in Hlen. lia. }
      cbn [forM_]. change (Itoa 0) with "0". change (Itoa 1) with "1".
      change (Itoa 2) with "2". rewrite !pruned_name.
      apply wp_bind, wp_bind. eapply wp_mono; [apply wp_os_Remove|].
      intros _ σ6 (Hfs6 & [[Hf6 Hc6] Hs6]). apply wp_ret.
      apply wp_bind, wp_bind. eapply wp_mono; [apply wp_os_Remove|].
      intros _ σ7 (Hfs7 & [[Hf7 Hc7] Hs7]). apply wp_ret.
      apply wp_bind, wp_bind. eapply wp_mono; [apply wp_os_Remove|].
      intros _ σ8 (Hfs8 & [[Hf8 Hc8] Hs8]). apply wp_ret, wp_ret.
      assert (R8 : rel_and (rel_and (rel_and frame calm) quiet) same_files
                     σ8 σ8) by reflexivity.
      eapply wp_mono.
      { eapply (wp_from _ _ _ _ _ _ R8);
          [solve [eauto 3 with runs nocore]|].
        eapply keeps_rel_and; [solve [eauto 3 with keeps nocore]|].
        apply keeps_same_files_WriteCloser_Close. }
      intros _ σ9 (_ & _ & [[[Hf9 Hc9] (_ & Hs9 & _)] Hfs9]). apply wp_ret.
      split; [done|]. exists d0, d1. unfold same_calls, same_files in *.
      split; [congruence|]. split.
      { etrans; [exact Hf1|]. etrans; [exact Hf15|].
        repeat (etrans; [eassumption|]). reflexivity. }
      split; [|done]. intros _. split.
      { etrans; [exact Hlog5|]. repeat (etrans; [eassumption|]). reflexivity. }
      rewrite Hfs9, Hfs8, Hfs7, Hfs6.
      repeat split; apply lookup_delete_None; eauto using lookup_delete_eq.
      all: right; apply lookup_delete_None; eauto using lookup_delete_eq.
      right; apply lookup_delete_None; eauto.
  Qed.
End Proxy3.


(** * Properties *)

(** ** The sequence allocator *)

Lemma AddUint32_range a d : 0 <= AddUint32 a d < 2 ^ 32.
Proof. unfold AddUint32. apply Z.mod_pos_bound. lia. Qed.

Lemma id_after_calls {B} (n : N) (ds : dualServer B) :
  id (after_calls n ds) = (if (n =? 0)%N then id ds
                           else (id ds + Z.of_N n) mod 2 ^ 32).
Proof.
  unfold after_calls. induction n as [|n IH] using N.peano_ind; [done|].
  rewrite N.iter_succ. set (ds' := N.iter n _ ds) in *.
  cbn [nextID snd id]. unfold AddUint32. rewrite IH.
  destruct (N.eqb_spec (N.succ n) 0) as [Hs|Hs]; [lia|].
  destruct (N.eqb_spec n 0) as [->|Hn].
  - f_equal; lia.
  - rewrite Zplus_mod_idemp_l. f_equal; lia.
Qed.

Lemma nth_id_eq {B} (n : N) (ds : dualServer B) :
  (1 <= n)%N -> nth_id n ds = (id ds + Z.of_N n) mod 2 ^ 32.
Proof.
  intros Hn. unfold nth_id. cbn [nextID fst]. rewrite id_after_calls.
  unfold AddUint32. destruct (N.eqb_spec (N.pred n) 0) as [H0|H0].
  - f_equal; lia.
  - rewrite Zplus_mod_idemp_l. f_equal; lia.
Qed.

(** A server as [newDualServer] makes it: [id] is zero. *)
Definition fresh_server {B} (b1 b2 : B) (d : string) : dualServer B :=
  {| primary := b1; secondary := b2; dir := d; id := 0 |}.

(** C8, as stated, fails: the counter is a [uint32], and the call number
    [2^32] on a fresh server returns 0, which is smaller than the 1 the first
    call returned; the call after it returns 1 again, a duplicate. *)
Lemma nextID_wraps_around :
  nth_id 1 (fresh_server tt tt "reqlog") = 1
  /\ nth_id (2 ^ 32) (fresh_server tt tt "reqlog") = 0
  /\ nth_id (2 ^ 32 + 1) (fresh_server tt tt "reqlog") = 1
  /\ ~ (forall n m : N, (1 <= n < m)%N ->
          nth_id n (fresh_server tt tt "reqlog")
          < nth_id m (fresh_server tt tt "reqlog")).
Proof.
  assert (H1 : nth_id 1 (fresh_server tt tt "reqlog") = 1).
  { rewrite nth_id_eq by lia. reflexivity. }
  assert (H2 : nth_id (2 ^ 32) (fresh_server tt tt "reqlog") = 0).
  { rewrite nth_id_eq by lia. reflexivity. }
  assert (H3 : nth_id (2 ^ 32 + 1) (fresh_server tt tt "reqlog") = 1).
  { rewrite nth_id_eq by lia. reflexivity. }
  split; [exact H1|]. split; [exact H2|]. split; [exact H3|].
  intros Hall. specialize (Hall 1%N (2 ^ 32)%N ltac:(lia)).
  rewrite H1, H2 in Hall. lia.
Qed.

(** C8, amended: as long as the counter has not reached [2^32], every
    identifier [nextID] returns is greater than all identifiers returned
    before (so none is a duplicate of, or smaller than, an earlier one). *)
Theorem nextID_increasing {B} (ds : dualServer B) (n m : N) :
  0 <= id ds ->
  (1 <= n < m)%N ->
  id ds + Z.of_N m < 2 ^ 32 ->
  nth_id n ds < nth_id m ds.
Proof.
  intros Hid Hnm Hm. rewrite !nth_id_eq by lia.
  rewrite !Z.mod_small by lia. lia.
Qed.

Lemma nextID_increasing_witness :
  nth_id 1 (fresh_server tt tt "reqlog") < nth_id 2 (fresh_server tt tt "reqlog").
Proof.
  apply (nextID_increasing (fresh_server tt tt "reqlog") 1 2);
    cbn [fresh_server id]; lia.
Defined.

(** ** The draining listener *)

(** A listener on which two connections, 1 and 2, are about to arrive. *)
Definition two_pending : Listener.stoppableListener :=
  Listener.newStoppableListener
    {| Listener.closed := false; Listener.backlog := [inl 1%nat; inl 2%nat] |}.

(** C2, as stated, fails: [Close] calls [wg.Done()] every time. With two
    connections accepted, closing the first one twice takes the counter from
    2 to 0, two units and not one, while the second connection is still open;
    with one connection accepted, the second [Close] panics. *)
Lemma Close_twice_decrements_twice :
  exists sc1 sl1 sc2 sl2 es sl3,
    Listener.Accept two_pending = Listener.Ret (Some sc1, None) sl1
    /\ Listener.Accept sl1 = Listener.Ret (Some sc2, None) sl2
    /\ Listener.WaitGroup sl2 = 2
    /\ Listener.Close_times 2 sc1 sl2 = Listener.Ret es sl3
    /\ Listener.WaitGroup sl3 = 0
    /\ Listener.WaitGroup sl3 <> Listener.WaitGroup sl2 - 1
    /\ Listener.open_conns sl3 = [Listener.Conn sc2]
    /\ Listener.Close_times 2 sc1 sl1
       = Listener.Panic "sync: negative WaitGroup counter".
Proof. repeat eexists; vm_compute; try reflexivity; discriminate. Qed.

(** C2, amended: every call of [Close] on a connection that a successful
    [Accept] returned takes exactly one unit off the counter: [k] calls take
    [k] units when that many are outstanding, and otherwise a call that finds
    the counter at zero panics; the counter is never negative. *)
Theorem Close_times_decrements (sl sl1 : Listener.stoppableListener)
    (sc : Listener.stoppableConn) (k : nat) :
  0 <= Listener.WaitGroup sl ->
  Listener.Accept sl = Listener.Ret (Some sc, None) sl1 ->
  Listener.WaitGroup sl1 = Listener.WaitGroup sl + 1
  /\ (Z.of_nat k <= Listener.WaitGroup sl1 ->
      exists es sl2,
        Listener.Close_times k sc sl1 = Listener.Ret es sl2
        /\ Listener.WaitGroup sl2 = Listener.WaitGroup sl1 - Z.of_nat k
        /\ 0 <= Listener.WaitGroup sl2)
  /\ (Listener.WaitGroup sl1 < Z.of_nat k ->
      Listener.Close_times k sc sl1
      = Listener.Panic "sync: negative WaitGroup counter").
Proof.
  intros H0 Hacc.
  pose proof (Listener.Accept_WaitGroup _ _ _ H0 Hacc) as Hw. cbn in Hw.
  split; [done|]. split.
  - intros Hk. destruct (Listener.Close_times_Ret sc k sl1 Hk) as (es & sl2 & ? & ?).
    exists es, sl2. repeat split; [done|done|lia].
  - intros Hk. apply Listener.Close_times_Panic. lia.
Qed.

Lemma Close_times_decrements_witness :
  exists sc sl1,
    Listener.Accept two_pending = Listener.Ret (Some sc, None) sl1
    /\ Listener.WaitGroup sl1 = 1
    /\ (exists es sl2, Listener.Close_times 1 sc sl1 = Listener.Ret es sl2
                       /\ Listener.WaitGroup sl2 = 0)
    /\ Listener.Close_times 2 sc sl1
       = Listener.Panic "sync: negative WaitGroup counter".
Proof.
  eexists _, _. split; [reflexivity|].
  destruct (Close_times_decrements two_pending _ _ 1 ltac:(cbn; lia) eq_refl)
    as (Hw & Hret & _).
  destruct (Close_times_decrements two_pending _ _ 2 ltac:(cbn; lia) eq_refl)
    as (_ & _ & Hpanic).
  split; [exact Hw|]. split.
  - destruct Hret as (es & sl2 & He & Hw2 & _); [cbn; lia|].
    exists es, sl2. split; [exact He|]. rewrite Hw2. reflexivity.
  - apply Hpanic. cbn. lia.
Defined.

(** ** The scenarios *)

Lemma wf_arrival fl fs h b : wf (arrival fl fs h b).
Proof.
  intros l Hl. cbn in *. split; [apply lookup_empty|]. split.
  - rewrite lookup_insert_ne by lia. apply lookup_singleton_ne. lia.
  - apply lookup_singleton_ne. lia.
Qed.

Section CaptureFailure.
  #[local] Existing Instance HTTP11.http11.

Lemma capture_failure_is_server_error_witness :
    (exists ds' σ' hdr,
        DualClient.exchange (server (answers 200 ∅ "ok") (answers 200 ∅ "ok"))
          post hello_read_only = Ok ds' σ'
        /\ rw_sent (caller σ') = Some (StatusInternalServerError, hdr)
        /\ rw_body (caller σ')
           = "error saving request: read-only file system" +:+ LF
        /\ calls σ' = [])
    /\ (exists ds' σ' hdr,
        DualProxy.exchange
          (server (ReverseProxy (answers 200 ∅ "ok"))
                  (ReverseProxy (answers 200 ∅ "ok")))
          post hello_read_only = Ok ds' σ'
        /\ rw_sent (caller σ') = Some (StatusInternalServerError, hdr)
        /\ rw_body (caller σ')
           = "error saving request: read-only file system" +:+ LF
        /\ calls σ' = []).
  Proof.
    destruct (capture_failure_is_server_error hello_read_only post eq_refl)
      as [Hmain Hproxy].
    split.
    - eapply Hmain. vm_compute. reflexivity.
    - eapply Hproxy. vm_compute. reflexivity.
  Defined.
End CaptureFailure.

Section PrimaryFailureScenario.
  #[local] Existing Instance HTTP11.http11.

End PrimaryFailureScenario.

Section EqualStatus.
  Context `{NetHTTP}.

  (** [main.go]: an exchange with backends that answer with one status only
      keeps what an exchange keeps, and logs no mismatch. *)
Lemma keeps_exchange_same R `{!Effects R} ds r :
    (forall d d' rd rd',
        primary ds d = inr rd -> secondary ds d' = inr rd' ->
        RespData.StatusCode rd' = RespData.StatusCode rd) ->
    keeps R (DualClient.exchange ds r) any.
  Proof.
    intros Hsame. unfold DualClient.exchange.
    eapply keeps_bind; try tc_solve; [apply keeps_ServeHTTP; tc_solve|].
    intros [ds' [g|]] Hst; cbn [started] in Hst.
    - destruct Hst as (-> & nm & base & sc & -> & d & rd & Hd & ->).
      eapply keeps_bind; try tc_solve.
      + apply keeps_secondary_goroutine_same; [tc_solve|].
        intros d' rd' Hd'. cbn in Hd, Hd'. eauto.
      + intros. apply keeps_ret_any. tc_solve.
    - apply keeps_ret_any. tc_solve.
  Qed.

End EqualStatus.

Section EqualStatusScenario.
  #[local] Existing Instance HTTP11.http11.


End EqualStatusScenario.

Section SaveFailureScenario.
  #[local] Existing Instance HTTP11.http11.

  (** C10 fails in [main.go] when the write of the primary's artifact fails
      after [resp.Write] has read the body: [ServeHTTP] falls back to
      [resp1], whose body is used up and closed by then. The primary answers
      200 with the header [X-Backend: one] and the body "ok"; the caller
      receives the status and the header, and an empty body. *)
Lemma save_failure_loses_body :
    (λ σ', (rw_sent (caller σ'), rw_body (caller σ'), msg <$> log σ'))
      <$> world_of (DualClient.exchange
                      (server (answers 200 {[ "X-Backend" := ["one"] ]} "ok")
                              (answers 200 {[ "X-Backend" := ["one"] ]} "ok"))
                      post hello_disk_full)
    = Some (Some (200, {[ "X-Backend" := ["one"] ]}), "",
            ["save response1"; "writing response"]).
  Proof. vm_compute. reflexivity. Qed.
End SaveFailureScenario.

(** ** What a capture writes, and what a replay reads *)

(** The world after [os.Open] of [n], after [os.Create] of [n], and after
    [http.ReadRequest] has parsed [d]. *)
Definition opened (n : string) (σ : World) : World :=
  set_handles <[next σ := {| Name := n; fopen := true |}]> (set_next S σ).

Definition created (n : string) (σ : World) : World :=
  set_handles <[next σ := {| Name := n; fopen := true |}]>
    (set_files <[n := ""]> (set_next S σ)).

Definition parsed (d : ReqData.t) (σ : World) : World :=
  set_streams <[S (next σ) := {| remaining := ReqData.Body d;
                                 sclosed := false |}]>
    (set_next S (set_headers <[next σ := ReqData.Header d]> (set_next S σ))).

(** The request [http.ReadRequest] makes of [d], with its map at [l] and its
    body at [S l]. *)
Definition request_at (d : ReqData.t) (l : nat) : Request :=
  {| Req.Method := ReqData.Method d; Req.URL := ReqData.URL d;
     Req.RequestURI := ReqData.RequestURI d;
     Req.Header := l; Req.Body := libBody (S l) |}.

(** The replay both servers make of it: closing its body closes the file
    [fh] as well. *)
Definition replay_at (d : ReqData.t) (fh : nat) : Request :=
  {| Req.Method := ReqData.Method d; Req.URL := ReqData.URL d;
     Req.RequestURI := ReqData.RequestURI d;
     Req.Header := S fh;
     Req.Body := {| Reader := S (S fh);
                    Closer_ := {| closers := [CloserBody (S (S fh));
                                              CloserFile fh] |} |} |}.

Lemma os_Create_Ok n σ f σ' :
  os_Create n σ = Ok (f, None) σ' -> f = Some (next σ) /\ σ' = created n σ.
Proof. intros E. unfold os_Create, alloc in E. run_in E. done. Qed.

Lemma os_Open_Ok n σ f σ' :
  os_Open n σ = Ok (f, None) σ' ->
  f = Some (next σ) /\ is_Some (files σ !! n) /\ σ' = opened n σ.
Proof. intros E. unfold os_Open, alloc in E. run_in E. eauto. Qed.

Lemma os_Open_spec n σ content :
  open_fails (faults σ) n = None -> files σ !! n = Some content ->
  os_Open n σ = Ok (Some (next σ), None) (opened n σ).
Proof.
  intros Hf Hn. unfold os_Open, alloc, bind, gets, modify, ret.
  cbn. rewrite Hf, Hn. reflexivity.
Qed.

Lemma File_Write_Ok fh p σ σ' :
  File_Write fh p σ = Ok None σ' ->
  exists f, handles σ !! fh = Some f /\ fopen f = true
    /\ σ' = match files σ !! Name f with
            | Some cur => set_files <[Name f := cur +:+ p]> σ
            | None => σ
            end.
Proof.
  intros E. unfold File_Write in E. run_in E;
    (eexists; split; [reflexivity|]; split; [by destruct (fopen _)|]);
    match goal with
    | Hf : files _ !! _ = _ |- _ => by rewrite Hf
    end.
Qed.

Lemma File_Close_files fh σ e σ' : File_Close fh σ = Ok e σ' -> files σ' = files σ.
Proof. intros E. by destruct (keeps_same_files_File_Close fh _ _ _ E). Qed.

Lemma keeps_same_files_multiCloser_loop cs err :
  keeps same_files (multiCloser_loop cs err) any.
Proof.
  revert err. induction cs as [|c cs IH]; intros err; cbn [multiCloser_loop].
  - apply keeps_ret_any. tc_solve.
  - assert (Hc : keeps same_files (Closer_Close c) any).
    { destruct c; cbn [Closer_Close].
      - intros σ a σ' E. split; [|done]. unfold body_Close in E. run_in E.
        reflexivity.
      - apply keeps_same_files_File_Close. }
    eapply keeps_bind; try tc_solve; [exact Hc|intros; apply IH].
Qed.

Section Capture.
  Context `{NetHTTP}.

Lemma ReadRequest_Ok fh n σ req σ' :
    handles σ !! fh = Some {| Name := n; fopen := true |} ->
    ReadRequest fh σ = Ok (req, None) σ' ->
    exists d, wire_ReadRequest (default "" (files σ !! n)) = Some d
      /\ req = Some (request_at d (next σ)) /\ σ' = parsed d σ.
  Proof.
    intros Hf E.
    unfold ReadRequest, File_content, new_header, new_stream, alloc in E.
    unfold bind at 1, gets at 1 in E. unfold bind at 1 in E.
    rewrite Hf in E. run_in E. eauto.
  Qed.

Lemma ReadRequest_spec fh n σ content d :
    handles σ !! fh = Some {| Name := n; fopen := true |} ->
    files σ !! n = Some content -> wire_ReadRequest content = Some d ->
    ReadRequest fh σ = Ok (Some (request_at d (next σ)), None) (parsed d σ).
  Proof.
    intros Hf Hn Hd.
    unfold ReadRequest, File_content, new_header, new_stream, alloc,
      bind, gets, modify, ret.
    rewrite Hf. cbn. rewrite Hn. cbn. rewrite Hd. reflexivity.
  Qed.

Lemma read_all_Ok s σ b σ' :
    read_all s σ = Ok (b, None) σ' ->
    streams σ !! s = Some {| remaining := b; sclosed := false |}
    /\ σ' = set_streams
              (alter (λ _, {| remaining := ""; sclosed := false |}) s) σ.
  Proof.
    intros E. unfold read_all in E. run_in E.
    match goal with
    | Hs : streams _ !! _ = Some ?st |- _ => destruct st; cbn in *; subst
    end.
    done.
  Qed.

  (** [r.Write(fh)] without an error: the body was open, and its bytes are
      in the file, behind the request line and the headers. *)
Lemma Request_Write_Ok r fh n σ σ' :
    wf σ ->
    handles σ !! fh = Some {| Name := n; fopen := true |} ->
    Request_Write r fh σ = Ok None σ' ->
    exists B,
      streams σ !! Reader (Req.Body r)
      = Some {| remaining := B; sclosed := false |}
      /\ files σ'
         = match files σ !! n with
           | Some cur =>
               <[n := cur +:+ wire_Request
                        (request_data r (default ∅ (headers σ !! Req.Header r)) B)]>
                 (files σ)
           | None => files σ
           end.
  Proof.
    intros Hwf Hfh E. unfold Request_Write in E.
    apply bind_inv in E as (h & σ1 & E1 & E).
    unfold load_header, bind, gets, ret in E1. injection E1 as <- <-.
    apply bind_inv in E as ([b rerr] & σ2 & E2 & E).
    apply bind_inv in E as (cerr & σ3 & E3 & E).
    destruct rerr as [e|]; [by run_in E|].
    apply read_all_Ok in E2 as (Hs & ->). exists b. split; [exact Hs|].
    destruct (keeps_Body_Close frame _ _ _ _ E3) as [Hfr _].
    destruct (keeps_same_files_multiCloser_loop _ _ _ _ _ E3) as [Hsf _].
    apply File_Write_Ok in E as (f & Hf & Hopen & ->).
    assert (Hwf2 : wf (set_streams
                         (alter (λ _, {| remaining := ""; sclosed := false |})
                            (Reader (Req.Body r))) σ)).
    { by apply (fr_wf _ _ (frame_alter_streams _ _ σ)). }
    destruct (fr_handles _ _ Hfr fh _ Hwf2 Hfh) as (f' & Hf' & Hn).
    assert (f' = f) as -> by congruence. cbn in Hn. rewrite Hn.
    unfold same_files in Hsf. cbn in Hsf. rewrite Hsf.
    destruct (files σ !! n); cbn; by rewrite ?Hsf.
  Qed.

  (** [writeRequest] of [part_000] without an error. *)
Lemma writeRequest_Ok dest r σ σ' :
    wf σ ->
    DualProxy.writeRequest dest r σ = Ok None σ' ->
    exists B,
      streams σ !! Reader (Req.Body r)
      = Some {| remaining := B; sclosed := false |}
      /\ files σ'
         = <[dest := wire_Request
                       (request_data r (default ∅ (headers σ !! Req.Header r)) B)]>
             (files σ).
  Proof.
    intros Hwf E. unfold DualProxy.writeRequest in E.
    apply bind_inv in E as ([fh err] & σ1 & E1 & E).
    destruct err as [e|]; [by run_in E|].
    apply os_Create_Ok in E1 as (-> & ->).
    apply bind_inv in E as (err & σ2 & E2 & E).
    destruct err as [e|]; [by run_in E|].
    apply (Request_Write_Ok _ _ dest) in E2 as (B & Hs & Hfs).
    - exists B. split; [exact Hs|].
      apply File_Close_files in E. rewrite E, Hfs. cbn.
      rewrite lookup_insert_eq, insert_insert_eq. reflexivity.
    - by apply (fr_wf _ _ (frame_new_file _ _ σ)).
    - cbn. by rewrite lookup_insert_eq.
  Qed.
End Capture.

Section ProxyCapture.
  Context `{NetHTTP}.

  (** [saveRequestResponse] of [part_000] without an error, step by step:
      the request is written to [N.0]; [N.0] is opened and parsed, and [N.1]
      created; [N.0] is opened and parsed again, and [N.2] created. *)
Lemma saveRequestResponse_proxy_Ok ds ds1 r σ rs ws σ1 :
    wf σ ->
    DualProxy.saveRequestResponse ds r 2 σ = Ok (ds1, (rs, ws, None)) σ1 ->
    exists B d σa,
      streams σ !! Reader (Req.Body r)
      = Some {| remaining := B; sclosed := false |}
      /\ wire_ReadRequest
           (wire_Request
              (request_data r (default ∅ (headers σ !! Req.Header r)) B))
         = Some d
      /\ files σa
         = <[base_of ds +:+ ".0" :=
               wire_Request
                 (request_data r (default ∅ (headers σ !! Req.Header r)) B)]>
             (files σ)
      /\ rel_and frame quiet σ σa
      /\ rs = [Some (replay_at d (next σa));
               Some (replay_at d (4 + next σa))]
      /\ ws = [Some (file_writer (3 + next σa));
               Some (file_writer (7 + next σa))]
      /\ σ1 = created (base_of ds +:+ ".2")
                (parsed d
                   (opened (base_of ds +:+ ".0")
                      (created (base_of ds +:+ ".1")
                         (parsed d (opened (base_of ds +:+ ".0") σa))))).
  Proof.
    intros Hwf E. unfold DualProxy.saveRequestResponse, nextID in E.
    cbn iota beta in E. fold (base_of ds) in E.
    apply bind_inv in E as (err & σa & Ew & E).
    destruct err as [e|]; [by run_in E|].
    destruct (keeps_writeRequest (rel_and frame quiet) _ _ _ _ _ Ew) as [Hfq _].
    apply writeRequest_Ok in Ew as (B & Hs & Hfs); [|exact Hwf].
    exists B. apply bind_inv in E as ([[rs' ws'] err] & σ' & E & Er).
    unfold ret in Er. simplify_eq.
    cbn [replicate DualProxy.saveRequestResponse_loop] in E.
    (* first round *)
    apply bind_inv in E as ([fh err] & σb & Eo & E).
    destruct err as [e|]; [by run_in E|].
    apply os_Open_Ok in Eo as (-> & _ & ->).
    apply bind_inv in E as ([req err] & σc & Er & E).
    destruct err as [e|]; [by run_in E|].
    eapply ReadRequest_Ok in Er as (d & Hd & -> & ->);
      [|cbn; by rewrite lookup_insert_eq].
    cbn [opened set_handles set_next files] in Hd.
    rewrite Hfs, lookup_insert_eq in Hd. cbn [default] in Hd.
    exists d, σa. do 4 (split; [done|]).
    cbn iota beta in E.
    apply bind_inv in E as ([f0 err] & σd & Ec & E).
    destruct err as [e|]; [by run_in E|].
    apply os_Create_Ok in Ec as (-> & ->).
    (* second round *)
    apply bind_inv in E as ([fh err] & σe & Eo & E).
    destruct err as [e|]; [by run_in E|].
    apply os_Open_Ok in Eo as (-> & _ & ->).
    apply bind_inv in E as ([req err] & σf & Er & E).
    destruct err as [e|]; [by run_in E|].
    eapply ReadRequest_Ok in Er as (d' & Hd' & -> & ->);
      [|cbn; by rewrite lookup_insert_eq].
    cbn in Hd'. rewrite lookup_insert_ne, Hfs, lookup_insert_eq in Hd'
      by (intros Hne; symmetry in Hne; by apply artifact_names_differ in Hne).
    cbn [default] in Hd'. assert (d' = d) as -> by congruence.
    cbn iota beta in E.
    apply bind_inv in E as ([f1 err] & σg & Ec & E).
    destruct err as [e|]; [by run_in E|].
    apply os_Create_Ok in Ec as (-> & ->).
    unfold ret in E. simplify_eq.
    repeat split.
  Qed.
End ProxyCapture.

Section ClientCapture.
  Context `{NetHTTP}.

  (** [saveRequest] of [main.go] without an error. *)
Lemma saveRequest_Ok dest r σ rd σ' :
    wf σ ->
    DualClient.saveRequest dest r σ = Ok (rd, None) σ' ->
    exists B,
      streams σ !! Reader (Req.Body r)
      = Some {| remaining := B; sclosed := false |}
      /\ files σ'
         = <[dest := wire_Request
                       (request_data r (default ∅ (headers σ !! Req.Header r)) B)]>
             (files σ)
      /\ rd = Some (DualClient.readReq dest).
  Proof.
    intros Hwf E. unfold DualClient.saveRequest in E.
    apply bind_inv in E as ([fh err] & σ1 & E1 & E).
    destruct err as [e|]; [by run_in E|].
    apply os_Create_Ok in E1 as (-> & ->).
    assert (Hwf1 : wf (created dest σ)).
    { by apply (fr_wf _ _ (frame_new_file _ _ σ)). }
    assert (Hfh : handles (created dest σ) !! next σ
                  = Some {| Name := dest; fopen := true |}).
    { cbn. by rewrite lookup_insert_eq. }
    apply bind_inv in E as (err & σ2 & E2 & E).
    destruct err as [e|]; [by run_in E|].
    apply bind_inv in E as (err & σ3 & E3 & E).
    destruct err as [e|]; [by run_in E|].
    apply bind_inv in E as (nm & σ4 & E4 & E).
    destruct (keeps_Request_Write frame _ _ _ _ _ E2) as [Hf2 _].
    destruct (keeps_File_Close frame _ _ _ _ E3) as [Hf3 _].
    destruct (fr_handles _ _ (transitivity Hf2 Hf3) _ _ Hwf1 Hfh)
      as (f' & Hf' & Hn).
    rewrite (File_Name_eq _ _ _ Hf') in E4. cbn in Hn.
    injection E4 as <- <-. unfold ret in E. injection E as <- <-.
    apply (Request_Write_Ok _ _ dest) in E2 as (B & Hs & Hfs); [|done..].
    exists B. split; [exact Hs|]. split; [|by rewrite Hn].
    apply File_Close_files in E3. rewrite E3, Hfs. cbn.
    rewrite lookup_insert_eq, insert_insert_eq. reflexivity.
  Qed.

Lemma saveRequestResponse_Ok ds ds1 r σ rd sv σ1 :
    wf σ ->
    DualClient.saveRequestResponse ds r σ = Ok (ds1, (rd, sv, None)) σ1 ->
    exists B,
      streams σ !! Reader (Req.Body r)
      = Some {| remaining := B; sclosed := false |}
      /\ files σ1
         = <[base_of ds +:+ ".0" :=
               wire_Request
                 (request_data r (default ∅ (headers σ !! Req.Header r)) B)]>
             (files σ)
      /\ rd = Some (DualClient.readReq (base_of ds +:+ ".0"))
      /\ sv = Some (DualClient.saveResp (base_of ds)).
  Proof.
    intros Hwf E. unfold DualClient.saveRequestResponse, nextID in E.
    cbn iota beta in E. fold (base_of ds) in E.
    apply bind_inv in E as ([rd' err] & σa & Es & E).
    destruct err as [e|]; [by run_in E|].
    unfold ret in E. simplify_eq.
    apply saveRequest_Ok in Es as (B & Hs & Hfs & ->); [|exact Hwf].
    exists B. done.
  Qed.

  (** The closure [readReq] over a file that holds a request. *)
Lemma readReq_spec nm σ content d :
    open_fails (faults σ) nm = None ->
    files σ !! nm = Some content ->
    wire_ReadRequest content = Some d ->
    DualClient.readReq nm σ
    = Ok (Some (replay_at d (next σ)), None) (parsed d (opened nm σ)).
  Proof.
    intros Hf Hn Hd. unfold DualClient.readReq.
    rewrite (bind_Ok _ _ _ _ _ (os_Open_spec _ _ _ Hf Hn)). cbn iota beta.
    erewrite bind_Ok; [|eapply ReadRequest_spec; [|exact Hn|exact Hd]].
    - reflexivity.
    - cbn. by rewrite lookup_insert_eq.
  Qed.
End ClientCapture.

Lemma stream_rest_open σ s b :
  streams σ !! s = Some {| remaining := b; sclosed := false |} ->
  stream_rest σ s = b.
Proof. unfold stream_rest. by intros ->. Qed.

Section RoundTrip.
  Context `{NetHTTPLaws}.

  (** C3: the body of every replay is the body that was captured. With the
      inbound body holding the bytes [B] and the request one that the library
      reads back as it wrote it: in [main.go], after a capture without an
      error, the closure [readReq] run in any later world in which the
      artifact [N.0] is as the capture left it (and can be opened) returns a
      request whose body holds [B]; in [part_000], after a capture without an
      error, the bodies of [requests[0]] and [requests[1]] both hold [B]. *)
Theorem replay_body_is_captured_body (r : Request) (σ : World) :
    wf σ ->
    wellformed (request_data r (default ∅ (headers σ !! Req.Header r))
                  (stream_rest σ (Reader (Req.Body r)))) ->
    (forall (ds ds1 : dualServer DualClient.Client) rd sv σ1,
        DualClient.saveRequestResponse ds r σ
        = Ok (ds1, (Some rd, sv, None)) σ1 ->
        forall σ2,
          files σ2 !! (base_of ds +:+ ".0") = files σ1 !! (base_of ds +:+ ".0") ->
          open_fails (faults σ2) (base_of ds +:+ ".0") = None ->
          exists r' σ3,
            rd σ2 = Ok (Some r', None) σ3
            /\ stream_rest σ3 (Reader (Req.Body r'))
               = stream_rest σ (Reader (Req.Body r)))
    /\ (forall (ds ds1 : dualServer DualProxy.Handler) rs ws σ1,
        DualProxy.saveRequestResponse ds r 2 σ = Ok (ds1, (rs, ws, None)) σ1 ->
        exists r0 r1,
          rs = [Some r0; Some r1]
          /\ stream_rest σ1 (Reader (Req.Body r0))
             = stream_rest σ (Reader (Req.Body r))
          /\ stream_rest σ1 (Reader (Req.Body r1))
             = stream_rest σ (Reader (Req.Body r))).
  Proof.
    intros Hwf Hwell. split.
    - intros ds ds1 rd sv σ1 Hsave σ2 Hsame Hopen.
      apply saveRequestResponse_Ok in Hsave as (B & Hs & Hfs & Hrd & _);
        [|exact Hwf].
      rewrite (stream_rest_open _ _ _ Hs) in *.
      destruct (ReadRequest_Write _ Hwell) as (d & Hd & Hbody).
      injection Hrd as ->.
      rewrite Hfs, lookup_insert_eq in Hsame.
      eexists _, _. split; [by eapply readReq_spec|].
      cbn in Hbody. rewrite <- Hbody. apply stream_rest_open.
      cbn. by rewrite lookup_insert_eq.
    - intros ds ds1 rs ws σ1 Hsave.
      apply saveRequestResponse_proxy_Ok in Hsave
        as (B & d & σa & Hs & Hd & _ & _ & -> & _ & ->); [|exact Hwf].
      rewrite (stream_rest_open _ _ _ Hs) in *.
      destruct (ReadRequest_Write _ Hwell) as (d' & Hd' & Hbody).
      assert (d' = d) as -> by congruence. cbn in Hbody. rewrite <- Hbody.
      eexists _, _. split; [reflexivity|].
      split; apply stream_rest_open; cbn.
      + rewrite lookup_insert_ne by lia. by rewrite lookup_insert_eq.
      + by rewrite lookup_insert_eq.
  Qed.
End RoundTrip.

(** ** [HTTP11] reads back what it writes *)

(** The character [c] does not occur in [s]. *)
Fixpoint lacks (c : ascii) (s : string) : bool :=
  match s with
  | "" => true
  | String x s' => negb (Ascii.eqb x c) && lacks c s'
  end.

(** A header line that can be told from its neighbours: no colon in the key,
    no line end in the key or the value. *)
Definition wellformed_line (kv : string * string) : bool :=
  lacks ":" kv.1 && lacks HTTP11.CR kv.1 && lacks HTTP11.CR kv.2.

(** A request with a request line and header lines that can be told apart:
    no space or line end in the method or the URL. *)
Definition wellformed_request (d : ReqData.t) : bool :=
  lacks " " (ReqData.Method d) && lacks HTTP11.CR (ReqData.Method d)
  && lacks " " (ReqData.URL d) && lacks HTTP11.CR (ReqData.URL d)
  && forallb wellformed_line (HTTP11.header_lines (ReqData.Header d)).

Lemma lacks_app c a b : lacks c (a +:+ b) = lacks c a && lacks c b.
Proof.
  induction a as [|x a IH]; [done|]. rewrite app_cons. cbn [lacks].
  rewrite IH. by rewrite andb_assoc.
Qed.

Lemma read_line_app l rest :
  lacks HTTP11.CR l = true ->
  HTTP11.read_line (l +:+ CRLF +:+ rest) = Some (l, rest).
Proof.
  induction l as [|x l IH]; [done|]. cbn [lacks]. intros [Hx Hl]%andb_prop.
  rewrite app_cons. cbn [HTTP11.read_line].
  apply negb_true_iff in Hx. rewrite Hx, (IH Hl). reflexivity.
Qed.

Lemma split_at_app c a rest :
  lacks c a = true -> HTTP11.split_at c (a +:+ String c rest) = Some (a, rest).
Proof.
  induction a as [|x a IH]; cbn [lacks].
  - intros _. rewrite app_nil. cbn. by rewrite Ascii.eqb_refl.
  - intros [Hx Hl]%andb_prop. rewrite app_cons. cbn [HTTP11.split_at].
    apply negb_true_iff in Hx. rewrite Hx, (IH Hl). reflexivity.
Qed.

Lemma lacks_string_of_uint c d :
  lacks c "0123456789" = true ->
  lacks c (NilEmpty.string_of_uint d) = true.
Proof.
  intros Hc. cbn in Hc. repeat apply andb_prop in Hc as [? Hc].
  induction d as [|d IH|d IH|d IH|d IH|d IH|d IH|d IH|d IH|d IH|d IH];
    cbn; rewrite ?IH; by rewrite ?andb_true_r.
Qed.

Lemma lacks_decimal n : lacks HTTP11.CR (HTTP11.decimal n) = true.
Proof. by apply lacks_string_of_uint. Qed.

Lemma parse_decimal_decimal n :
  HTTP11.parse_decimal (HTTP11.decimal n) = Some n.
Proof.
  unfold HTTP11.parse_decimal, HTTP11.decimal.
  rewrite NilEmpty.usu. cbn. rewrite DecimalNat.Unsigned.of_to.
  assert (Hn : Nat.to_uint n <> Decimal.Nil).
  { rewrite <- (DecimalNat.Unsigned.of_to n), DecimalNat.Unsigned.to_of.
    apply DecimalFacts.unorm_nonnil. }
  by destruct (Nat.to_uint n).
Qed.

Lemma parse_header_line_app k v :
  lacks ":" k = true ->
  HTTP11.parse_header_line (k +:+ ": " +:+ v) = Some (k, v).
Proof.
  intros Hk. unfold HTTP11.parse_header_line.
  change (k +:+ ": " +:+ v) with (k +:+ String ":" (String " " v)).
  by rewrite (split_at_app _ _ _ Hk).
Qed.

Lemma header_line_app k v rest :
  HTTP11.header_line k v +:+ rest = (k +:+ ": " +:+ v) +:+ CRLF +:+ rest.
Proof. unfold HTTP11.header_line. by rewrite !app_assoc_string. Qed.

Lemma lacks_header_line k v :
  lacks HTTP11.CR k = true -> lacks HTTP11.CR v = true ->
  lacks HTTP11.CR (k +:+ ": " +:+ v) = true.
Proof. intros Hk Hv. by rewrite !lacks_app, Hk, Hv. Qed.

Lemma length_concat_lines kvs rest :
  (length kvs <= String.length (HTTP11.concat_lines kvs +:+ rest))%nat.
Proof.
  induction kvs as [|[k v] kvs IH]; cbn [HTTP11.concat_lines length]; [lia|].
  rewrite app_assoc_string, length_app_String. unfold HTTP11.header_line.
  rewrite !length_app_String. rewrite length_app_String in IH.
  cbn [String.length]. lia.
Qed.

Lemma read_headers_lines kvs : forall acc fuel b,
  forallb wellformed_line kvs = true ->
  (length kvs < fuel)%nat ->
  exists acc',
    HTTP11.read_headers fuel (HTTP11.concat_lines kvs +:+ CRLF +:+ b) acc
    = Some (acc', b).
Proof.
  induction kvs as [|[k v] kvs IH]; intros acc fuel b Hwf Hfuel;
    (destruct fuel as [|fuel]; [cbn in Hfuel; lia|]).
  - exists acc. reflexivity.
  - cbn [forallb] in Hwf. apply andb_prop in Hwf as [Hkv Hwf].
    unfold wellformed_line in Hkv. cbn [fst snd] in Hkv.
    apply andb_prop in Hkv as [[Hk1 Hk2]%andb_prop Hv].
    cbn [HTTP11.concat_lines HTTP11.read_headers].
    rewrite app_assoc_string, header_line_app.
    rewrite read_line_app by by apply lacks_header_line.
    rewrite (parse_header_line_app _ _ Hk1).
    destruct (IH (HTTP11.Header_Add acc (k, v)) fuel b Hwf) as [acc' E].
    { cbn in Hfuel. lia. }
    exists acc'. rewrite <- E. by destruct k.
Qed.

Lemma substring_all (b : string) : substring 0 (String.length b) b = b.
Proof. induction b as [|x b IH]; [done|]. cbn. by rewrite IH. Qed.

Lemma read_tail_tail_of h b :
  forallb wellformed_line (HTTP11.header_lines h) = true ->
  exists h', HTTP11.read_tail (HTTP11.tail_of h b) = Some (h', b).
Proof.
  intros Hwf. unfold HTTP11.read_tail, HTTP11.tail_of.
  rewrite header_line_app.
  rewrite read_line_app by (apply lacks_header_line; [done|apply lacks_decimal]).
  rewrite parse_header_line_app by done.
  rewrite parse_decimal_decimal.
  destruct (read_headers_lines (HTTP11.header_lines h) ∅
              (S (String.length
                    (HTTP11.concat_lines (HTTP11.header_lines h) +:+ CRLF +:+ b)))
              b Hwf) as [h' E].
  { pose proof (length_concat_lines (HTTP11.header_lines h) (CRLF +:+ b)). lia. }
  exists h'. cbn iota beta. rewrite E.
  rewrite Nat.ltb_irrefl. by rewrite substring_all.
Qed.

(** The requests [HTTP11] reads back. *)
Lemma read_request_write_request d :
  wellformed_request d = true ->
  exists d', HTTP11.read_request (HTTP11.write_request d) = Some d'
             /\ ReqData.Body d' = ReqData.Body d.
Proof.
  unfold wellformed_request.
  intros [[[[Hm1 Hm2]%andb_prop Hu1]%andb_prop Hu2]%andb_prop Hh]%andb_prop.
  destruct (read_tail_tail_of (ReqData.Header d) (ReqData.Body d) Hh)
    as [h' Ht].
  unfold HTTP11.read_request, HTTP11.write_request.
  assert (E : ReqData.Method d +:+ " " +:+ ReqData.URL d +:+ " HTTP/1.1"
              +:+ CRLF +:+ HTTP11.tail_of (ReqData.Header d) (ReqData.Body d)
              = (ReqData.Method d +:+ " " +:+ ReqData.URL d +:+ " HTTP/1.1")
                +:+ CRLF +:+ HTTP11.tail_of (ReqData.Header d) (ReqData.Body d)).
  { by rewrite !app_assoc_string. }
  rewrite E, read_line_app by (by rewrite !lacks_app, Hm2, Hu2).
  change (ReqData.Method d +:+ " " +:+ ReqData.URL d +:+ " HTTP/1.1")
    with (ReqData.Method d +:+ String " " (ReqData.URL d +:+ " HTTP/1.1")).
  rewrite (split_at_app _ _ _ Hm1).
  change (ReqData.URL d +:+ " HTTP/1.1")
    with (ReqData.URL d +:+ String " " "HTTP/1.1").
  rewrite (split_at_app _ _ _ Hu1). rewrite Ht. eauto.
Qed.

#[export] Instance http11_laws : @NetHTTPLaws HTTP11.http11 :=
  {| wellformed := λ d, wellformed_request d = true;
     ReadRequest_Write := read_request_write_request
                          : forall d, wellformed_request d = true ->
                              exists d', @wire_ReadRequest HTTP11.http11
                                           (@wire_Request HTTP11.http11 d)
                                         = Some d'
                                         /\ ReqData.Body d' = ReqData.Body d |}.

Section RoundTripScenario.
  #[local] Existing Instance HTTP11.http11.

Lemma replay_body_is_captured_body_witness :
    (exists ds1 rd sv σ1 r' σ3,
        DualClient.saveRequestResponse
          (server (answers 200 ∅ "ok") (answers 200 ∅ "ok")) post hello
        = Ok (ds1, (Some rd, sv, None)) σ1
        /\ rd σ1 = Ok (Some r', None) σ3
        /\ stream_rest σ3 (Reader (Req.Body r')) = "hello")
    /\ (exists ds1 r0 r1 ws σ1,
        DualProxy.saveRequestResponse
          (server (ReverseProxy (answers 200 ∅ "ok"))
                  (ReverseProxy (answers 200 ∅ "ok"))) post 2 hello
        = Ok (ds1, ([Some r0; Some r1], ws, None)) σ1
        /\ stream_rest σ1 (Reader (Req.Body r0)) = "hello"
        /\ stream_rest σ1 (Reader (Req.Body r1)) = "hello").
  Proof.
    assert (Hwell : wellformed_request
                      (request_data post {[ "Host" := ["example.org"] ]} "hello")
                    = true) by (vm_compute; reflexivity).
    destruct (@replay_body_is_captured_body HTTP11.http11 http11_laws
                post hello (wf_arrival _ _ _ _) Hwell) as [Hmain Hproxy].
    split.
    - assert (Herr : match DualClient.saveRequestResponse
                             (server (answers 200 ∅ "ok") (answers 200 ∅ "ok"))
                             post hello with
                     | Ok (_, (_, _, err)) _ => Some err
                     | Panic _ => None
                     end = Some None) by (vm_compute; reflexivity).
      destruct (DualClient.saveRequestResponse
                  (server (answers 200 ∅ "ok") (answers 200 ∅ "ok")) post hello)
        as [[ds1 [[rd sv] err]] σ1|] eqn:E; [|discriminate Herr].
      injection Herr as ->.
      destruct (keeps_saveRequestResponse frame _ _ _ _ _ E) as [Hfr _].
      destruct (saveRequestResponse_Ok _ _ _ _ _ _ _ (wf_arrival _ _ _ _) E)
        as (B & _ & _ & -> & _).
      destruct (Hmain _ _ _ _ _ E σ1 eq_refl) as (r' & σ3 & Hrd & Hb).
      { rewrite (fr_faults _ _ Hfr). reflexivity. }
      eexists ds1, _, sv, σ1, r', σ3. split; [reflexivity|].
      split; [exact Hrd|exact Hb].
    - destruct (DualProxy.saveRequestResponse
                  (server (ReverseProxy (answers 200 ∅ "ok"))
                          (ReverseProxy (answers 200 ∅ "ok"))) post 2 hello)
        as [[ds1 [[rs ws] [e|]]] σ1|] eqn:E;
        try (vm_compute in E; discriminate E).
      destruct (Hproxy _ _ _ _ _ E) as (r0 & r1 & -> & H0 & H1).
      exists ds1, r0, r1, ws, σ1. split; [reflexivity|].
      split; [exact H0|exact H1].
  Defined.
End RoundTripScenario.

(** ** The replays are independent of one another *)

Lemma Header_store_other l l' k vv σ σ' :
  l <> l' -> Header_store l k vv σ = Ok tt σ' ->
  headers σ' !! l' = headers σ !! l'.
Proof.
  intros Hl E. unfold Header_store, modify in E. injection E as <-.
  cbn. by rewrite lookup_alter_ne.
Qed.

Section Isolation.
  Context `{NetHTTP}.

Lemma readReq_Ok nm σ r σ' :
    DualClient.readReq nm σ = Ok (Some r, None) σ' ->
    exists d, r = replay_at d (next σ) /\ σ' = parsed d (opened nm σ).
  Proof.
    intros E. unfold DualClient.readReq in E.
    apply bind_inv in E as ([fh err] & σ1 & Eo & E).
    destruct err as [e|]; [by run_in E|].
    apply os_Open_Ok in Eo as (-> & _ & ->).
    apply bind_inv in E as ([req err] & σ2 & Er & E).
    destruct err as [e|]; [by run_in E|].
    eapply ReadRequest_Ok in Er as (d & _ & -> & ->);
      [|cbn; by rewrite lookup_insert_eq].
    unfold ret in E. cbn in E. injection E as <- <-. by exists d.
  Qed.

  (** C6: the replays of one exchange have header maps (and bodies) of their
      own. In [main.go], two requests that the closure [readReq] returns, the
      second one called in a world that follows the first call, hold their
      headers at different places, so that a store into the map of one leaves
      the map of the other as it is; in [part_000] the same holds of
      [requests[0]] and [requests[1]], whose maps are both there after the
      capture. *)
Theorem replays_are_independent (r : Request) (σ : World) :
    wf σ ->
    (forall (ds ds1 : dualServer DualClient.Client) rd sv σ1,
        DualClient.saveRequestResponse ds r σ
        = Ok (ds1, (Some rd, sv, None)) σ1 ->
        forall σ2 r1 σ3 σ4 r2 σ5,
          rd σ2 = Ok (Some r1, None) σ3 ->
          frame σ3 σ4 ->
          rd σ4 = Ok (Some r2, None) σ5 ->
          Req.Header r1 <> Req.Header r2
          /\ Reader (Req.Body r1) <> Reader (Req.Body r2)
          /\ (forall k vv σa σb,
                 Header_store (Req.Header r1) k vv σa = Ok tt σb ->
                 headers σb !! Req.Header r2 = headers σa !! Req.Header r2)
          /\ (forall k vv σa σb,
                 Header_store (Req.Header r2) k vv σa = Ok tt σb ->
                 headers σb !! Req.Header r1 = headers σa !! Req.Header r1))
    /\ (forall (ds ds1 : dualServer DualProxy.Handler) rs ws σ1,
        DualProxy.saveRequestResponse ds r 2 σ = Ok (ds1, (rs, ws, None)) σ1 ->
        exists r0 r1 h,
          rs = [Some r0; Some r1]
          /\ headers σ1 !! Req.Header r0 = Some h
          /\ headers σ1 !! Req.Header r1 = Some h
          /\ Req.Header r0 <> Req.Header r1
          /\ Reader (Req.Body r0) <> Reader (Req.Body r1)
          /\ (forall k vv σa σb,
                 Header_store (Req.Header r0) k vv σa = Ok tt σb ->
                 headers σb !! Req.Header r1 = headers σa !! Req.Header r1)
          /\ (forall k vv σa σb,
                 Header_store (Req.Header r1) k vv σa = Ok tt σb ->
                 headers σb !! Req.Header r0 = headers σa !! Req.Header r0)).
  Proof.
    intros Hwf. split.
    - intros ds ds1 rd sv σ1 Hsave σ2 r1 σ3 σ4 r2 σ5 H1 Hfr H2.
      apply saveRequestResponse_Ok in Hsave as (B & _ & _ & Hrd & _);
        [|exact Hwf].
      injection Hrd as ->.
      apply readReq_Ok in H1 as (d1 & -> & ->).
      apply readReq_Ok in H2 as (d2 & -> & ->).
      pose proof (fr_next _ _ Hfr) as Hn. cbn in Hn.
      assert (Hh : S (next σ2) <> S (next σ4)) by lia.
      cbn [replay_at Req.Header Req.Body Reader].
      split; [exact Hh|]. split; [lia|].
      split; intros k vv σa σb; by apply Header_store_other.
    - intros ds ds1 rs ws σ1 Hsave.
      apply saveRequestResponse_proxy_Ok in Hsave
        as (B & d & σa & _ & _ & _ & _ & -> & _ & ->); [|exact Hwf].
      eexists _, _, (ReqData.Header d). split; [reflexivity|].
      cbn [replay_at Req.Header Req.Body Reader].
      assert (Hh : S (next σa) <> S (4 + next σa)) by lia.
      split; [|split; [|split; [exact Hh|split; [lia|]]]].
      + cbn. rewrite lookup_insert_ne by lia. by rewrite lookup_insert_eq.
      + cbn. by rewrite lookup_insert_eq.
      + split; intros k vv σb σc; by apply Header_store_other.
  Qed.
End Isolation.

Section IsolationScenario.
  #[local] Existing Instance HTTP11.http11.

Lemma replays_are_independent_witness :
    (exists ds1 rd sv σ1 r1 σ3 r2 σ5,
        DualClient.saveRequestResponse
          (server (answers 200 ∅ "ok") (answers 200 ∅ "ok")) post hello
        = Ok (ds1, (Some rd, sv, None)) σ1
        /\ rd σ1 = Ok (Some r1, None) σ3
        /\ rd σ3 = Ok (Some r2, None) σ5
        /\ Req.Header r1 <> Req.Header r2)
    /\ (exists ds1 r0 r1 ws σ1,
        DualProxy.saveRequestResponse
          (server (ReverseProxy (answers 200 ∅ "ok"))
                  (ReverseProxy (answers 200 ∅ "ok"))) post 2 hello
        = Ok (ds1, ([Some r0; Some r1], ws, None)) σ1
        /\ Req.Header r0 <> Req.Header r1
        /\ forall σ2,
            Header_store (Req.Header r0) "X-Forwarded-For" ["10.0.0.1"] σ1
            = Ok tt σ2 ->
            headers σ2 !! Req.Header r1 = headers σ1 !! Req.Header r1).
  Proof.
    destruct (replays_are_independent post hello (wf_arrival _ _ _ _))
      as [Hmain Hproxy].
    split.
    - assert (Herr : match DualClient.saveRequestResponse
                             (server (answers 200 ∅ "ok") (answers 200 ∅ "ok"))
                             post hello with
                     | Ok (_, (_, _, err)) _ => Some err
                     | Panic _ => None
                     end = Some None) by (vm_compute; reflexivity).
      destruct (DualClient.saveRequestResponse
                  (server (answers 200 ∅ "ok") (answers 200 ∅ "ok")) post hello)
        as [[ds1 [[rd sv] err]] σ1|] eqn:E; [|discriminate Herr].
      injection Herr as ->.
      destruct (keeps_saveRequestResponse frame _ _ _ _ _ E) as [Hfr _].
      destruct (saveRequestResponse_Ok _ _ _ _ _ _ _ (wf_arrival _ _ _ _) E)
        as (B & HB & Hfs & -> & _).
      assert (B = "hello") as -> by (vm_compute in HB; congruence).
      destruct (read_request_write_request
                  (request_data post {[ "Host" := ["example.org"] ]} "hello"))
        as (d & Hd & _); [vm_compute; reflexivity|].
      assert (H1 : DualClient.readReq "reqlog/000000001.0" σ1
                   = Ok (Some (replay_at d (next σ1)), None)
                        (parsed d (opened "reqlog/000000001.0" σ1))).
      { eapply readReq_spec; [|by rewrite Hfs; apply lookup_insert_eq|exact Hd].
        rewrite (fr_faults _ _ Hfr). reflexivity. }
      assert (H2 : DualClient.readReq "reqlog/000000001.0"
                     (parsed d (opened "reqlog/000000001.0" σ1))
                   = Ok (Some (replay_at d
                                 (next (parsed d
                                          (opened "reqlog/000000001.0" σ1)))),
                         None)
                        (parsed d (opened "reqlog/000000001.0"
                                     (parsed d
                                        (opened "reqlog/000000001.0" σ1))))).
      { eapply readReq_spec; [|by cbn; rewrite Hfs; apply lookup_insert_eq
                              |exact Hd].
        cbn. rewrite (fr_faults _ _ Hfr). reflexivity. }
      destruct (Hmain _ _ _ _ _ E _ _ _ _ _ _ H1 (reflexivity _) H2)
        as (Hne & _).
      eexists ds1, _, sv, σ1, _, _, _, _. split; [reflexivity|].
      split; [exact H1|]. split; [exact H2|exact Hne].
    - destruct (DualProxy.saveRequestResponse
                  (server (ReverseProxy (answers 200 ∅ "ok"))
                          (ReverseProxy (answers 200 ∅ "ok"))) post 2 hello)
        as [[ds1 [[rs ws] [e|]]] σ1|] eqn:E;
        try (vm_compute in E; discriminate E).
      destruct (Hproxy _ _ _ _ _ E)
        as (r0 & r1 & h & -> & _ & _ & Hne & _ & H01 & _).
      exists ds1, r0, r1, ws, σ1. split; [reflexivity|].
      split; [exact Hne|]. intros σ2. apply H01.
  Defined.
End IsolationScenario.

(** ** The names of the artifacts *)

Lemma length_zeros n : String.length (zeros n) = n.
Proof. induction n as [|n IH]; cbn; by rewrite ?IH. Qed.

Lemma length_pretty_N_go_ge (x : N) s :
  (String.length s <= String.length (pretty_N_go x s))%nat.
Proof.
  revert s. induction (N.lt_wf_0 x) as [x _ IH]; intros s.
  assert (x = 0 ∨ 0 < x)%N as [->|Hx] by lia.
  - by rewrite pretty_N_go_0.
  - rewrite pretty_N_go_step by done.
    etrans; [|apply IH; by apply N.div_lt]. cbn. lia.
Qed.

Lemma length_pretty_N_go_le (k : nat) : forall (x : N) s,
  (x < 10 ^ N.of_nat k)%N ->
  (String.length (pretty_N_go x s) <= k + String.length s)%nat.
Proof.
  induction k as [|k IH]; intros x s Hx.
  - assert (x = 0%N) as -> by (cbn in Hx; lia). by rewrite pretty_N_go_0.
  - assert (x = 0 ∨ 0 < x)%N as [->|Hpos] by lia.
    { rewrite pretty_N_go_0. lia. }
    rewrite pretty_N_go_step by done.
    etrans; [apply IH|cbn; lia].
    rewrite Nat2N.inj_succ, N.pow_succ_r' in Hx.
    apply N.Div0.div_lt_upper_bound. lia.
Qed.

Lemma length_pretty_N_go_gt (k : nat) : forall (x : N) s,
  (10 ^ N.of_nat k <= x)%N ->
  (k + 1 + String.length s <= String.length (pretty_N_go x s))%nat.
Proof.
  induction k as [|k IH]; intros x s Hx.
  - rewrite pretty_N_go_step by (cbn in Hx; lia).
    etrans; [|apply length_pretty_N_go_ge]. cbn. lia.
  - rewrite Nat2N.inj_succ, N.pow_succ_r' in Hx.
    assert (0 < 10 ^ N.of_nat k)%N by (apply N.neq_0_lt_0, N.pow_nonzero; lia).
    rewrite pretty_N_go_step by lia.
    etrans; [|apply IH]; [cbn; lia|].
    apply N.div_le_lower_bound; lia.
Qed.

(** [%09d] gives nine digits up to 999999999 and ten from there on. *)
Lemma length_Sprintf_09d (id : Z) :
  0 <= id < 2 ^ 32 ->
  String.length (Sprintf_09d id)
  = if id <? 10 ^ 9 then 9%nat else 10%nat.
Proof.
  intros Hid. unfold Sprintf_09d. cbn zeta.
  rewrite length_app_String, length_zeros.
  unfold pretty, pretty_N. case_decide as H0.
  { cbn [String.length]. destruct (Z.ltb_spec id (10 ^ 9)); lia. }
  destruct (Z.ltb_spec id (10 ^ 9)) as [Hlt|Hge].
  - pose proof (length_pretty_N_go_le 9 (Z.to_N id) "") as Hle.
    cbn [String.length] in Hle.
    assert (Z.to_N id < 10 ^ N.of_nat 9)%N by (cbn; lia). lia.
  - pose proof (length_pretty_N_go_le 10 (Z.to_N id) "") as Hle.
    pose proof (length_pretty_N_go_gt 9 (Z.to_N id) "") as Hgt.
    cbn [String.length] in Hle, Hgt.
    assert (Z.to_N id < 10 ^ N.of_nat 10)%N by (cbn; lia).
    assert (10 ^ N.of_nat 9 <= Z.to_N id)%N by (cbn; lia). lia.
Qed.

Section Names.
  Context `{NetHTTP}.

  (** [saveResp] of [main.go] without an error has made the file of the slot
      it was asked for. *)
Lemma saveResp_Ok base resp n res σ σ' :
    DualClient.saveResp base resp n σ = Ok (res, None) σ' ->
    0 < n /\ is_Some (files σ' !! (base +:+ "." +:+ pretty n)).
  Proof.
    unfold DualClient.saveResp. destruct (Z.leb_spec n 0) as [Hn|Hn]; [done|].
    intros E. split; [lia|].
    unfold DualClient.saveResponse in E.
    apply bind_inv in E as ([fh err] & σ1 & Ec & E).
    destruct err as [e|]; [by run_in E|].
    apply os_Create_Ok in Ec as (-> & ->).
    enough (Hst : files_stay (created (base +:+ Sprintf_dot_d n) σ) σ').
    { apply Hst. cbn. rewrite lookup_insert_eq. eauto. }
    cbn iota beta in E.
    apply bind_inv in E as (err & σ2 & E2 & E).
    destruct (keeps_Response_Write files_stay _ _ _ _ _ E2) as [H2 _].
    destruct err as [e|]; [by run_in E|].
    apply bind_inv in E as (err & σ3 & E3 & E).
    destruct (keeps_File_Seek files_stay _ _ _ _ E3) as [H3 _].
    destruct err as [e|]; [by run_in E|].
    apply bind_inv in E as ([resp' err] & σ4 & E4 & E).
    destruct (keeps_ReadResponse files_stay _ _ _ _ E4) as [H4 _].
    destruct err as [e|]; [by run_in E|].
    destruct resp' as [resp'|]; [|by run_in E].
    unfold ret in E. injection E as _ <-.
    etrans; [exact H2|]. etrans; [exact H3|exact H4].
  Qed.

End Names.

Section NamesScenario.
  #[local] Existing Instance HTTP11.http11.

End NamesScenario.

(** * More about the code *)

(** ** No exchange panics *)

Section NeverPanics.
  Context `{NetHTTP}.

End NeverPanics.

Section NeverPanicsScenario.
  #[local] Existing Instance HTTP11.http11.

End NeverPanicsScenario.

(** ** A mismatch in [part_000] *)

Section Mismatch.
  Context `{NetHTTP}.

  (** When the two handlers of [part_000] end with different statuses, the
      goroutine logs "CODE mismatch" with the status of the primary as
      [wanted] and that of the secondary as [got], as the last entry of the
      exchange, and removes nothing: the artifacts [N.0], [N.1] and [N.2] are
      there afterwards. *)
Theorem status_mismatch_is_logged (r : Request) (σ : World)
      (ds ds1 : dualServer DualProxy.Handler) rs ws σ1 :
    wf σ ->
    DualProxy.saveRequestResponse ds r 2 σ = Ok (ds1, (rs, ws, None)) σ1 ->
    exists σ' d0 d1,
      DualProxy.exchange ds r σ = Ok ds1 σ'
      /\ calls σ' = calls σ ++ [(Primary, d0); (Secondary, d1)]
      /\ (final_status (secondary ds d1) 0 <> final_status (primary ds d0) 0 ->
          (exists es, log σ'
             = log σ ++ es ++ [CODE_mismatch (final_status (primary ds d0) 0)
                                 (final_status (secondary ds d1) 0)])
          /\ is_Some (files σ' !! (base_of ds +:+ ".0"))
          /\ is_Some (files σ' !! (base_of ds +:+ ".1"))
          /\ is_Some (files σ' !! (base_of ds +:+ ".2"))).
  Proof.
    intros Hwf Hsave.
    assert (Hthere : is_Some (files σ1 !! (base_of ds +:+ ".0"))
                     /\ is_Some (files σ1 !! (base_of ds +:+ ".1"))
                     /\ is_Some (files σ1 !! (base_of ds +:+ ".2"))).
    { pose proof Hsave as Hcap.
      apply saveRequestResponse_proxy_Ok in Hcap
        as (B & d & σa & _ & _ & Hfs & _ & _ & _ & ->); [|exact Hwf].
      destruct (artifact_names_differ (base_of ds)) as (H01 & H02 & H12).
      cbn. repeat split.
      - rewrite !lookup_insert_ne by done. rewrite Hfs, lookup_insert_eq. eauto.
      - rewrite lookup_insert_ne by done. rewrite lookup_insert_eq. eauto.
      - rewrite lookup_insert_eq. eauto. }
    pose proof (wp_inv _ _ _ _ _
                  (wp_saveRequestResponse_proxy ds r σ σ ltac:(reflexivity))
                  Hsave) as (-> & [Hf1 Hq1] & Hshape).
    destruct Hshape as (r0 & r1 & f0 & f1 & -> & -> & Hh1).
    assert (Hwf1 : wf σ1) by (by apply (fr_wf _ _ Hf1)).
    destruct Hq1 as (Hcaller1 & Hcalls1 & Hlog1).
    cut (wp (DualProxy.exchange ds r) σ (λ ds' σ',
           ds' = snd (nextID ds)
           /\ exists d0 d1,
             calls σ' = calls σ ++ [(Primary, d0); (Secondary, d1)]
             /\ (final_status (secondary ds d1) 0
                 <> final_status (primary ds d0) 0 ->
                 (exists es, log σ'
                    = log σ ++ es
                      ++ [CODE_mismatch (final_status (primary ds d0) 0)
                            (final_status (secondary ds d1) 0)])
                 /\ files_stay σ1 σ'))).
    { intros Hwp. destruct (wp_elim _ _ _ Hwp)
        as (ds' & σ' & E & -> & d0 & d1 & Hcalls & Hmis).
      exists σ', d0, d1. split; [exact E|]. split; [exact Hcalls|].
      intros Hne. destruct (Hmis Hne) as [Hl Hstay]. split; [exact Hl|].
      destruct Hthere as (? & ? & ?). repeat split; by apply Hstay. }
    clear Hthere.
    unfold DualProxy.exchange at 1, DualProxy.ServeHTTP at 1.
    apply wp_bind, wp_bind. eapply wp_intro; [exact Hsave|].
    cbn [lookup list_lookup file_writer DualProxy.RW.WriteCloser
         DualProxy.RW.h DualProxy.RW.status].
    apply wp_bind. unfold Log at 1. apply wp_modify.
    set (σ2 := set_log _ σ1).
    apply wp_bind. eapply wp_mono.
    { apply (wp_keeps files_stay);
        [apply keeps_Handler_ServeHTTP; tc_solve
        |by apply wp_Handler_ServeHTTP]. }
    intros rw0' σ3 (([Hf3 Hc3] & d0 & [[Hw0 Hw0'] Hst0] & Hcalls3) & S3 & _).
    cbn [DualProxy.RW.status] in Hst0.
    assert (R : rel_and (rel_and (rel_and frame calm) same_calls) files_stay
                  σ3 σ3) by reflexivity.
    wp_call R. intros _ σ4 (_ & _ & [[[Hf4 Hc4] Hs4] S4]).
    apply wp_ret. unfold DualProxy.secondary_goroutine.
    cbn [file_writer DualProxy.RW.WriteCloser].
    apply wp_bind, wp_bind.
    eapply wp_mono.
    { apply (wp_keeps files_stay);
        [apply keeps_Handler_ServeHTTP; tc_solve
        |by apply wp_Handler_ServeHTTP]. }
    intros w' σ5 (([Hf5 Hc5] & d1 & [[Hw1 Hw1'] Hst1] & Hcalls5) & S5 & _).
    cbn [DualProxy.RW.status DualProxy.RW.WriteCloser file_writer] in *.
    assert (Hcalls : calls σ5 = calls σ ++ [(Primary, d0); (Secondary, d1)]).
    { rewrite Hcalls5, Hs4, Hcalls3. cbn. rewrite Hcalls1.
      by rewrite <- app_assoc. }
    assert (Hf15 : frame σ1 σ5).
    { etrans; [|exact Hf5]. etrans; [|exact Hf4]. etrans; [|exact Hf3].
      apply frame_set_log. }
    assert (Hlog5 : calm σ σ5).
    { etrans; [apply calm_same_log; exact Hlog1|].
      etrans; [|exact Hc5]. etrans; [|exact Hc4]. etrans; [|exact Hc3].
      eexists. split; [reflexivity|]. apply Forall_singleton.
      split; discriminate. }
    assert (Hstay5 : files_stay σ1 σ5).
    { etrans; [|exact S5]. etrans; [|exact S4]. etrans; [|exact S3].
      by intros p Hp. }
    destruct (fr_handles _ _ Hf15 _ _ Hwf1 Hh1) as (x & Hx & Hname).
    cbn in Hname.
    apply wp_bind.
    rewrite Hst1, Hst0, Hw1. cbn [primary secondary nextID snd].
    case_bool_decide as Hsc.
    - (* the statuses differ *)
      unfold Log at 1. apply wp_modify.
      assert (R6 : rel_and (rel_and frame quiet) files_stay
                     (set_log (λ es, es ++ [CODE_mismatch
                        (final_status (primary ds d0) 0)
                        (final_status (secondary ds d1) 0)]) σ5)
                     (set_log (λ es, es ++ [CODE_mismatch
                        (final_status (primary ds d0) 0)
                        (final_status (secondary ds d1) 0)]) σ5))
        by reflexivity.
      eapply wp_mono.
      { eapply (wp_from _ _ _ _ _ _ R6);
          [solve [eauto 3 with runs nocore]|solve [eauto 3 with keeps nocore]]. }
      intros _ σ7 (_ & _ & [[Hf7 (_ & Hs7 & Hl7)] S7]). apply wp_ret.
      split; [done|]. exists d0, d1. split; [by rewrite Hs7|].
      intros _. split.
      + destruct Hlog5 as (es & Hes & _).
        exists es. rewrite Hl7. cbn. rewrite Hes. by rewrite <- app_assoc.
      + etrans; [exact Hstay5|]. etrans; [|exact S7]. by intros p Hp.
    - (* the statuses are equal *)
      apply wp_bind. eapply wp_intro; [by apply File_Name_eq|].
      rewrite Hname. case_bool_decide as Hlen.
      { rewrite length_app_String in Hlen. cbn in Hlen. lia. }
      cbn [forM_].
      apply wp_bind, wp_bind. eapply wp_mono; [apply wp_os_Remove|].
      intros _ σ6 (_ & [_ Hs6]). apply wp_ret.
      apply wp_bind, wp_bind. eapply wp_mono; [apply wp_os_Remove|].
      intros _ σ7 (_ & [_ Hs7]). apply wp_ret.
      apply wp_bind, wp_bind. eapply wp_mono; [apply wp_os_Remove|].
      intros _ σ8 (_ & [_ Hs8]). apply wp_ret, wp_ret.
      eapply wp_mono.
      { eapply (wp_from _ _ _ _ _ _ Hs8);
          [solve [eauto 3 with runs nocore]|solve [eauto 3 with keeps nocore]]. }
      intros _ σ9 (_ & _ & Hs9). apply wp_ret.
      split; [done|]. exists d0, d1. unfold same_calls in *.
      split; [congruence|]. intros Hne. by destruct Hsc.
  Qed.
End Mismatch.

Section MismatchScenario.
  #[local] Existing Instance HTTP11.http11.

Lemma status_mismatch_is_logged_witness :
    exists ds' σ' es,
      DualProxy.exchange
        (server (ReverseProxy (answers 200 ∅ "ok"))
                (ReverseProxy (answers 404 ∅ "gone"))) post hello
      = Ok ds' σ'
      /\ log σ' = es ++ [CODE_mismatch 200 404]
      /\ is_Some (files σ' !! "reqlog/000000001.0")
      /\ is_Some (files σ' !! "reqlog/000000001.1")
      /\ is_Some (files σ' !! "reqlog/000000001.2").
  Proof.
    destruct (DualProxy.saveRequestResponse
                (server (ReverseProxy (answers 200 ∅ "ok"))
                        (ReverseProxy (answers 404 ∅ "gone"))) post 2 hello)
      as [[ds1 [[rs ws] [e|]]] σ1|] eqn:E;
      try (vm_compute in E; discriminate E).
    destruct (status_mismatch_is_logged post hello _ _ _ _ _
                (wf_arrival _ _ _ _) E) as (σ' & d0 & d1 & Hex & _ & Hmis).
    destruct Hmis as ((es & Hlog) & H0 & H1 & H2).
    { vm_compute. discriminate. }
    exists ds1, σ', es. split; [exact Hex|]. split; [exact Hlog|].
    split; [exact H0|]. split; [exact H1|exact H2].
  Defined.
End MismatchScenario.

(** ** The goroutine and the caller *)

(** The caller's writer is as it was: what was sent, and the bytes of the
    body. *)
Definition same_caller (σ σ' : World) : Prop := caller σ' = caller σ.

#[export] Instance same_caller_preorder : PreOrder same_caller.
Proof.
  split; [done|]. intros σ1 σ2 σ3 ? ?. unfold same_caller in *. congruence.
Qed.

#[export] Instance same_caller_storage : Storage same_caller.
Proof.
  split; [tc_solve|..]; try (intros; reflexivity);
    intros ?; prim_keeps; reflexivity.
Qed.

Lemma keeps_same_caller_Log l m c : keeps same_caller (Log l m c) any.
Proof. prim_keeps. reflexivity. Qed.

Lemma keeps_same_caller_os_Remove n : keeps same_caller (os_Remove n) any.
Proof.
  intros σ a σ' E. split; [|done]. unfold os_Remove in E. run_in E; reflexivity.
Qed.

Lemma keeps_same_caller_Header_store l k vv :
  keeps same_caller (Header_store l k vv) any.
Proof.
  intros σ a σ' E. split; [|done]. unfold Header_store in E. run_in E.
  reflexivity.
Qed.

Section Aside.
  Context `{NetHTTP}.

  #[local] Hint Resolve keeps_same_caller_Log keeps_same_caller_os_Remove
    keeps_same_caller_Header_store : keeps.

  (** [main.go] *)
Lemma keeps_same_caller_Client_Do which c r :
    keeps same_caller (DualClient.Client_Do which c r) any.
  Proof.
    unfold DualClient.Client_Do.
    eapply keeps_bind; try tc_solve; [apply keeps_load_header; tc_solve|].
    intros h _.
    eapply keeps_bind; try tc_solve; [apply keeps_read_all; tc_solve|].
    intros [b rerr] _.
    eapply keeps_bind; try tc_solve; [apply keeps_Body_Close; tc_solve|].
    intros _ _. eapply keeps_bind; try tc_solve.
    { apply keeps_modify; try tc_solve. intros σ. reflexivity. }
    intros _ _. keeps_auto.
  Qed.
  #[local] Hint Resolve keeps_same_caller_Client_Do : keeps.

Lemma keeps_same_caller_goroutine ds nm base sc :
    keeps same_caller
      (DualClient.secondary_goroutine ds (DualClient.readReq nm)
         (DualClient.saveResp base) sc) any.
  Proof. unfold DualClient.secondary_goroutine. keeps_auto. Qed.

  (** [part_000]: a writer that is not the caller's. *)
Definition aside (rw : DualProxy.respWriter) : Prop :=
    DualProxy.RW.w rw = false.

Lemma keeps_same_caller_Header_ rw :
    aside rw ->
    keeps same_caller (DualProxy.Header_ rw) (λ '(rw', _), aside rw').
  Proof.
    unfold aside, DualProxy.Header_. intros Hrw. rewrite Hrw.
    destruct (DualProxy.RW.h rw); keeps_auto; done.
  Qed.

Lemma keeps_same_caller_WriteHeader rw status :
    aside rw ->
    keeps same_caller (DualProxy.WriteHeader rw status) aside.
  Proof.
    intros Hrw. unfold DualProxy.WriteHeader, aside in *.
    cbn [DualProxy.RW.w DualProxy.RW.WriteCloser]. rewrite Hrw.
    eapply keeps_bind; try tc_solve; [apply keeps_ret_any; tc_solve|].
    intros _ _.
    eapply keeps_bind; try tc_solve;
      [apply keeps_WriteCloser_Write; tc_solve|].
    intros _ _.
    eapply keeps_bind; try tc_solve.
    { apply keeps_same_caller_Header_. reflexivity. }
    intros [rw' l] Hrw'.
    eapply keeps_bind; try tc_solve; [apply keeps_load_header; tc_solve|].
    intros hm _.
    eapply keeps_bind; try tc_solve.
    { apply keeps_forM_; try tc_solve. intros [k vv].
      apply keeps_forM_; try tc_solve. intros v.
      apply keeps_WriteCloser_Write; tc_solve. }
    intros _ _.
    eapply keeps_bind; try tc_solve;
      [apply keeps_WriteCloser_Write; tc_solve|].
    intros _ _. by apply keeps_ret; try tc_solve.
  Qed.

Lemma keeps_same_caller_Write rw p :
    aside rw -> keeps same_caller (DualProxy.Write rw p) any.
  Proof.
    intros Hrw. unfold DualProxy.Write.
    eapply keeps_bind; try tc_solve.
    { destruct (DualProxy.RW.status rw =? 0).
      - by apply keeps_same_caller_WriteHeader.
      - by apply keeps_ret; try tc_solve. }
    intros rw' Hrw'. unfold aside in Hrw'. rewrite Hrw'.
    apply keeps_WriteCloser_Write; tc_solve.
  Qed.

Lemma keeps_same_caller_apply_op rw op :
    aside rw -> keeps same_caller (DualProxy.apply_op rw op) aside.
  Proof.
    intros Hrw. destruct op as [k vv|status|p]; cbn [DualProxy.apply_op].
    - eapply keeps_bind; try tc_solve;
        [by apply keeps_same_caller_Header_|].
      intros [rw' l] Hrw'.
      eapply keeps_bind; try tc_solve;
        [apply keeps_same_caller_Header_store|].
      intros _ _. by apply keeps_ret; try tc_solve.
    - by apply keeps_same_caller_WriteHeader.
    - eapply keeps_bind; try tc_solve; [by apply keeps_same_caller_Write|].
      intros _ _. by apply keeps_ret; try tc_solve.
  Qed.

Lemma keeps_same_caller_apply_ops ops : forall rw,
    aside rw -> keeps same_caller (DualProxy.apply_ops rw ops) aside.
  Proof.
    induction ops as [|op ops IH]; intros rw Hrw; cbn [DualProxy.apply_ops].
    - by apply keeps_ret; try tc_solve.
    - eapply keeps_bind; try tc_solve;
        [by apply keeps_same_caller_apply_op|].
      intros rw' Hrw'. by apply IH.
  Qed.

Lemma keeps_same_caller_Handler_ServeHTTP which hd rw r :
    aside rw ->
    keeps same_caller (DualProxy.Handler_ServeHTTP which hd rw r) aside.
  Proof.
    intros Hrw. unfold DualProxy.Handler_ServeHTTP.
    eapply keeps_bind; try tc_solve; [apply keeps_load_header; tc_solve|].
    intros h _.
    eapply keeps_bind; try tc_solve; [apply keeps_read_all; tc_solve|].
    intros [b rerr] _.
    eapply keeps_bind; try tc_solve; [apply keeps_Body_Close; tc_solve|].
    intros _ _. eapply keeps_bind; try tc_solve.
    { apply keeps_modify; try tc_solve. intros σ. reflexivity. }
    intros _ _. by apply keeps_same_caller_apply_ops.
  Qed.

Lemma keeps_same_caller_goroutine_proxy ds f r sc :
    keeps same_caller
      (DualProxy.secondary_goroutine ds (file_writer f) r sc) any.
  Proof.
    unfold DualProxy.secondary_goroutine.
    eapply keeps_bind; try tc_solve;
      [by apply keeps_same_caller_Handler_ServeHTTP|].
    intros rw' _.
    eapply keeps_bind; try tc_solve;
      [|intros; apply keeps_WriteCloser_Close; tc_solve].
    keeps_auto.
  Qed.

  (** What the caller has received when [ServeHTTP] returns is all it
      receives: the goroutine [ServeHTTP] has started, which serves the
      secondary backend, leaves the caller's writer as it is (status, headers
      sent and body), in [main.go] and in [part_000]. *)
Theorem goroutine_leaves_the_caller_alone (r : Request) (σ : World) :
    (forall (ds ds' : dualServer DualClient.Client) g σh σ',
        DualClient.ServeHTTP ds r σ = Ok (ds', Some g) σh ->
        g σh = Ok tt σ' ->
        caller σ' = caller σh)
    /\ (forall (ds ds' : dualServer DualProxy.Handler) g σh σ',
        DualProxy.ServeHTTP ds r σ = Ok (ds', Some g) σh ->
        g σh = Ok tt σ' ->
        caller σ' = caller σh).
  Proof.
    split.
    - intros ds ds' g σh σ' Hserve Hg.
      destruct (runs_inv _ _ _ _ _ (runs_ServeHTTP ds r) Hserve)
        as (_ & nm & base & sc & -> & _).
      by destruct (keeps_same_caller_goroutine _ _ _ _ _ _ _ Hg).
    - intros ds ds' g σh σ' Hserve Hg.
      destruct (runs_inv _ _ _ _ _ (runs_ServeHTTP_proxy ds r) Hserve)
        as (_ & f1 & r1 & d & ->).
      by destruct (keeps_same_caller_goroutine_proxy _ _ _ _ _ _ _ Hg).
  Qed.
End Aside.

Section AsideScenario.
  #[local] Existing Instance HTTP11.http11.

Lemma goroutine_leaves_the_caller_alone_witness :
    exists ds' g σh σ',
      DualProxy.ServeHTTP
        (server (ReverseProxy (answers 200 ∅ "ok"))
                (ReverseProxy (answers 404 ∅ "gone"))) post hello
      = Ok (ds', Some g) σh
      /\ g σh = Ok tt σ'
      /\ received σ' = received σh
      /\ received σh = (Some (200, ∅), "ok").
  Proof.
    destruct (goroutine_leaves_the_caller_alone post hello) as [_ Hproxy].
    assert (Hobs : match DualProxy.ServeHTTP
                           (server (ReverseProxy (answers 200 ∅ "ok"))
                                   (ReverseProxy (answers 404 ∅ "gone")))
                           post hello with
                   | Ok (_, Some _) σh => Some (received σh)
                   | _ => None
                   end = Some (Some (200, ∅), "ok"))
      by (vm_compute; reflexivity).
    destruct (runs_ServeHTTP_proxy
                (server (ReverseProxy (answers 200 ∅ "ok"))
                        (ReverseProxy (answers 404 ∅ "gone"))) post hello)
      as ([ds' [g|]] & σh & Hserve & Hst); rewrite Hserve in Hobs;
      [|discriminate Hobs].
    injection Hobs as Hs Hb.
    edestruct (proxy_exchange
                (server (ReverseProxy (answers 200 ∅ "ok"))
                        (ReverseProxy (answers 404 ∅ "gone"))) post hello)
      as (σ' & _ & _ & Hex & _);
      [apply wf_arrival|vm_compute; reflexivity|].
    unfold DualProxy.exchange in Hex.
    rewrite (bind_Ok _ _ _ _ _ Hserve) in Hex.
    apply bind_inv in Hex as ([] & σ'' & Hg & Hret).
    exists ds', g, σh, σ''. split; [exact Hserve|]. split; [exact Hg|].
    unfold received. rewrite (Hproxy _ _ _ _ _ Hserve Hg).
    split; [reflexivity|]. by rewrite Hs, Hb.
  Defined.
End AsideScenario.

(** ** [RequestURI] in [main.go] *)

(** The dispatches added are to the primary backend, with an empty
    [RequestURI]. *)
Definition primary_clean (σ σ' : World) : Prop :=
  exists cs, calls σ' = calls σ ++ cs
             /\ Forall (λ c, c.1 = Primary /\ ReqData.RequestURI c.2 = "") cs.

#[export] Instance primary_clean_preorder : PreOrder primary_clean.
Proof.
  split.
  - intros σ. exists []. by rewrite app_nil_r.
  - intros σ1 σ2 σ3 (c1 & E1 & H1) (c2 & E2 & H2). exists (c1 ++ c2).
    split; [by rewrite E2, E1, app_assoc|]. by apply Forall_app.
Qed.

Lemma primary_clean_same_calls σ σ' : calls σ' = calls σ -> primary_clean σ σ'.
Proof. intros E. exists []. by rewrite app_nil_r. Qed.

#[export] Instance primary_clean_storage : Storage primary_clean.
Proof.
  split; [tc_solve|..]; try (intros; by apply primary_clean_same_calls);
    intros ?; prim_keeps; by apply primary_clean_same_calls.
Qed.

#[export] Instance primary_clean_output : Output primary_clean.
Proof.
  split; [tc_solve|..]; try (intros; by apply primary_clean_same_calls).
  intros l m c _. prim_keeps. by apply primary_clean_same_calls.
Qed.

Lemma keeps_same_files_read_all s : keeps same_files (read_all s) any.
Proof.
  intros σ a σ' E. split; [|done]. unfold read_all in E. run_in E; reflexivity.
Qed.

Section RequestURI.
  Context `{NetHTTP}.

Lemma keeps_primary_clean_Client_Do c r :
    Req.RequestURI r = "" ->
    keeps primary_clean (DualClient.Client_Do Primary c r) any.
  Proof.
    intros Hr. unfold DualClient.Client_Do.
    eapply keeps_bind; try tc_solve; [apply keeps_load_header; tc_solve|].
    intros h _.
    eapply keeps_bind; try tc_solve; [apply keeps_read_all; tc_solve|].
    intros [b rerr] _.
    eapply keeps_bind; try tc_solve; [apply keeps_Body_Close; tc_solve|].
    intros _ _. eapply keeps_bind; try tc_solve.
    { apply keeps_modify; try tc_solve. intros σ. eexists. split; [done|].
      apply Forall_singleton. by split. }
    intros _ _. keeps_auto.
  Qed.

Lemma keeps_primary_clean_ServeHTTP ds r :
    keeps primary_clean (DualClient.ServeHTTP ds r) any.
  Proof.
    unfold DualClient.ServeHTTP.
    eapply keeps_bind; try tc_solve;
      [apply keeps_saveRequestResponse; tc_solve|].
    intros [ds' [[rd sv] [e|]]] Hcl; [keeps_auto|].
    cbn in Hcl. destruct Hcl as (_ & nm & base & -> & ->).
    eapply keeps_bind; try tc_solve; [apply keeps_readReq; tc_solve|].
    intros [r' [e|]] _; [keeps_auto|].
    destruct r' as [r'|]; [|apply keeps_panic].
    eapply keeps_bind; try tc_solve;
      [by apply keeps_primary_clean_Client_Do|].
    intros [resp1 [e|]] _; [keeps_auto|].
    destruct resp1 as [resp1|]; [|apply keeps_panic].
    keeps_auto.
  Qed.

  (** The closure [readReq]: the files are as they were, and a request it
      returns was parsed from the file. *)
Lemma readReq_inv nm σ r err σ' :
    DualClient.readReq nm σ = Ok (r, err) σ' ->
    files σ' = files σ
    /\ (err = None ->
        exists c d, files σ !! nm = Some c /\ wire_ReadRequest c = Some d
                    /\ r = Some (replay_at d (next σ))
                    /\ σ' = parsed d (opened nm σ)).
  Proof.
    intros E. unfold DualClient.readReq in E.
    apply bind_inv in E as ([fh oerr] & σ1 & Eo & E).
    destruct oerr as [e|].
    { unfold os_Open in Eo. run_in Eo; run_in E; by split. }
    apply os_Open_Ok in Eo as (-> & [c Hc] & ->).
    apply bind_inv in E as ([req rerr] & σ2 & Er & E).
    destruct rerr as [e|].
    { unfold ReadRequest, File_content, new_header, new_stream, alloc in Er.
      run_in Er; run_in E; by split. }
    eapply ReadRequest_Ok in Er as (d & Hd & -> & ->);
      [|cbn; by rewrite lookup_insert_eq].
    unfold ret in E. cbn in E. injection E as <- <- <-.
    split; [reflexivity|]. intros _. exists c, d.
    cbn in Hd. rewrite Hc in Hd. done.
  Qed.

Lemma Client_Do_refused which c r σ resp err σ' :
    (exists e, c (request_data r (default ∅ (headers σ !! Req.Header r))
                    (stream_rest σ (Reader (Req.Body r)))) = inl e) ->
    streams σ !! Reader (Req.Body r)
    = Some {| remaining := stream_rest σ (Reader (Req.Body r));
              sclosed := false |} ->
    DualClient.Client_Do which c r σ = Ok (resp, err) σ' ->
    resp = None /\ is_Some err /\ files σ' = files σ /\ log σ' = log σ.
  Proof.
    intros [e He] Hs E. unfold DualClient.Client_Do in E.
    apply bind_inv in E as (h & σ1 & E1 & E).
    unfold load_header, bind, gets, ret in E1. injection E1 as <- <-.
    apply bind_inv in E as ([b rerr] & σ2 & E2 & E).
    assert (b = stream_rest σ (Reader (Req.Body r))) as ->.
    { unfold read_all, bind, gets, modify, ret in E2. rewrite Hs in E2.
      cbn in E2. by injection E2 as <- _ _. }
    destruct (keeps_same_files_read_all _ _ _ _ E2) as [F2 _].
    destruct (keeps_read_all quiet _ _ _ _ E2) as [(_ & _ & L2) _].
    apply bind_inv in E as (cerr & σ3 & E3 & E).
    destruct (keeps_same_files_multiCloser_loop _ _ _ _ _ E3) as [F3 _].
    destruct (keeps_Body_Close quiet _ _ _ _ E3) as [(_ & _ & L3) _].
    apply bind_inv in E as ([] & σ4 & E4 & E).
    unfold modify in E4. injection E4 as <-.
    rewrite He in E. unfold ret in E. injection E as <- <- <-.
    unfold same_files in *. cbn. repeat split; [eauto|congruence..].
  Qed.

  (** In [main.go] the request sent to the primary backend has its
      [RequestURI] cleared: every dispatch [ServeHTTP] makes is one to the
      primary backend with an empty [RequestURI]. The replay the goroutine
      sends to the secondary backend keeps the [RequestURI] that was read
      from the file. So with a secondary client that refuses a request whose
      [RequestURI] is set, and a file whose request has one, the goroutine
      ends with an error logged ("call secondary", or "error reading request
      (2.)" when the file cannot be read) and has written no file: no
      secondary response is saved, and nothing is compared. *)
Theorem secondary_request_keeps_its_RequestURI (r : Request) (σ : World) :
    (forall (ds : dualServer DualClient.Client) x σh,
        DualClient.ServeHTTP ds r σ = Ok x σh ->
        exists cs,
          calls σh = calls σ ++ cs
          /\ Forall (λ c, c.1 = Primary /\ ReqData.RequestURI c.2 = "") cs)
    /\ (forall (ds : dualServer DualClient.Client) nm base sc σ',
        (forall d, ReqData.RequestURI d <> "" ->
                   exists e, secondary ds d = inl e) ->
        (forall c d, files σ !! nm = Some c -> wire_ReadRequest c = Some d ->
                     ReqData.RequestURI d <> "") ->
        DualClient.secondary_goroutine ds (DualClient.readReq nm)
          (DualClient.saveResp base) sc σ = Ok tt σ' ->
        files σ' = files σ
        /\ exists m e,
            (m = "error reading request (2.)" \/ m = "call secondary")
            /\ log σ' = log σ ++ [ {| lvl := LvlError; msg := m;
                                      ctx := [("error", VStr e)] |} ]).
  Proof.
    split.
    - intros ds x σh E.
      by destruct (keeps_primary_clean_ServeHTTP ds r _ _ _ E).
    - intros ds nm base sc σ' Hrefuse Huri E.
      unfold DualClient.secondary_goroutine in E.
      apply bind_inv in E as ([r2 err] & σ1 & Er & E).
      destruct (keeps_readReq quiet _ _ _ _ Er) as [(_ & _ & L1) _].
      apply readReq_inv in Er as (F1 & Hr2).
      destruct err as [e|].
      { unfold Log, modify in E. injection E as <-. cbn.
        split; [exact F1|]. exists "error reading request (2.)", e.
        split; [by left|]. by rewrite L1. }
      destruct (Hr2 eq_refl) as (c & d & Hc & Hd & -> & ->).
      apply bind_inv in E as ([resp2 err2] & σ2 & Ed & E).
      apply Client_Do_refused in Ed as (-> & [e ->] & F2 & L2).
      + unfold Log, modify in E. injection E as <-. cbn.
        split; [by rewrite F2|]. exists "call secondary", e.
        split; [by right|]. by rewrite L2.
      + apply Hrefuse. cbn. by apply (Huri c d).
      + cbn. unfold stream_rest. cbn.
        by rewrite !lookup_insert_eq.
  Qed.
End RequestURI.

Section RequestURIScenario.
  #[local] Existing Instance HTTP11.http11.

Lemma secondary_request_keeps_its_RequestURI_witness :
    exists σ',
      DualClient.secondary_goroutine
        (server (go_client (answers 200 ∅ "ok"))
                (go_client (answers 200 ∅ "ok")))
        (DualClient.readReq "reqlog/000000001.0")
        (DualClient.saveResp "reqlog/000000001") 200 hello_captured
      = Ok tt σ'
      /\ files σ' = files hello_captured
      /\ msg <$> log σ' = ["call secondary"].
  Proof.
    destruct (secondary_request_keeps_its_RequestURI post hello_captured)
      as [_ Hgo].
    assert (Hlog : (λ σ', msg <$> log σ')
                     <$> world_of
                           (DualClient.secondary_goroutine
                              (server (go_client (answers 200 ∅ "ok"))
                                      (go_client (answers 200 ∅ "ok")))
                              (DualClient.readReq "reqlog/000000001.0")
                              (DualClient.saveResp "reqlog/000000001") 200
                              hello_captured)
                   = Some ["call secondary"]) by (vm_compute; reflexivity).
    destruct (runs_secondary_goroutine
                (server (go_client (answers 200 ∅ "ok"))
                        (go_client (answers 200 ∅ "ok")))
                "reqlog/000000001.0" "reqlog/000000001" 200 hello_captured)
      as ([] & σ' & E & _).
    rewrite E in Hlog. injection Hlog as Hlog.
    exists σ'. split; [exact E|]. split; [|exact Hlog].
    eapply Hgo; [| |exact E].
    - intros d Hd. unfold server, secondary, go_client.
      rewrite bool_decide_eq_false_2 by done. eauto.
    - intros c d Hc Hd. vm_compute in Hc. injection Hc as <-.
      vm_compute in Hd. injection Hd as <-. discriminate.
  Defined.
End RequestURIScenario.

(** ** The [respWriter] of [part_000] *)

Lemma File_Write_spec fh n p cur σ :
  handles σ !! fh = Some {| Name := n; fopen := true |} ->
  files σ !! n = Some cur ->
  write_limit (faults σ) n = None ->
  File_Write fh p σ = Ok None (set_files <[n := cur +:+ p]> σ).
Proof.
  intros Hh Hf Hl. unfold File_Write, bind, gets, modify, ret.
  rewrite Hh. cbn. rewrite Hf, Hl. reflexivity.
Qed.

(** What [Write] puts in front of the bytes when no status was recorded. *)
Definition implicit_head `{NetHTTP} : string :=
  "HTTP/1.1 " +:+ pretty StatusOK +:+ " " +:+ StatusText StatusOK +:+ CRLF
  +:+ CRLF.

Fixpoint with_heads `{NetHTTP} (ps : list string) : string :=
  match ps with
  | [] => ""
  | p :: ps' => implicit_head +:+ p +:+ with_heads ps'
  end.

Section RespWriter.
  Context `{NetHTTP}.

Lemma Write_file_writer fh n p cur σ :
    handles σ !! fh = Some {| Name := n; fopen := true |} ->
    files σ !! n = Some cur ->
    write_limit (faults σ) n = None ->
    exists σ',
      DualProxy.Write (file_writer fh) p σ = Ok tt σ'
      /\ handles σ' = handles σ /\ faults σ' = faults σ
      /\ files σ' = <[n := cur +:+ implicit_head +:+ p]> (files σ).
  Proof.
    intros Hh Hf Hl.
    unfold DualProxy.Write, DualProxy.WriteHeader, DualProxy.Header_,
      DualProxy.WriteCloser_Write, file_writer, File_Write, new_header,
      load_header, alloc, bind, gets, modify, ret.
    cbn. rewrite Hh. cbn. rewrite Hf, Hl. cbn.
    rewrite lookup_insert_eq. cbn. rewrite map_to_list_empty. cbn.
    rewrite Hh. cbn. rewrite lookup_insert_eq, Hl. cbn.
    rewrite Hh. cbn. rewrite lookup_insert_eq, Hl. cbn.
    eexists. split; [reflexivity|]. cbn. split; [done|]. split; [done|].
    rewrite !insert_insert_eq. unfold implicit_head.
    by rewrite !app_assoc_string.
  Qed.

  (** [Write] has a value receiver: the status (and the header map) that its
      call of [WriteHeader(200)] records are those of a copy. So a handler
      that writes chunks without calling [WriteHeader] leaves the recorded
      status of its writer at 0, and gets the status line and the empty line
      after the headers written into the artifact before every chunk. *)
Theorem Write_repeats_the_status_line (fh : nat) (n cur : string)
      (ps : list string) (σ : World) :
    handles σ !! fh = Some {| Name := n; fopen := true |} ->
    files σ !! n = Some cur ->
    write_limit (faults σ) n = None ->
    exists rw' σ',
      DualProxy.apply_ops (file_writer fh) (DualProxy.OpWrite <$> ps) σ
      = Ok rw' σ'
      /\ DualProxy.RW.status rw' = 0
      /\ files σ' !! n = Some (cur +:+ with_heads ps).
  Proof.
    revert cur σ. induction ps as [|p ps IH]; intros cur σ Hh Hf Hl.
    - exists (file_writer fh), σ. split; [reflexivity|]. split; [done|].
      rewrite Hf. f_equal. clear. induction cur as [|x cur IH]; [done|].
      by rewrite app_cons, <- IH.
    - destruct (Write_file_writer fh n p cur σ Hh Hf Hl)
        as (σ1 & E1 & Hh1 & Hl1 & Hf1).
      destruct (IH (cur +:+ implicit_head +:+ p) σ1)
        as (rw' & σ' & E & Hst & Hf').
      { by rewrite Hh1. } { by rewrite Hf1, lookup_insert_eq. }
      { by rewrite Hl1. }
      exists rw', σ'. split; [|split; [exact Hst|]].
      + assert (E2 : DualProxy.apply_op (file_writer fh) (DualProxy.OpWrite p) σ
                     = Ok (file_writer fh) σ1).
        { cbn [DualProxy.apply_op]. by rewrite (bind_Ok _ _ _ _ _ E1). }
        cbn [fmap list_fmap DualProxy.apply_ops].
        rewrite (bind_Ok _ _ _ _ _ E2). exact E.
      + rewrite Hf'. cbn [with_heads]. by rewrite !app_assoc_string.
  Qed.
End RespWriter.

Section RespWriterScenario.
  #[local] Existing Instance HTTP11.http11.

  (** The chunks "he" and "llo" are written to the new, empty file
      [reqlog/000000001.2]. *)
Lemma Write_repeats_the_status_line_witness :
    exists rw' σ',
      DualProxy.apply_ops (file_writer 3)
        [DualProxy.OpWrite "he"; DualProxy.OpWrite "llo"]
        (created "reqlog/000000001.2" hello)
      = Ok rw' σ'
      /\ DualProxy.RW.status rw' = 0
      /\ files σ' !! "reqlog/000000001.2"
         = Some ("HTTP/1.1 200 OK" +:+ CRLF +:+ CRLF +:+ "he"
                 +:+ "HTTP/1.1 200 OK" +:+ CRLF +:+ CRLF +:+ "llo").
  Proof.
    exact (Write_repeats_the_status_line 3 "reqlog/000000001.2" ""
             ["he"; "llo"] (created "reqlog/000000001.2" hello)
             eq_refl eq_refl eq_refl).
  Defined.
End RespWriterScenario.

(** The status the caller has been sent, if any. *)
Definition status_sent (σ : World) : option Z := fst <$> rw_sent (caller σ).

(** After the step the caller has the status it had; if it had none, it has
    [o]. *)
Definition sends (o : option Z) (σ σ' : World) : Prop :=
  status_sent σ' = match status_sent σ with
                   | Some s => Some s
                   | None => o
                   end.

(** The status the calls [ops] of a handler make the caller's writer send:
    that of the first [WriteHeader], or 200 when a [Write] comes first. *)
Fixpoint first_sent (ops : list DualProxy.RWOp) : option Z :=
  match ops with
  | [] => None
  | DualProxy.OpHeader _ _ :: ops' => first_sent ops'
  | DualProxy.OpWriteHeader s :: _ => Some s
  | DualProxy.OpWrite _ :: _ => Some StatusOK
  end.

Lemma sends_same_caller σ σ' : same_caller σ σ' -> sends None σ σ'.
Proof.
  unfold same_caller, sends, status_sent. intros ->.
  by destruct (rw_sent (caller σ)).
Qed.

Lemma sends_trans o1 o2 σ1 σ2 σ3 :
  sends o1 σ1 σ2 -> sends o2 σ2 σ3 ->
  sends (match o1 with Some s => Some s | None => o2 end) σ1 σ3.
Proof.
  unfold sends. intros H1 H2. rewrite H2, H1.
  by destruct (status_sent σ1), o1.
Qed.

Lemma sends_ResponseWriter_WriteHeader code σ a σ' :
  ResponseWriter_WriteHeader code σ = Ok a σ' -> sends (Some code) σ σ'.
Proof.
  unfold ResponseWriter_WriteHeader, load_header, sends, status_sent.
  intros E. run_in E; cbn; by rewrite ?H.
Qed.

Lemma sends_ResponseWriter_Write p σ a σ' :
  ResponseWriter_Write p σ = Ok a σ' -> sends (Some StatusOK) σ σ'.
Proof.
  unfold ResponseWriter_Write, ResponseWriter_WriteHeader, load_header,
    sends, status_sent.
  intros E. run_in E; cbn; [|reflexivity].
  match goal with Hs : rw_sent _ = Some _ |- _ => by rewrite Hs end.
Qed.

Section FirstStatus.
  Context `{NetHTTP}.

Lemma keeps_same_caller_Header_any rw :
    keeps same_caller (DualProxy.Header_ rw) any.
  Proof. unfold DualProxy.Header_. keeps_auto. Qed.

Lemma sends_WriteHeader rw status σ rw' σ' :
    DualProxy.RW.w rw = true ->
    DualProxy.WriteHeader rw status σ = Ok rw' σ' ->
    sends (Some status) σ σ' /\ DualProxy.RW.w rw' = true.
  Proof.
    intros Hw E. unfold DualProxy.WriteHeader in E.
    cbn [DualProxy.RW.w DualProxy.RW.WriteCloser] in E. rewrite Hw in E.
    apply bind_inv in E as ([] & σ1 & E1 & E).
    apply sends_ResponseWriter_WriteHeader in E1.
    apply bind_inv in E as ([] & σ2 & E2 & E).
    destruct (keeps_WriteCloser_Write same_caller _ _ _ _ _ E2) as [C2 _].
    apply bind_inv in E as ([rw1 l] & σ3 & E3 & E).
    destruct (keeps_same_caller_Header_any _ _ _ _ E3) as [C3 _].
    assert (Hw1 : DualProxy.RW.w rw1 = true).
    { unfold DualProxy.Header_ in E3. cbn [DualProxy.RW.w] in E3.
      rewrite ?Hw in E3. by run_in E3. }
    apply bind_inv in E as (hm & σ4 & E4 & E).
    destruct (keeps_load_header same_caller _ _ _ _ E4) as [C4 _].
    apply bind_inv in E as ([] & σ5 & E5 & E).
    assert (C5 : same_caller σ4 σ5).
    { eapply (keeps_forM_ same_caller); [|exact E5]. intros [k vv].
      apply keeps_forM_; try tc_solve. intros v.
      apply keeps_WriteCloser_Write; tc_solve. }
    apply bind_inv in E as ([] & σ6 & E6 & E).
    destruct (keeps_WriteCloser_Write same_caller _ _ _ _ _ E6) as [C6 _].
    unfold ret in E. injection E as <- <-. split; [|exact Hw1].
    apply (sends_trans (Some status) None _ _ _ E1), sends_same_caller.
    repeat (etrans; [eassumption|]). reflexivity.
  Qed.

Lemma sends_apply_op rw op σ rw' σ' :
    DualProxy.RW.w rw = true ->
    DualProxy.apply_op rw op σ = Ok rw' σ' ->
    sends (first_sent [op]) σ σ' /\ DualProxy.RW.w rw' = true.
  Proof.
    intros Hw E. destruct op as [k vv|status|p]; cbn [DualProxy.apply_op] in E.
    - apply bind_inv in E as ([rw1 l] & σ1 & E1 & E).
      destruct (keeps_same_caller_Header_any _ _ _ _ E1) as [C1 _].
      assert (Hw1 : DualProxy.RW.w rw1 = true).
      { unfold DualProxy.Header_ in E1. rewrite Hw in E1. by run_in E1. }
      apply bind_inv in E as ([] & σ2 & E2 & E).
      destruct (keeps_same_caller_Header_store _ _ _ _ _ _ E2) as [C2 _].
      unfold ret in E. injection E as <- <-. split; [|exact Hw1].
      apply sends_same_caller. by etrans.
    - by apply (sends_WriteHeader rw).
    - apply bind_inv in E as ([] & σ1 & E1 & E).
      unfold ret in E. injection E as <- <-. split; [|exact Hw].
      unfold DualProxy.Write in E1.
      apply bind_inv in E1 as (rw1 & σ2 & E2 & E1).
      assert (H2 : (sends (Some StatusOK) σ σ2 \/ sends None σ σ2)
                   /\ DualProxy.RW.w rw1 = true).
      { destruct (DualProxy.RW.status rw =? 0).
        - apply sends_WriteHeader in E2 as [? ?]; auto.
        - unfold ret in E2. injection E2 as <- <-. split; [|exact Hw].
          right. by apply sends_same_caller. }
      destruct H2 as [H2 Hw1]. rewrite Hw1 in E1.
      apply bind_inv in E1 as ([] & σ3 & E3 & E1).
      apply sends_ResponseWriter_Write in E3.
      destruct (keeps_WriteCloser_Write same_caller _ _ _ _ _ E1) as [C1 _].
      apply sends_same_caller in C1.
      pose proof (sends_trans _ _ _ _ _ E3 C1) as H3. cbn in H3.
      destruct H2 as [H2|H2];
        pose proof (sends_trans _ _ _ _ _ H2 H3) as H4; exact H4.
  Qed.

  (** What the caller is sent and what is compared. After the calls [ops] of
      a handler on the writer of the primary (which writes to the caller and
      to the artifact), the caller has been sent the status of the first
      [WriteHeader], or 200 when a [Write] came first, while the status
      recorded in the writer, which the goroutine compares with that of the
      secondary, is that of the last [WriteHeader], and 0 when there was
      none. *)
Theorem caller_gets_the_first_status (rw : DualProxy.respWriter)
      (ops : list DualProxy.RWOp) (σ : World) :
    DualProxy.RW.w rw = true ->
    is_Some (DualProxy.RW.WriteCloser rw) ->
    rw_sent (caller σ) = None ->
    exists rw' σ',
      DualProxy.apply_ops rw ops σ = Ok rw' σ'
      /\ fst <$> rw_sent (caller σ') = first_sent ops
      /\ DualProxy.RW.status rw' = final_status ops (DualProxy.RW.status rw).
  Proof.
    intros Hw Hwc Hsent.
    destruct (runs_apply_ops ops rw Hwc σ) as (rw' & σ' & E & _).
    exists rw', σ'. split; [exact E|]. split.
    - enough (Hs : sends (first_sent ops) σ σ').
      { unfold sends, status_sent in Hs. by rewrite Hsent in Hs. }
      clear Hwc Hsent. revert rw σ Hw E.
      induction ops as [|op ops IH]; intros rw σ Hw E;
        cbn [DualProxy.apply_ops] in E.
      + unfold ret in E. injection E as <- <-. by apply sends_same_caller.
      + apply bind_inv in E as (rw1 & σ1 & E1 & E).
        apply sends_apply_op in E1 as [H1 Hw1]; [|exact Hw].
        pose proof (sends_trans _ _ _ _ _ H1 (IH _ _ Hw1 E)) as H2.
        by destruct op.
    - by destruct (runs_inv _ _ _ _ _ (runs_apply_ops ops rw Hwc) E).
  Qed.
End FirstStatus.

Section FirstStatusScenario.
  #[local] Existing Instance HTTP11.http11.

  (** A primary handler that writes "ok" without calling [WriteHeader]: the
      caller is sent 200, and 0 is recorded. *)
Lemma caller_gets_the_first_status_witness :
    exists rw' σ',
      DualProxy.apply_ops
        {| DualProxy.RW.WriteCloser := Some 3%nat; DualProxy.RW.w := true;
           DualProxy.RW.h := None; DualProxy.RW.status := 0 |}
        [DualProxy.OpWrite "ok"]
        (created "reqlog/000000001.1" hello)
      = Ok rw' σ'
      /\ fst <$> rw_sent (caller σ') = Some 200
      /\ DualProxy.RW.status rw' = 0.
  Proof.
    exact (caller_gets_the_first_status
             {| DualProxy.RW.WriteCloser := Some 3%nat; DualProxy.RW.w := true;
                DualProxy.RW.h := None; DualProxy.RW.status := 0 |}
             [DualProxy.OpWrite "ok"]
             (created "reqlog/000000001.1" hello)
             eq_refl (mk_is_Some _ _ eq_refl) eq_refl).
  Defined.
End FirstStatusScenario.

(** ** [multiCloser] *)

(** Readers and files stay, with their bytes and names; what is closed stays
    closed. *)
Definition closes (σ σ' : World) : Prop :=
  (forall s st, streams σ !! s = Some st ->
     exists st', streams σ' !! s = Some st'
                 /\ remaining st' = remaining st
                 /\ (sclosed st = true -> sclosed st' = true))
  /\ (forall fh f, handles σ !! fh = Some f ->
        exists f', handles σ' !! fh = Some f'
                   /\ Name f' = Name f
                   /\ (fopen f = false -> fopen f' = false)).

#[export] Instance closes_preorder : PreOrder closes.
Proof.
  split.
  - intros σ. split; eauto.
  - intros σ1 σ2 σ3 [S1 H1] [S2 H2]. split.
    + intros s st Hs. destruct (S1 _ _ Hs) as (st1 & Hs1 & R1 & C1).
      destruct (S2 _ _ Hs1) as (st2 & Hs2 & R2 & C2).
      exists st2. split; [done|]. split; [congruence|auto].
    + intros fh f Hf. destruct (H1 _ _ Hf) as (f1 & Hf1 & N1 & C1).
      destruct (H2 _ _ Hf1) as (f2 & Hf2 & N2 & C2).
      exists f2. split; [done|]. split; [congruence|auto].
Qed.

(** What [c.Close()] leaves closed. *)
Definition closed_in (c : Closer) (σ σ' : World) : Prop :=
  match c with
  | CloserBody s =>
      forall st, streams σ !! s = Some st ->
        exists st', streams σ' !! s = Some st' /\ sclosed st' = true
  | CloserFile fh =>
      forall f, handles σ !! fh = Some f ->
        exists f', handles σ' !! fh = Some f' /\ fopen f' = false
  end.

Lemma Closer_Close_closes c σ :
  exists e σ', Closer_Close c σ = Ok e σ' /\ closes σ σ' /\ closed_in c σ σ'.
Proof.
  destruct c as [s|fh]; cbn [Closer_Close closed_in].
  - unfold body_Close, bind, modify, ret. eexists _, _. split; [reflexivity|].
    split; [split|]; cbn.
    + intros s' st Hs. rewrite lookup_alter. case_decide as Hd.
      * subst. rewrite Hs. cbn. eauto.
      * rewrite Hs. eauto.
    + eauto.
    + intros st Hs. rewrite lookup_alter_eq, Hs. cbn. eauto.
  - unfold File_Close, bind, gets, modify, ret.
    destruct (handles σ !! fh) as [f|] eqn:Hf; cbn.
    + destruct (fopen f) eqn:Ho; cbn.
      * eexists _, _. split; [reflexivity|]. split; [split|]; cbn.
        -- eauto.
        -- intros fh' f' Hf'. rewrite lookup_alter. case_decide as Hd.
           ++ subst. rewrite Hf'. cbn. eauto.
           ++ rewrite Hf'. eauto.
        -- intros f' [= <-]. rewrite lookup_alter_eq, Hf. cbn. eauto.
      * eexists _, _. split; [reflexivity|]. split; [reflexivity|].
        intros f' [= <-]. exists f. by rewrite Hf.
    + eexists _, _. split; [reflexivity|]. split; [reflexivity|].
      intros f' [=].
Qed.

(** [multiCloser.Close] returns and has closed every closer of the list,
    also those that follow one whose [Close] failed. An error the loop holds
    is its result, whatever the later closers return, and a file of the list
    that was closed before makes the result an error. *)
Theorem multiCloser_closes_every_closer (cs : list Closer) (err : error)
    (σ : World) :
  exists e σ',
    multiCloser_loop cs err σ = Ok e σ'
    /\ closes σ σ'
    /\ (forall s st, CloserBody s ∈ cs -> streams σ !! s = Some st ->
          exists st', streams σ' !! s = Some st'
                      /\ sclosed st' = true /\ remaining st' = remaining st)
    /\ (forall fh f, CloserFile fh ∈ cs -> handles σ !! fh = Some f ->
          exists f', handles σ' !! fh = Some f'
                     /\ fopen f' = false /\ Name f' = Name f)
    /\ (forall e0, err = Some e0 -> e = Some e0)
    /\ (forall fh f, CloserFile fh ∈ cs -> handles σ !! fh = Some f ->
          fopen f = false -> is_Some e).
Proof.
  revert err σ. induction cs as [|c cs IH]; intros err σ;
    cbn [multiCloser_loop].
  - exists err, σ. split; [reflexivity|]. split; [reflexivity|].
    split; [|split; [|split]];
      [intros ? ? Hin; by apply elem_of_nil in Hin..|done|
       intros ? ? Hin; by apply elem_of_nil in Hin].
  - destruct (Closer_Close_closes c σ) as (ce & σ1 & E1 & C1 & D1).
    destruct (IH (match ce, err with
                  | Some _, None => ce
                  | _, _ => err
                  end) σ1) as (e & σ' & E & C & HS & HF & Herr & Hdbl).
    exists e, σ'. split; [by rewrite (bind_Ok _ _ _ _ _ E1)|].
    split; [by etrans|]. split; [|split; [|split]].
    + intros s st [Hc|Hin]%elem_of_cons Hs.
      * subst c. destruct (D1 _ Hs) as (st1 & Hs1 & Hc1).
        destruct (proj1 C1 _ _ Hs) as (st1' & Hs1' & R1 & _).
        assert (st1' = st1) as -> by congruence.
        destruct (proj1 C _ _ Hs1) as (st2 & Hs2 & R2 & C2).
        exists st2. split; [done|]. split; [auto|congruence].
      * destruct (proj1 C1 _ _ Hs) as (st1 & Hs1 & R1 & _).
        destruct (HS _ _ Hin Hs1) as (st2 & Hs2 & C2 & R2).
        exists st2. split; [done|]. split; [done|congruence].
    + intros fh f [Hc|Hin]%elem_of_cons Hf.
      * subst c. destruct (D1 _ Hf) as (f1 & Hf1 & Hc1).
        destruct (proj2 C1 _ _ Hf) as (f1' & Hf1' & N1 & _).
        assert (f1' = f1) as -> by congruence.
        destruct (proj2 C _ _ Hf1) as (f2 & Hf2 & N2 & C2).
        exists f2. split; [done|]. split; [auto|congruence].
      * destruct (proj2 C1 _ _ Hf) as (f1 & Hf1 & N1 & _).
        destruct (HF _ _ Hin Hf1) as (f2 & Hf2 & C2 & N2).
        exists f2. split; [done|]. split; [done|congruence].
    + intros e0 ->. apply Herr. by destruct ce.
    + intros fh f [Hc|Hin]%elem_of_cons Hf Hcl.
      * subst c. unfold Closer_Close, File_Close, bind, gets, ret in E1.
        rewrite Hf in E1. cbn in E1. rewrite Hcl in E1. cbn in E1.
        injection E1 as <- <-.
        destruct err as [e0|]; erewrite Herr; eauto.
      * destruct (proj2 C1 _ _ Hf) as (f1 & Hf1 & N1 & C1').
        eapply Hdbl; eauto.
Qed.

(** ** The listener after an interrupt *)

(** With one connection accepted and not closed yet, the interrupt handler
    of [main] ([sl.Add(1); sl.Close(); sl.Done()]) returns and leaves the
    listener closed: [Accept] fails from then on, without counting anything.
    [Wait] blocks as long as the connection is open; once its [Close] has
    run, the counter is what it was before the connection was accepted, and
    [Wait] returns if no other connection is counted. *)
Theorem interrupt_drains_the_listener (sl sl1 : Listener.stoppableListener)
    (sc : Listener.stoppableConn) :
  0 <= Listener.WaitGroup sl ->
  Listener.Accept sl = Listener.Ret (Some sc, None) sl1 ->
  exists sl2 sl3,
    Listener.interrupt sl1 = Listener.Ret tt sl2
    /\ Listener.Accept sl2
       = Listener.Ret (None, Some "use of closed network connection") sl2
    /\ Listener.Wait sl2 = Listener.Blocked
    /\ Listener.Close sc sl2 = Listener.Ret None sl3
    /\ Listener.WaitGroup sl3 = Listener.WaitGroup sl
    /\ Listener.Wait sl3
       = if Listener.WaitGroup sl =? 0 then Listener.Ret tt sl3
         else Listener.Blocked.
Proof.
  intros H0 Hacc. unfold Listener.Accept, Listener.Listener_Accept in Hacc.
  destruct sl as [[cl bl] wg oc]. cbn in *.
  destruct cl; [discriminate Hacc|].
  destruct bl as [|[c|e] rest]; cbn in Hacc; [discriminate Hacc| |];
    [|discriminate Hacc].
  rewrite Listener.Add_Ret in Hacc by (cbn; lia). cbn in Hacc.
  injection Hacc as <- <-.
  unfold Listener.interrupt, Listener.Done, Listener.Listener_Close.
  rewrite Listener.Add_Ret by (cbn; lia). cbn.
  rewrite Listener.Add_Ret by (cbn; lia). cbn.
  eexists _, _. split; [reflexivity|].
  split; [reflexivity|]. split.
  { unfold Listener.Wait. cbn.
    destruct (Z.eqb_spec (wg + 1 + 1 + -1) 0); [lia|done]. }
  unfold Listener.Close, Listener.Done.
  rewrite Listener.Add_Ret by (cbn; lia). cbn.
  unfold Listener.Conn_Close. cbn.
  rewrite bool_decide_eq_true_2 by set_solver.
  split; [reflexivity|]. cbn. split; [lia|].
  unfold Listener.Wait. cbn.
  replace (wg + 1 + 1 + -1 + -1) with wg by lia. reflexivity.
Qed.

Lemma interrupt_drains_the_listener_witness :
  exists sc sl1 sl2 sl3,
    Listener.Accept two_pending = Listener.Ret (Some sc, None) sl1
    /\ Listener.interrupt sl1 = Listener.Ret tt sl2
    /\ Listener.Accept sl2
       = Listener.Ret (None, Some "use of closed network connection") sl2
    /\ Listener.Wait sl2 = Listener.Blocked
    /\ Listener.Close sc sl2 = Listener.Ret None sl3
    /\ Listener.Wait sl3 = Listener.Ret tt sl3.
Proof.
  destruct (interrupt_drains_the_listener two_pending _ _
              ltac:(cbn; lia) eq_refl)
    as (sl2 & sl3 & Hi & Ha & Hw & Hc & _ & Hw3).
  eexists _, _, sl2, sl3. split; [reflexivity|].
  split; [exact Hi|]. split; [exact Ha|]. split; [exact Hw|].
  split; [exact Hc|exact Hw3].
Defined.

(** ** [FileStream] and [TeeReadCloser] ([src/httpdump.go]) *)

(** The bytes of [bs], one after the other. *)
Definition cat (bs : list string) : string := foldr String.append "" bs.

(** The calls [fs.Write(b)] for the [b] of [bs], in order, with their
    results. *)
Fixpoint Writes (fs : HttpDump.FileStream) (bs : list string)
  : M (HttpDump.FileStream * list (nat * error)) :=
  match bs with
  | [] => ret (fs, [])
  | b :: bs' =>
      let* (fs, r) := HttpDump.FileStream_Write fs b in
      let* (fs, rs) := Writes fs bs' in
      ret (fs, r :: rs)
  end.

(** The stream [fs] has its file [p] open at [fh]. *)
Definition streaming (p : string) (fh : nat) (fs : HttpDump.FileStream)
    (σ : World) : Prop :=
  fs = {| HttpDump.path := p; HttpDump.f := Some fh |}
  /\ handles σ !! fh = Some {| Name := p; fopen := true |}.

Lemma app_nil_right (a : string) : a +:+ "" = a.
Proof. induction a as [|x a IH]; [done|]. rewrite app_cons. by f_equal. Qed.

Lemma File_Write_n_spec fh n p cur σ :
  handles σ !! fh = Some {| Name := n; fopen := true |} ->
  files σ !! n = Some cur ->
  write_limit (faults σ) n = None ->
  HttpDump.File_Write_n (Some fh) p σ
  = Ok (String.length p, None) (set_files <[n := cur +:+ p]> σ).
Proof.
  intros Hh Hf Hl. unfold HttpDump.File_Write_n, bind, gets, modify, ret.
  rewrite Hh. cbn. rewrite Hf, Hl. reflexivity.
Qed.

Lemma os_Create_spec p σ :
  create_fails (faults σ) p = None ->
  os_Create p σ = Ok (Some (next σ), None) (created p σ).
Proof.
  intros Hc. unfold os_Create, alloc, bind, gets, modify, ret.
  by rewrite Hc.
Qed.

Lemma FileStream_Write_first p b σ :
  create_fails (faults σ) p = None ->
  write_limit (faults σ) p = None ->
  exists σ',
    HttpDump.FileStream_Write (HttpDump.NewFileStream p) b σ
    = Ok ({| HttpDump.path := p; HttpDump.f := Some (next σ) |},
          (String.length b, None)) σ'
    /\ streaming p (next σ) {| HttpDump.path := p; HttpDump.f := Some (next σ) |} σ'
    /\ files σ' = <[p := b]> (files σ)
    /\ faults σ' = faults σ /\ streams σ' = streams σ.
Proof.
  intros Hc Hl.
  unfold HttpDump.FileStream_Write, HttpDump.NewFileStream.
  cbn [HttpDump.f HttpDump.path]. unfold bind at 1.
  rewrite (os_Create_spec _ _ Hc). cbn [HttpDump.f HttpDump.path].
  unfold bind at 1.
  rewrite (File_Write_n_spec (next σ) p b "" (created p σ));
    [|cbn; apply lookup_insert_eq|cbn; apply lookup_insert_eq|cbn; exact Hl].
  eexists. split; [reflexivity|]. cbn. split; [|split; [|done]].
  - split; [reflexivity|]. cbn. apply lookup_insert_eq.
  - by rewrite insert_insert_eq.
Qed.

Lemma FileStream_Write_next p fh fs b cur σ :
  streaming p fh fs σ ->
  files σ !! p = Some cur ->
  write_limit (faults σ) p = None ->
  HttpDump.FileStream_Write fs b σ
  = Ok (fs, (String.length b, None)) (set_files <[p := cur +:+ b]> σ).
Proof.
  intros [-> Hh] Hf Hl. unfold HttpDump.FileStream_Write.
  cbn [HttpDump.f HttpDump.path].
  unfold bind. by erewrite File_Write_n_spec.
Qed.

Lemma Writes_next p fh fs bs : forall cur σ,
  streaming p fh fs σ ->
  files σ !! p = Some cur ->
  write_limit (faults σ) p = None ->
  exists σ',
    Writes fs bs σ = Ok (fs, (λ b, (String.length b, None)) <$> bs) σ'
    /\ streaming p fh fs σ'
    /\ files σ' = <[p := cur +:+ cat bs]> (files σ)
    /\ faults σ' = faults σ /\ handles σ' = handles σ.
Proof.
  induction bs as [|b bs IH]; intros cur σ Hs Hf Hl; cbn [Writes].
  - exists σ. split; [reflexivity|]. split; [done|].
    split; [|done]. cbn. rewrite app_nil_right.
    by rewrite insert_id.
  - unfold bind at 1. erewrite FileStream_Write_next by done.
    destruct (IH (cur +:+ b) (set_files <[p := cur +:+ b]> σ))
      as (σ' & E & Hs' & Hf' & Hfl & Hh).
    { destruct Hs as [-> Hh]. by split. }
    { cbn. apply lookup_insert_eq. }
    { exact Hl. }
    exists σ'. unfold bind. rewrite E. split; [reflexivity|].
    split; [done|]. split; [|done].
    rewrite Hf'. cbn. rewrite insert_insert_eq.
    by rewrite app_assoc_string.
Qed.

Section FileStreamProps.

  (** What is written to a [FileStream] is what its file holds. With a path
      that can be created and takes every byte, the first [Write] makes the
      file, dropping what it held, every [Write] returns the length of its
      bytes and no error, and the file holds the bytes of all of them in
      order. [Close] then prints [Close <path>], closes the file and
      returns what closing the file returns. *)
Theorem FileStream_holds_what_was_written (p b : string) (bs : list string)
      (σ : World) :
    create_fails (faults σ) p = None ->
    write_limit (faults σ) p = None ->
    exists fs' σ' σ'',
      Writes (HttpDump.NewFileStream p) (b :: bs) σ
      = Ok (fs', (λ x, (String.length x, None)) <$> (b :: bs)) σ'
      /\ files σ' = <[p := cat (b :: bs)]> (files σ)
      /\ HttpDump.FileStream_Close fs' σ'
         = Ok (close_fails (faults σ) p) σ''
      /\ files σ''
         = <[HttpDump.Stdout := default "" (files σ' !! HttpDump.Stdout)
                                +:+ "Close " +:+ p +:+ LF]> (files σ')
      /\ exists fh, HttpDump.f fs' = Some fh
           /\ handles σ'' !! fh = Some {| Name := p; fopen := false |}.
  Proof.
    intros Hc Hl. cbn [Writes].
    destruct (FileStream_Write_first p b σ Hc Hl)
      as (σ1 & E1 & Hs1 & Hf1 & Hfl1 & _).
    destruct (Writes_next p (next σ) _ bs b σ1 Hs1) as (σ' & E & Hs & Hf & Hfl & Hh).
    { rewrite Hf1. apply lookup_insert_eq. }
    { by rewrite Hfl1. }
    destruct Hs as [_ Hfh].
    eexists _, σ', _. unfold bind at 1. rewrite E1. unfold bind at 1.
    rewrite E. split; [reflexivity|].
    split; [by rewrite Hf, Hf1, insert_insert_eq|].
    unfold HttpDump.FileStream_Close, HttpDump.Println, File_Close,
      bind, gets, modify, ret.
    cbn. rewrite Hfh. cbn. rewrite Hfl, Hfl1.
    split; [reflexivity|]. cbn. split; [reflexivity|].
    exists (next σ). split; [reflexivity|].
    by rewrite lookup_alter_eq, Hfh.
  Qed.

  (** A [FileStream] that was not written into has no file: its [Close]
      prints, returns the error "FileStream was never written into" and
      leaves every file but the standard output as it is. A [Write] whose
      [os.Create] fails returns 0 and that error and leaves the stream
      unwritten, so each later [Write] tries to create the file again. *)
Theorem FileStream_without_a_file (p : string) (σ : World) :
    (exists σ',
        HttpDump.FileStream_Close (HttpDump.NewFileStream p) σ
        = Ok (Some "FileStream was never written into") σ'
        /\ handles σ' = handles σ
        /\ forall q, q <> HttpDump.Stdout -> files σ' !! q = files σ !! q)
    /\ forall e bs,
        create_fails (faults σ) p = Some e ->
        Writes (HttpDump.NewFileStream p) bs σ
        = Ok (HttpDump.NewFileStream p, (λ _, (0%nat, Some e)) <$> bs) σ.
  Proof.
    split.
    - unfold HttpDump.FileStream_Close, HttpDump.Println, bind, modify, ret.
      cbn. eexists. split; [reflexivity|]. cbn. split; [done|].
      intros q Hq. by rewrite lookup_insert_ne.
    - intros e bs Hc. induction bs as [|b bs IH]; [reflexivity|].
      cbn [Writes]. unfold bind at 1.
      unfold HttpDump.FileStream_Write, HttpDump.NewFileStream, os_Create,
        bind, gets, ret in *.
      cbn in *. rewrite Hc. cbn. rewrite IH. reflexivity.
  Qed.

End FileStreamProps.

Section FileStreamScenario.

  (** "he" and "llo" written to a stream for [reqlog/1_req]. *)
Lemma FileStream_holds_what_was_written_witness :
    exists fs' σ',
      Writes (HttpDump.NewFileStream "reqlog/1_req") ["he"; "llo"] hello
      = Ok (fs', [(2%nat, None); (3%nat, None)]) σ'
      /\ files σ' !! "reqlog/1_req" = Some "hello".
  Proof.
    destruct (FileStream_holds_what_was_written "reqlog/1_req" "he" ["llo"]
                hello eq_refl eq_refl)
      as (fs' & σ' & σ'' & E & Hf & _).
    exists fs', σ'. split; [exact E|]. rewrite Hf. apply lookup_insert_eq.
  Defined.

  (** The same writes while the disk refuses new files. *)
Lemma FileStream_without_a_file_witness :
    Writes (HttpDump.NewFileStream "reqlog/1_req") ["he"; "llo"]
      hello_read_only
    = Ok (HttpDump.NewFileStream "reqlog/1_req",
          [(0%nat, Some "read-only file system");
           (0%nat, Some "read-only file system")]) hello_read_only.
  Proof.
    exact (proj2 (FileStream_without_a_file "reqlog/1_req" hello_read_only)
             "read-only file system" ["he"; "llo"] eq_refl).
  Defined.

End FileStreamScenario.

(** ** Reading a body through the tee *)

(** The calls [t.Read(p)] with [len(p) = n] for the [n] of [ns], in order,
    with the bytes and the error of each. *)
Fixpoint Reads (t : HttpDump.TeeReadCloser Body HttpDump.FileStream)
    (ns : list nat)
  : M (HttpDump.TeeReadCloser Body HttpDump.FileStream
       * list (string * error)) :=
  match ns with
  | [] => ret (t, [])
  | n :: ns' =>
      let* (t, r) := HttpDump.TeeReadCloser_Read t n in
      let* (t, rs) := Reads t ns' in
      ret (t, r :: rs)
  end.

(** The tee over the body at [s] and a stream [fs]. *)
Definition tee (s : nat) (fs : HttpDump.FileStream)
  : HttpDump.TeeReadCloser Body HttpDump.FileStream :=
  HttpDump.NewTeeReadCloser (libBody s) fs.

(** What the file of the stream holds once [got] has gone through the tee,
    from the world [σ0] on. *)
Definition tee_state (p got : string) (fs : HttpDump.FileStream)
    (σ0 σ : World) : Prop :=
  HttpDump.path fs = p /\ faults σ = faults σ0
  /\ match HttpDump.f fs with
     | None => got = "" /\ files σ = files σ0
     | Some fh =>
         got <> "" /\ handles σ !! fh = Some {| Name := p; fopen := true |}
         /\ files σ = <[p := got]> (files σ0)
     end.

Lemma substring_split (n : nat) (b : string) :
  substring 0 n b +:+ substring n (String.length b - n) b = b.
Proof.
  revert n. induction b as [|x b IH]; intros [|n]; cbn; try done.
  - by rewrite substring_all.
  - rewrite app_cons. by rewrite IH.
Qed.

Lemma length_substring_0 (n : nat) (b : string) :
  String.length (substring 0 n b) = (n `min` String.length b)%nat.
Proof.
  revert n. induction b as [|x b IH]; intros [|n]; cbn; try done.
  by rewrite IH.
Qed.

Lemma length_0_empty (b : string) : String.length b = 0%nat -> b = "".
Proof. by destruct b. Qed.

Lemma Body_Read_spec s rest n σ :
  streams σ !! s = Some {| remaining := rest; sclosed := false |} ->
  HttpDump.Body_Read (libBody s) n σ
  = if String.eqb rest "" then Ok ("", Some HttpDump.EOF) σ
    else Ok (substring 0 n rest, None)
           (set_streams (alter (λ _,
              {| remaining := substring n (String.length rest - n) rest;
                 sclosed := false |}) s) σ).
Proof.
  intros Hs. unfold HttpDump.Body_Read, bind, gets, modify, ret.
  cbn. rewrite Hs. cbn. by destruct (String.eqb rest "").
Qed.

Lemma app_empty_inv (a b : string) : a +:+ b = "" -> a = "".
Proof. by destruct a. Qed.

(** One [Read] through the tee when the file can be made and written. *)
Lemma tee_Read_copies p s n got fs rest σ0 σ :
  create_fails (faults σ0) p = None ->
  write_limit (faults σ0) p = None ->
  tee_state p got fs σ0 σ ->
  streams σ !! s = Some {| remaining := rest; sclosed := false |} ->
  exists fs' chunk err σ' rest',
    HttpDump.TeeReadCloser_Read (tee s fs) n σ
    = Ok (tee s fs', (chunk, err)) σ'
    /\ tee_state p (got +:+ chunk) fs' σ0 σ'
    /\ streams σ' !! s = Some {| remaining := rest'; sclosed := false |}
    /\ chunk +:+ rest' = rest
    /\ (err = None \/ (chunk, err) = ("", Some HttpDump.EOF)).
Proof.
  intros Hc Hl (Hp & Hfl & Hst) Hs.
  unfold HttpDump.TeeReadCloser_Read, HttpDump.teeReader_Read, tee,
    HttpDump.NewTeeReadCloser.
  cbn [HttpDump.c HttpDump.w HttpDump.Read HttpDump.Write
       HttpDump.Body_ReadCloser HttpDump.FileStream_WriteCloser].
  unfold bind at 1. unfold bind at 1.
  rewrite (Body_Read_spec _ _ _ _ Hs).
  destruct (String.eqb_spec rest "") as [->|Hne].
  { cbn. exists fs, "", (Some HttpDump.EOF), σ, "".
    split; [reflexivity|]. rewrite app_nil_right.
    split; [done|]. split; [done|]. split; [done|]. by right. }
  set (σ1 := set_streams _ σ).
  assert (Hs1 : streams σ1 !! s
                = Some {| remaining := substring n (String.length rest - n) rest;
                          sclosed := false |}).
  { subst σ1. cbn. by rewrite lookup_alter_eq, Hs. }
  destruct (substring 0 n rest) as [|x chunk] eqn:Hchunk.
  { cbn. exists fs, "", None, σ1, (substring n (String.length rest - n) rest).
    split; [reflexivity|]. rewrite app_nil_right.
    split; [done|]. split; [done|]. split; [|by left].
    pose proof (substring_split n rest) as Hsp. by rewrite Hchunk in Hsp. }
  cbn [String.length Nat.ltb Nat.leb].
  pose proof (substring_split n rest) as Hsp. rewrite Hchunk in Hsp.
  destruct fs as [p' [fh|]]; cbn in Hp, Hst; subst p'.
  - destruct Hst as (Hgot & Hh & Hf).
    unfold bind at 1.
    erewrite (FileStream_Write_next p fh _ _ got σ1);
      [|by split|subst σ1; cbn; rewrite Hf; apply lookup_insert_eq
       |subst σ1; cbn; by rewrite Hfl].
    cbn. eexists _, _, None, _, _. split; [reflexivity|].
    split; [|split; [exact Hs1|split; [exact Hsp|by left]]].
    split; [done|]. split; [done|]. cbn.
    split; [intros Hx; by destruct got|].
    split; [done|]. by rewrite Hf, insert_insert_eq.
  - destruct Hst as (-> & Hf).
    destruct (FileStream_Write_first p (String x chunk) σ1)
      as (σ' & E & [_ Hh] & Hf' & Hfl' & Hss).
    { subst σ1. cbn. by rewrite Hfl. }
    { subst σ1. cbn. by rewrite Hfl. }
    unfold HttpDump.NewFileStream in E. unfold bind at 1. rewrite E.
    cbn. eexists _, _, None, _, _. split; [reflexivity|].
    split; [|split; [by rewrite Hss|split; [exact Hsp|by left]]].
    split; [done|]. split; [by rewrite Hfl'|]. cbn.
    split; [done|]. split; [exact Hh|]. by rewrite Hf', <- Hf.
Qed.

Lemma Reads_copy p s ns : forall got fs rest σ0 σ,
  create_fails (faults σ0) p = None ->
  write_limit (faults σ0) p = None ->
  tee_state p got fs σ0 σ ->
  streams σ !! s = Some {| remaining := rest; sclosed := false |} ->
  exists fs' rs σ' rest',
    Reads (tee s fs) ns σ = Ok (tee s fs', rs) σ'
    /\ tee_state p (got +:+ cat (fst <$> rs)) fs' σ0 σ'
    /\ streams σ' !! s = Some {| remaining := rest'; sclosed := false |}
    /\ cat (fst <$> rs) +:+ rest' = rest
    /\ Forall (λ r, r.2 = None \/ r = ("", Some HttpDump.EOF)) rs.
Proof.
  induction ns as [|n ns IH]; intros got fs rest σ0 σ Hc Hl Hst Hs;
    cbn [Reads].
  - exists fs, [], σ, rest. split; [reflexivity|]. cbn.
    rewrite app_nil_right. done.
  - destruct (tee_Read_copies p s n got fs rest σ0 σ Hc Hl Hst Hs)
      as (fs1 & chunk & err & σ1 & rest1 & E1 & Hst1 & Hs1 & Hsp1 & Herr1).
    destruct (IH _ _ _ _ _ Hc Hl Hst1 Hs1)
      as (fs' & rs & σ' & rest' & E & Hst' & Hs' & Hsp & Herr).
    exists fs', ((chunk, err) :: rs), σ', rest'.
    unfold bind at 1. rewrite E1. unfold bind at 1. rewrite E.
    split; [reflexivity|].
    change (cat (fst <$> (chunk, err) :: rs))
      with (chunk +:+ cat (fst <$> rs)).
    split; [by rewrite <- app_assoc_string|]. split; [done|].
    split; [by rewrite app_assoc_string, Hsp|].
    by constructor.
Qed.

Section TeeProps.



End TeeProps.

(** ** The tee when the file cannot be made, and its [Close] *)

(** One [Read] through a tee whose file cannot be created. *)
Lemma tee_Read_loses p e s n rest σ :
  create_fails (faults σ) p = Some e ->
  streams σ !! s = Some {| remaining := rest; sclosed := false |} ->
  exists err σ',
    HttpDump.TeeReadCloser_Read (tee s (HttpDump.NewFileStream p)) n σ
    = Ok (tee s (HttpDump.NewFileStream p), ("", err)) σ'
    /\ files σ' = files σ /\ handles σ' = handles σ
    /\ faults σ' = faults σ
    /\ streams σ' !! s
       = Some {| remaining := substring n (String.length rest - n) rest;
                 sclosed := false |}
    /\ (substring 0 n rest <> "" -> err = Some e).
Proof.
  intros Hc Hs.
  unfold HttpDump.TeeReadCloser_Read, HttpDump.teeReader_Read, tee,
    HttpDump.NewTeeReadCloser.
  cbn [HttpDump.c HttpDump.w HttpDump.Read HttpDump.Write
       HttpDump.Body_ReadCloser HttpDump.FileStream_WriteCloser].
  unfold bind at 1. unfold bind at 1.
  rewrite (Body_Read_spec _ _ _ _ Hs).
  destruct (String.eqb_spec rest "") as [->|Hne].
  { cbn. eexists _, σ. split; [reflexivity|].
    split; [done|]. split; [done|]. split; [done|].
    split; [by destruct n|]. by destruct n. }
  set (σ1 := set_streams _ σ).
  assert (Hs1 : streams σ1 !! s
                = Some {| remaining := substring n (String.length rest - n) rest;
                          sclosed := false |}).
  { subst σ1. cbn. by rewrite lookup_alter_eq, Hs. }
  destruct (substring 0 n rest) as [|x chunk] eqn:Hchunk.
  { cbn. eexists _, σ1. split; [reflexivity|]. done. }
  cbn [String.length Nat.ltb Nat.leb].
  unfold HttpDump.FileStream_Write, HttpDump.NewFileStream, os_Create.
  cbn [HttpDump.f HttpDump.path].
  unfold bind, gets, ret. cbn. rewrite Hc. cbn.
  eexists _, σ1. split; [reflexivity|]. done.
Qed.

Section TeeFailure.

  (** A tee whose file cannot be created takes the body away from its
      reader. Every [Read] returns no byte; the bytes it took from the body
      are gone from it, as many as the buffers asked for or all there were;
      the [Read]s that took bytes return the error of [os.Create]; no file
      is made. *)
Theorem tee_loses_the_body_without_a_file (p e body : string) (s : nat)
      (ns : list nat) (σ : World) :
    streams σ !! s = Some {| remaining := body; sclosed := false |} ->
    create_fails (faults σ) p = Some e ->
    exists rs σ' taken rest,
      Reads (tee s (HttpDump.NewFileStream p)) ns σ
      = Ok (tee s (HttpDump.NewFileStream p), rs) σ'
      /\ Forall (λ r, r.1 = "") rs
      /\ files σ' = files σ /\ handles σ' = handles σ
      /\ streams σ' !! s = Some {| remaining := rest; sclosed := false |}
      /\ taken +:+ rest = body
      /\ String.length taken = (sum_list ns `min` String.length body)%nat
      /\ (taken <> "" -> Exists (λ r, r.2 = Some e) rs).
  Proof.
    revert body σ. induction ns as [|n ns IH]; intros body σ Hs Hc;
      cbn [Reads].
    - exists [], σ, "", body. split; [reflexivity|]. split; [done|].
      split; [done|]. split; [done|]. split; [done|]. split; [done|].
      split; [cbn; lia|done].
    - destruct (tee_Read_loses p e s n body σ Hc Hs)
        as (err & σ1 & E1 & Hf1 & Hh1 & Hfl1 & Hs1 & Herr1).
      destruct (IH _ σ1 Hs1) as (rs & σ' & taken & rest & E & Hrs & Hf & Hh
                                 & Hs' & Hsp & Hlen & Hex).
      { by rewrite Hfl1. }
      exists (("", err) :: rs), σ', (substring 0 n body +:+ taken), rest.
      unfold bind at 1. rewrite E1. unfold bind at 1. rewrite E.
      split; [reflexivity|]. split; [by constructor|].
      split; [congruence|]. split; [congruence|]. split; [done|].
      split; [by rewrite app_assoc_string, Hsp, substring_split|].
      split.
      + rewrite length_app_String, Hlen, length_substring_0.
        pose proof (substring_split n body) as Hb.
        apply (f_equal String.length) in Hb.
        rewrite length_app_String, length_substring_0 in Hb.
        change (sum_list (n :: ns)) with (n + sum_list ns)%nat. lia.
      + intros Hne. destruct (substring 0 n body) as [|x c] eqn:Hchunk.
        * apply Exists_cons_tl. apply Hex. by rewrite app_nil in Hne.
        * apply Exists_cons_hd. cbn. by apply Herr1.
  Qed.

  (** The body "hello" read with buffers of 2 and 8 bytes while the disk
      refuses new files. *)
Lemma tee_loses_the_body_without_a_file_witness :
    exists σ',
      Reads (tee 2 (HttpDump.NewFileStream "reqlog/1_req")) [2; 8]%nat
        hello_read_only
      = Ok (tee 2 (HttpDump.NewFileStream "reqlog/1_req"),
            [("", Some "read-only file system");
             ("", Some "read-only file system")]) σ'
      /\ files σ' = ∅
      /\ streams σ' !! 2%nat = Some {| remaining := ""; sclosed := false |}.
  Proof.
    destruct (tee_loses_the_body_without_a_file "reqlog/1_req"
                "read-only file system" "hello" 2 [2; 8]%nat hello_read_only
                eq_refl eq_refl)
      as (rs & σ' & taken & rest & E & _ & Hf & _ & Hs & Hsp & Hlen & _).
    assert (Hrs : rs = [("", Some "read-only file system");
                        ("", Some "read-only file system")]).
    { vm_compute in E. by injection E as <- _. }
    subst rs. exists σ'. split; [exact E|]. split; [exact Hf|].
    rewrite Hs. do 2 f_equal.
    apply (f_equal String.length) in Hsp.
    rewrite length_app_String, Hlen in Hsp. cbn in Hsp.
    apply length_0_empty. lia.
  Defined.


End TeeFailure.

(** ** The files of the saved responses ([src/main.go]) *)

(** The file handles below [n] are as they were, and the locations below
    [n] stay in use. *)
Definition older (n : nat) (σ σ' : World) : Prop :=
  (n <= next σ)%nat ->
  (n <= next σ')%nat
  /\ forall fh, (fh < n)%nat -> handles σ' !! fh = handles σ !! fh.

#[export] Instance older_preorder n : PreOrder (older n).
Proof.
  split.
  - intros σ Hn. done.
  - intros σ1 σ2 σ3 H1 H2 Hn. destruct (H1 Hn) as [Hn2 E1].
    destruct (H2 Hn2) as [Hn3 E2]. split; [done|].
    intros fh Hfh. by rewrite E2, E1.
Qed.

(** The closers of a body close no file below [n]. *)
Definition safe (n : nat) (b : Body) : Prop :=
  Forall (λ c, match c with
               | CloserFile fh => (n <= fh)%nat
               | CloserBody _ => True
               end) (closers (Closer_ b)).

(** The log is added to, never cut. *)
Definition log_grows (σ σ' : World) : Prop :=
  exists es, log σ' = log σ ++ es.

#[export] Instance log_grows_preorder : PreOrder log_grows.
Proof.
  split.
  - intros σ. exists []. by rewrite app_nil_r.
  - intros σ1 σ2 σ3 [es1 E1] [es2 E2]. exists (es1 ++ es2).
    by rewrite E2, E1, app_assoc.
Qed.

Lemma log_grows_same σ σ' : log σ' = log σ -> log_grows σ σ'.
Proof. intros E. exists []. by rewrite app_nil_r. Qed.

#[export] Instance log_grows_storage : Storage log_grows.
Proof.
  split; [tc_solve|..]; try (intros; by apply log_grows_same);
    intros ?; prim_keeps; by apply log_grows_same.
Qed.

Lemma keeps_log_grows_Log l m c : keeps log_grows (Log l m c) any.
Proof. prim_keeps. by eexists. Qed.

#[export] Instance log_grows_output : Output log_grows.
Proof.
  split; [tc_solve|..]; try (intros; by apply log_grows_same).
  intros. apply keeps_log_grows_Log.
Qed.

#[export] Instance log_grows_effects : Effects log_grows.
Proof. split; [tc_solve|]. intros. by apply log_grows_same. Qed.

Ltac older_prim E :=
  run_in E;
  (split; [cbn; lia|intros; cbn; rewrite ?lookup_insert_ne by lia; done]).

Lemma older_os_Create n nm : keeps (older n) (os_Create nm) any.
Proof.
  intros σ a σ' E. split; [|done]. intros Hn.
  unfold os_Create, alloc in E. older_prim E.
Qed.

Lemma older_os_Open n nm : keeps (older n) (os_Open nm) any.
Proof.
  intros σ a σ' E. split; [|done]. intros Hn.
  unfold os_Open, alloc in E. older_prim E.
Qed.

Lemma older_new_stream n b : keeps (older n) (new_stream b) any.
Proof.
  intros σ a σ' E. split; [|done]. intros Hn.
  unfold new_stream, alloc in E. older_prim E.
Qed.

Lemma older_new_header n h : keeps (older n) (new_header h) any.
Proof.
  intros σ a σ' E. split; [|done]. intros Hn.
  unfold new_header, alloc in E. older_prim E.
Qed.

Lemma older_File_Write n fh p : keeps (older n) (File_Write fh p) any.
Proof.
  intros σ a σ' E. split; [|done]. intros Hn.
  unfold File_Write in E. older_prim E.
Qed.

Lemma older_File_Seek n fh : keeps (older n) (File_Seek fh) any.
Proof.
  intros σ a σ' E. split; [|done]. intros Hn.
  unfold File_Seek in E. older_prim E.
Qed.

Lemma older_File_content n fh : keeps (older n) (File_content fh) any.
Proof.
  intros σ a σ' E. split; [|done]. intros Hn.
  unfold File_content in E. older_prim E.
Qed.

Lemma older_load_header n l : keeps (older n) (load_header l) any.
Proof.
  intros σ a σ' E. split; [|done]. intros Hn.
  unfold load_header in E. older_prim E.
Qed.

Lemma older_read_all n s : keeps (older n) (read_all s) any.
Proof.
  intros σ a σ' E. split; [|done]. intros Hn.
  unfold read_all in E. older_prim E.
Qed.

Lemma older_Header_store n l k vv : keeps (older n) (Header_store l k vv) any.
Proof.
  intros σ a σ' E. split; [|done]. intros Hn.
  unfold Header_store in E. older_prim E.
Qed.

Lemma older_Log n l m c : keeps (older n) (Log l m c) any.
Proof.
  intros σ a σ' E. split; [|done]. intros Hn.
  unfold Log in E. older_prim E.
Qed.

Lemma older_ResponseWriter_WriteHeader n code :
  keeps (older n) (ResponseWriter_WriteHeader code) any.
Proof.
  intros σ a σ' E. split; [|done]. intros Hn.
  unfold ResponseWriter_WriteHeader, load_header in E. older_prim E.
Qed.

Lemma older_ResponseWriter_Write n p :
  keeps (older n) (ResponseWriter_Write p) any.
Proof.
  intros σ a σ' E. split; [|done]. intros Hn.
  unfold ResponseWriter_Write, ResponseWriter_WriteHeader, load_header in E.
  older_prim E.
Qed.

Lemma older_File_Close n fh :
  (n <= fh)%nat -> keeps (older n) (File_Close fh) any.
Proof.
  intros Hfh σ a σ' E. split; [|done]. intros Hn.
  unfold File_Close in E. run_in E;
    (split; [cbn; lia|intros; cbn; rewrite ?lookup_alter_ne by lia; done]).
Qed.

Lemma older_multiCloser_loop n cs : forall err,
  Forall (λ c, match c with
               | CloserFile fh => (n <= fh)%nat
               | CloserBody _ => True
               end) cs ->
  keeps (older n) (multiCloser_loop cs err) any.
Proof.
  induction cs as [|c cs IH]; intros err Hcs; cbn [multiCloser_loop].
  - apply keeps_ret_any. tc_solve.
  - apply Forall_cons in Hcs as [Hc Hcs].
    assert (Hc' : keeps (older n) (Closer_Close c) any).
    { destruct c as [s|fh]; cbn [Closer_Close].
      - intros σ a σ' E. split; [|done]. intros Hn.
        unfold body_Close in E. older_prim E.
      - by apply older_File_Close. }
    eapply keeps_bind; try tc_solve; [exact Hc'|intros; by apply IH].
Qed.

Lemma older_Body_Close n b :
  safe n b -> keeps (older n) (Body_Close b) any.
Proof. intros Hb. by apply older_multiCloser_loop. Qed.

Lemma safe_libBody n s : safe n (libBody s).
Proof. by repeat constructor. Qed.

Create HintDb older discriminated.
#[export] Hint Resolve older_os_Create older_os_Open older_new_stream
  older_new_header older_File_Write older_File_Seek older_File_content
  older_load_header older_read_all older_Header_store older_Log
  older_ResponseWriter_WriteHeader older_ResponseWriter_Write
  older_Body_Close safe_libBody : keeps.

Section Leak.
  Context `{NetHTTP}.

Lemma older_ReadRequest n fh : keeps (older n) (ReadRequest fh) any.
  Proof. unfold ReadRequest. keeps_auto. Qed.

Lemma older_ReadResponse n fh : keeps (older n) (ReadResponse fh) any.
  Proof. unfold ReadResponse. keeps_auto. Qed.

Lemma older_readReq n nm : keeps (older n) (DualClient.readReq nm) any.
  Proof.
    pose proof older_ReadRequest. unfold DualClient.readReq. keeps_auto.
  Qed.

Lemma older_Response_Write n resp fh :
    safe n (Resp.Body resp) -> keeps (older n) (Response_Write resp fh) any.
  Proof. intros Hs. unfold Response_Write. keeps_auto. Qed.

Lemma older_Client_Do n which c r :
    safe n (Req.Body r) ->
    keeps (older n) (DualClient.Client_Do which c r)
      (λ x, forall resp, x.1 = Some resp -> exists s, Resp.Body resp = libBody s).
  Proof.
    intros Hs. unfold DualClient.Client_Do.
    eapply keeps_bind; try tc_solve; [apply older_load_header|].
    intros h _.
    eapply keeps_bind; try tc_solve; [apply older_read_all|].
    intros [b rerr] _.
    eapply keeps_bind; try tc_solve; [by apply older_Body_Close|].
    intros _ _. eapply keeps_bind; try tc_solve.
    { apply keeps_modify; try tc_solve. intros σ Hn. done. }
    intros _ _. destruct (c _) as [e|rd].
    - apply keeps_ret; [tc_solve|]. intros resp [=].
    - eapply keeps_bind; try tc_solve; [apply older_new_header|].
      intros h' _.
      eapply keeps_bind; try tc_solve; [apply older_new_stream|].
      intros s _. apply keeps_ret; [tc_solve|].
      intros resp [= <-]. by exists s.
  Qed.

End Leak.

Section LeakMain.
  Context `{NetHTTP}.

  (** A response saved without an error: its file is open when
      [saveResponse] returns. *)
Lemma saveResponse_open dest resp s σ res σ' :
    Resp.Body resp = libBody s ->
    DualClient.saveResponse dest resp σ = Ok (res, None) σ' ->
    (S (next σ) <= next σ')%nat
    /\ handles σ' !! next σ = Some {| Name := dest; fopen := true |}
    /\ (forall fh, (fh < next σ)%nat -> handles σ' !! fh = handles σ !! fh)
    /\ log σ' = log σ.
  Proof.
    intros Hb E.
    destruct (keeps_saveResponse quiet _ _ _ _ _ E) as [(_ & _ & Hlog) _].
    unfold DualClient.saveResponse in E.
    apply bind_inv in E as ([fh err] & σ1 & Ec & E).
    destruct err as [e|]; [destruct fh; discriminate E|].
    apply os_Create_Ok in Ec as (-> & ->).
    assert (Hs : safe (S (next σ)) (Resp.Body resp)).
    { rewrite Hb. apply safe_libBody. }
    apply bind_inv in E as (werr & σ2 & Ew & E).
    destruct (older_Response_Write (S (next σ)) _ _ Hs _ _ _ Ew) as [O2 _].
    destruct werr as [e|].
    { apply bind_inv in E as (? & ? & _ & E). discriminate E. }
    apply bind_inv in E as (serr & σ3 & Es & E).
    destruct (older_File_Seek (S (next σ)) _ _ _ _ Es) as [O3 _].
    destruct serr as [e|].
    { apply bind_inv in E as (? & ? & _ & E). discriminate E. }
    apply bind_inv in E as ([resp' rerr] & σ4 & Er & E).
    destruct (older_ReadResponse (S (next σ)) _ _ _ _ Er) as [O4 _].
    destruct rerr as [e|].
    { apply bind_inv in E as (? & ? & _ & E). discriminate E. }
    destruct resp' as [resp'|]; [|discriminate E].
    unfold ret in E. injection E as <- <-.
    assert (O : older (S (next σ)) (created dest σ) σ4).
    { etrans; [exact O2|]. etrans; [exact O3|exact O4]. }
    destruct O as [Hn Hh]; [cbn; lia|].
    split; [exact Hn|]. split; [|split; [|exact Hlog]].
    - rewrite Hh by lia. cbn. apply lookup_insert_eq.
    - intros fh Hfh. rewrite Hh by lia. cbn.
      by rewrite lookup_insert_ne by lia.
  Qed.

Lemma in_last {A} (l : list A) (x : A) : x ∈ l ++ [x].
  Proof. set_solver. Qed.

  (** An error reply of [ServeHTTP] leaves its entry in the log. *)
Lemma error_reply_logged {A} l m c e code (x y : A) σ σ' :
    (Log l m c ;; http_Error e code ;; ret x) σ = Ok y σ' ->
    y = x /\ {| lvl := l; msg := m; ctx := c |} ∈ log σ'.
  Proof.
    intros E. apply bind_inv in E as ([] & σ1 & El & E).
    unfold Log, modify in El. injection El as <-.
    apply bind_inv in E as ([] & σ2 & Ee & E).
    destruct (keeps_http_Error log_grows _ _ _ _ _ Ee) as [[es Hes] _].
    unfold ret in E. injection E as <- <-. split; [done|].
    rewrite Hes. cbn. set_solver.
  Qed.

Definition no_error (σ : World) : Prop :=
    forall e, e ∈ log σ -> lvl e <> LvlError /\ lvl e <> LvlCrit.

Lemma no_error_Error σ m c :
    {| lvl := LvlError; msg := m; ctx := c |} ∈ log σ -> ~ no_error σ.
  Proof. intros Hin Hno. by destruct (Hno _ Hin) as [? _]. Qed.

Lemma no_error_Crit σ m c :
    {| lvl := LvlCrit; msg := m; ctx := c |} ∈ log σ -> ~ no_error σ.
  Proof. intros Hin Hno. by destruct (Hno _ Hin) as [_ ?]. Qed.

Lemma log_grows_elem σ σ' e : log_grows σ σ' -> e ∈ log σ -> e ∈ log σ'.
  Proof. intros [es ->] Hin. set_solver. Qed.

  (** The goroutine of [main.go], when it logs no error: the response of the
      secondary was saved, and its file is open at the end. *)
Lemma goroutine_leaves_open n ds nm base sc σ σ' :
    (n <= next σ)%nat ->
    DualClient.secondary_goroutine ds (DualClient.readReq nm)
      (DualClient.saveResp base) sc σ = Ok tt σ' ->
    no_error σ' ->
    (forall fh, (fh < n)%nat -> handles σ' !! fh = handles σ !! fh)
    /\ exists fh2, (n <= fh2)%nat
         /\ handles σ' !! fh2
            = Some {| Name := base +:+ ".2"; fopen := true |}.
  Proof.
    intros Hn E Hno. unfold DualClient.secondary_goroutine in E.
    apply bind_inv in E as ([r2 err] & σ1 & Er & E).
    destruct (older_readReq n _ _ _ _ Er) as [O1 _].
    apply readReq_inv in Er as (_ & Hr2).
    destruct err as [e|].
    { unfold Log, modify in E. injection E as <-.
      exfalso. eapply no_error_Error; [|exact Hno]. cbn. apply in_last. }
    destruct (Hr2 eq_refl) as (c & d & _ & _ & -> & Hσ1).
    apply bind_inv in E as ([resp2 err2] & σ2 & Ed & E).
    assert (Hsafe : safe n (Req.Body (replay_at d (next σ)))).
    { repeat constructor. exact Hn. }
    destruct (older_Client_Do n _ _ _ Hsafe _ _ _ Ed) as [O2 Hbody].
    destruct err2 as [e|].
    { unfold Log, modify in E. injection E as <-.
      exfalso. eapply no_error_Error; [|exact Hno]. cbn. apply in_last. }
    destruct resp2 as [resp2|]; [|discriminate E].
    destruct (Hbody _ eq_refl) as [s Hs].
    apply bind_inv in E as ([res err3] & σ3 & Es & E).
    destruct err3 as [e|].
    { unfold Log, modify in E. injection E as <-.
      exfalso. eapply no_error_Error; [|exact Hno]. cbn. apply in_last. }
    unfold DualClient.saveResp in Es. cbn [Z.leb Z.compare] in Es.
    rewrite Sprintf_dot_d_2 in Es.
    apply (saveResponse_open _ _ s) in Es as (Hn3 & Hfh2 & Hold & _);
      [|exact Hs].
    assert (O : older n σ σ2) by (etrans; [exact O1|exact O2]).
    destruct (O Hn) as [Hn2 Hh2].
    assert (Hh : handles σ' = handles σ3).
    { destruct (bool_decide _).
      - unfold Log, modify in E. by injection E as <-.
      - unfold ret in E. by injection E as <-. }
    rewrite Hh. split.
    - intros fh Hfh. rewrite Hold by lia. by apply Hh2.
    - exists (next σ2). split; [lia|exact Hfh2].
  Qed.


End LeakMain.

Section LeakScenario.
  #[local] Existing Instance HTTP11.http11.


End LeakScenario.

(** ** What the caller is sent when the primary fails ([part_000]) *)

(** Dispatches are added to the trace, never taken from it. *)
Definition calls_grow (σ σ' : World) : Prop :=
  exists cs, calls σ' = calls σ ++ cs.

#[export] Instance calls_grow_preorder : PreOrder calls_grow.
Proof.
  split.
  - intros σ. exists []. by rewrite app_nil_r.
  - intros σ1 σ2 σ3 [cs1 E1] [cs2 E2]. exists (cs1 ++ cs2).
    by rewrite E2, E1, app_assoc.
Qed.

Lemma calls_grow_same σ σ' : calls σ' = calls σ -> calls_grow σ σ'.
Proof. intros E. exists []. by rewrite app_nil_r. Qed.

#[export] Instance calls_grow_storage : Storage calls_grow.
Proof.
  split; [tc_solve|..]; try (intros; by apply calls_grow_same);
    intros ?; prim_keeps; by apply calls_grow_same.
Qed.

Lemma keeps_calls_grow_Log l m c : keeps calls_grow (Log l m c) any.
Proof. prim_keeps. by apply calls_grow_same. Qed.

#[export] Instance calls_grow_output : Output calls_grow.
Proof.
  split; [tc_solve|..]; try (intros; by apply calls_grow_same).
  intros. apply keeps_calls_grow_Log.
Qed.

#[export] Instance calls_grow_effects : Effects calls_grow.
Proof. split; [tc_solve|]. intros. by eexists. Qed.

#[export] Instance calls_grow_removal : Removal calls_grow.
Proof. split; [tc_solve|]. intros. by apply calls_grow_same. Qed.

Section PrimaryReport.
  Context `{NetHTTP}.

  (** The calls of a handler on a writer that has the caller attached: the
      caller is sent the status of the first of them that sends one. *)
Lemma sends_apply_ops ops : forall rw σ rw' σ',
    DualProxy.RW.w rw = true ->
    DualProxy.apply_ops rw ops σ = Ok rw' σ' ->
    sends (first_sent ops) σ σ'.
  Proof.
    induction ops as [|op ops IH]; intros rw σ rw' σ' Hw E;
      cbn [DualProxy.apply_ops] in E.
    - unfold ret in E. injection E as <- <-. by apply sends_same_caller.
    - apply bind_inv in E as (rw1 & σ1 & E1 & E).
      apply sends_apply_op in E1 as [H1 Hw1]; [|exact Hw].
      pose proof (sends_trans _ _ _ _ _ H1 (IH _ _ _ _ Hw1 E)) as H2.
      by destruct op.
  Qed.

  (** An exchange of [part_000] whose capture succeeded: the request is
      dispatched to the primary handler first, and the caller is sent what
      that handler sends. *)
Lemma proxy_exchange_caller ds r σ ds1 rs ws σ1 ds' σ' :
    DualProxy.saveRequestResponse ds r 2 σ = Ok (ds1, (rs, ws, None)) σ1 ->
    DualProxy.exchange ds r σ = Ok ds' σ' ->
    exists d0 cs,
      calls σ' = calls σ ++ (Primary, d0) :: cs
      /\ sends (first_sent (primary ds d0)) σ σ'.
  Proof.
    intros Hsave E.
    pose proof (wp_inv _ _ _ _ _
                  (wp_saveRequestResponse_proxy ds r σ σ ltac:(reflexivity))
                  Hsave) as (-> & [_ Hq1] & Hshape).
    destruct Hshape as (r0 & r1 & f0 & f1 & -> & -> & _).
    destruct Hq1 as (Hcaller1 & Hcalls1 & _).
    unfold DualProxy.exchange in E.
    apply bind_inv in E as ([ds2 g] & σh & Es & E).
    unfold DualProxy.ServeHTTP in Es.
    apply bind_inv in Es as (x & σ1' & E1 & Es).
    rewrite Hsave in E1. injection E1 as <- <-.
    cbn [lookup list_lookup file_writer DualProxy.RW.WriteCloser
         DualProxy.RW.h DualProxy.RW.status] in Es.
    apply bind_inv in Es as ([] & σ2 & El & Es).
    unfold Log, modify in El. injection El as <-.
    apply bind_inv in Es as (rw0' & σ3 & Eh & Es).
    unfold DualProxy.Handler_ServeHTTP in Eh.
    apply bind_inv in Eh as (h & σa & Ea & Eh).
    destruct (keeps_load_header quiet _ _ _ _ Ea) as [(Ca & Sa & _) _].
    apply bind_inv in Eh as ([b rerr] & σb & Eb & Eh).
    destruct (keeps_read_all quiet _ _ _ _ Eb) as [(Cb & Sb & _) _].
    apply bind_inv in Eh as (cerr & σc & Ec & Eh).
    destruct (keeps_Body_Close quiet _ _ _ _ Ec) as [(Cc & Sc & _) _].
    apply bind_inv in Eh as ([] & σd & Ed & Eh).
    unfold modify in Ed. injection Ed as <-.
    set (d0 := request_data r0 h b) in *.
    pose proof (λ Hw, sends_apply_ops _ _ _ _ _ Hw Eh) as Hsends.
    specialize (Hsends eq_refl).
    destruct (keeps_apply_ops calls_grow _ _ _ _ _ Eh) as [[cs3 G3] _].
    apply bind_inv in Es as ([] & σ4 & E4 & Es).
    destruct (keeps_WriteCloser_Close same_caller _ _ _ _ E4) as [C4 _].
    destruct (keeps_WriteCloser_Close calls_grow _ _ _ _ E4) as [[cs4 G4] _].
    unfold ret in Es. injection Es as <- <- <-.
    apply bind_inv in E as ([] & σg & Eg & E).
    unfold ret in E. injection E as _ <-.
    destruct (keeps_same_caller_goroutine_proxy _ _ _ _ _ _ _ Eg) as [Cg _].
    assert (Gg : calls_grow σ4 σg).
    { eapply keeps_secondary_goroutine_proxy; [..|exact Eg]; try tc_solve.
      intros. apply keeps_calls_grow_Log. }
    destruct Gg as [csg Gg].
    exists d0, (cs3 ++ cs4 ++ csg). split.
    - rewrite Gg, G4, G3. cbn. rewrite Sc, Sb, Sa. cbn. rewrite Hcalls1.
      by rewrite <- !app_assoc.
    - unfold sends, status_sent, same_caller in *. cbn in *.
      rewrite Cg, C4, Hsends. cbn. by rewrite Cc, Cb, Ca, Hcaller1.
  Qed.

End PrimaryReport.

Section PrimaryReportScenario.
  #[local] Existing Instance HTTP11.http11.

End PrimaryReportScenario.
